(** * Change-point detection on per-word z-score time series

    A shallow embedding of [time_series_analysis.py]: the standardizer
    ([get_z_score_dict]), the mean-shift statistic ([compute_mean_shift],
    [get_mean_shift_series]), the permutation test ([get_p_value_series]),
    the detector ([detect_change_point]) and the ranking stage of the
    script's main block.

    Python floats and NumPy [float64] values are IEEE binary64 numbers and
    are modelled by Rocq's primitive floats; [None] is modelled by
    [option].  Exceptions are modelled by the [result] type, NumPy's global
    random generator by explicit state passing.  Printing is not modelled. *)

From Stdlib Require Import ZArith List Bool Lia String Floats Uint63 Permutation
  Sorted DecimalString.
From stdpp Require Import base list.

(** ** Python exceptions *)

Inductive exn : Type :=
| IndexError
| KeyError
| ValueError
| UnboundLocalError.

Inductive result (A : Type) : Type :=
| Ok (a : A)
| Raise (e : exn).

Arguments Ok {A} a.
Arguments Raise {A} e.

Definition bind {A B : Type} (r : result A) (k : A -> result B) : result B :=
  match r with
  | Ok a => k a
  | Raise e => Raise e
  end.

Notation "'let!' x := r 'in' k" := (bind r (fun x => k))
  (at level 10, x pattern, r at level 100, k at level 200).

(** [l[i]] for a non-negative index [i]. *)
Definition py_index {A : Type} (l : list A) (i : nat) : result A :=
  match l !! i with
  | Some v => Ok v
  | None => Raise IndexError
  end.

(** [d[k]] on a dictionary kept as an association list in insertion order. *)
Fixpoint py_getitem {A : Type} (d : list (string * A)) (k : string) : result A :=
  match d with
  | [] => Raise KeyError
  | (k', v) :: d' => if String.eqb k' k then Ok v else py_getitem d' k
  end.

(** ** Floats *)

(** [bool(x)] of a float: [x != 0.0]; a NaN is truthy, both zeros are falsy. *)
Definition float_truthy (x : float) : bool := negb (x =? 0)%float.

(** [bool(v)] of a value that is a float or [None]. *)
Definition truthy (v : option float) : bool :=
  match v with
  | Some x => float_truthy x
  | None => false
  end.

(** Conversion of an integer to binary64, for magnitudes below [2^63]. *)
Definition float_of_int (z : Z) : float :=
  match z with
  | Z0 => 0%float
  | Zpos _ => of_uint63 (Uint63.of_Z z)
  | Zneg p => (- of_uint63 (Uint63.of_Z (Zpos p)))%float
  end.

(** [x += 1.0], [k] times, starting from [0.0]: the value of a float counter
    after [k] increments. *)
Definition float_count (k : nat) : float :=
  Nat.iter k (fun x => (x + 1)%float) 0%float.

(** ** NumPy reductions *)

(** The sum is taken left to right; NumPy adds in another order on long
    arrays, which changes the rounding of the result only. *)
Definition np_sum (l : list float) : float := fold_left PrimFloat.add l 0%float.

(** [np.mean]: on an empty list this is [0.0 / 0], a NaN. *)
Definition np_mean (l : list float) : float :=
  (np_sum l / float_of_int (Z.of_nat (length l)))%float.

(** [np.var]: the population variance, the mean of squared deviations. *)
Definition np_var (l : list float) : float :=
  let m := np_mean l in
  np_mean (map (fun x => ((x - m) * (x - m))%float) l).

(** [np.minimum] on two floats: a NaN propagates. *)
Definition np_minimum (a b : float) : float :=
  if (a <? b)%float || is_nan a then a else b.

(** [arr.min()]: [ValueError] on an empty array. *)
Definition np_min (p : list float) : result float :=
  match p with
  | [] => Raise ValueError
  | x :: xs => Ok (fold_left np_minimum xs x)
  end.

(** [np.where(p == m)[0]], the indices counted from [i]. *)
Fixpoint np_where_eq_from (i : nat) (p : list float) (m : float) : list nat :=
  match p with
  | [] => []
  | v :: p' =>
      if (v =? m)%float then i :: np_where_eq_from (S i) p' m
      else np_where_eq_from (S i) p' m
  end.

Definition np_where_eq (p : list float) (m : float) : list nat :=
  np_where_eq_from 0 p m.

(** ** Python builtins *)

(** [max(l, key=key)]: the running maximum is replaced only by an item whose
    key is strictly greater, so the first of several maximal items wins. *)
Fixpoint py_max_from {A : Type} (key : A -> float) (cur : A) (l : list A) : A :=
  match l with
  | [] => cur
  | x :: l' => py_max_from key (if (key cur <? key x)%float then x else cur) l'
  end.

Definition py_max {A : Type} (key : A -> float) (l : list A) : result A :=
  match l with
  | [] => Raise ValueError
  | x :: l' => Ok (py_max_from key x l')
  end.

(** [sorted(l, key=key)] as a stable insertion sort. *)
Fixpoint py_insert {A : Type} (key : A -> float) (x : A) (l : list A) : list A :=
  match l with
  | [] => [x]
  | y :: l' => if (key y <? key x)%float then y :: py_insert key x l' else x :: l
  end.

Definition py_sorted {A : Type} (key : A -> float) (l : list A) : list A :=
  foldr (py_insert key) [] l.

(** [l[:n]] for an integer [n] of either sign. *)
Definition py_slice_to {A : Type} (n : Z) (l : list A) : list A :=
  if (n <? 0)%Z then take (length l - Z.to_nat (- n)) l else take (Z.to_nat n) l.

(** [[x for x in l if x]] on a list of floats. *)
Definition keep_truthy (l : list float) : list float :=
  List.filter float_truthy l.

(** ** The standardizer *)

(** [[i for i in dist_dict.values() if i]]. *)
Fixpoint truthy_values (d : list (string * option float)) : list float :=
  match d with
  | [] => []
  | (_, Some x) :: d' =>
      if float_truthy x then x :: truthy_values d' else truthy_values d'
  | (_, None) :: d' => truthy_values d'
  end.

(** A dictionary has one entry per key, so [dist_dict[word]] inside the loop
    over the keys is the value stored with [word]. *)
Definition get_z_score_dict (dist_dict : list (string * option float))
  : list (string * option float) :=
  let mean := np_mean (truthy_values dist_dict) in
  let var := np_var (truthy_values dist_dict) in
  map (fun '(word, d) =>
         match d with
         | Some x =>
             if float_truthy x then (word, Some ((x - mean) / PrimFloat.sqrt var)%float)
             else (word, None)
         | None => (word, None)
         end) dist_dict.

(** ** The mean-shift statistic *)

Definition compute_mean_shift (time_series : list float) (j : nat)
    (compare_to : string) : float :=
  if String.eqb compare_to "first" then
    (np_mean (keep_truthy (drop (S j) time_series))
     - np_mean (keep_truthy (take (S j) time_series)))%float
  else
    (np_mean (keep_truthy (take (S j) time_series))
     - np_mean (keep_truthy (drop (S j) time_series)))%float.

Definition get_mean_shift_series (time_series : list float)
    (compare_to : string) : list float :=
  map (fun j => compute_mean_shift time_series j compare_to)
      (seq 0 (length time_series - 1)).

(** ** The permutation test *)

(** The loop over [x] for one permuted series: the counter at [x] is
    incremented when the original mean-shift at [x] is a NaN, or else when
    the permuted mean-shift at [x] is strictly greater than it. *)
Fixpoint count_exceeding (xs : list nat)
    (mean_shift_series mean_shift_permuted_series p_value_series : list float)
  : result (list float) :=
  match xs with
  | [] => Ok p_value_series
  | x :: xs' =>
      let! m := py_index mean_shift_series x in
      if is_nan m then
        let! v := py_index p_value_series x in
        count_exceeding xs' mean_shift_series mean_shift_permuted_series
          (<[x := (v + 1)%float]> p_value_series)
      else
        let! pm := py_index mean_shift_permuted_series x in
        if (m <? pm)%float then
          let! v := py_index p_value_series x in
          count_exceeding xs' mean_shift_series mean_shift_permuted_series
            (<[x := (v + 1)%float]> p_value_series)
        else
          count_exceeding xs' mean_shift_series mean_shift_permuted_series
            p_value_series
  end.

Section Detector.

(** The state of NumPy's global generator, and [np.random.permutation]
    as a function of that state. *)
Variable rng : Type.
Variable np_random_permutation : rng -> list float -> list float * rng.

(** The loop over [i in range(n_samples)]. *)
Fixpoint permutation_trials (n : nat)
    (mean_shift_series z_score_series : list float) (compare_to : string)
    (p_value_series : list float) (g : rng) : result (list float) * rng :=
  match n with
  | O => (Ok p_value_series, g)
  | S n' =>
      let '(permuted_z_score_series, g') :=
        np_random_permutation g z_score_series in
      let mean_shift_permuted_series :=
        get_mean_shift_series permuted_z_score_series compare_to in
      match count_exceeding (seq 0 (length mean_shift_permuted_series))
              mean_shift_series mean_shift_permuted_series p_value_series with
      | Ok p' =>
          permutation_trials n' mean_shift_series z_score_series compare_to p' g'
      | Raise e => (Raise e, g')
      end
  end.

(** [p_value_series /= n_samples] divides every counter by the sample count
    converted to a float; a zero divisor gives NaN or an infinity, not an
    exception. *)
Definition get_p_value_series (word : string) (mean_shift_series : list float)
    (n_samples : Z) (z_score_series : list float) (compare_to : string)
    (g : rng) : result (list float) * rng :=
  let p_value_series := replicate (length mean_shift_series) 0%float in
  match permutation_trials (Z.to_nat n_samples) mean_shift_series
          z_score_series compare_to p_value_series g with
  | (Ok p, g') =>
      (Ok (map (fun c => (c / float_of_int n_samples)%float) p), g')
  | (Raise e, g') => (Raise e, g')
  end.

(** ** The detector *)

(** A result tuple [(word, time_slice_label, p_value, mean_shift, z_score)]. *)
Definition change_point : Type := string * string * float * float * float.

Definition cp_p_value (r : change_point) : float :=
  let '(_, _, p, _, _) := r in p.
Definition cp_mean_shift (r : change_point) : float :=
  let '(_, _, _, m, _) := r in m.
Definition cp_z_score (r : change_point) : float :=
  let '(_, _, _, _, z) := r in z.

(** [[time_slice_labels[i] for i in ... if z_score_series[i]]]. *)
Fixpoint labels_where_truthy (idx : list nat) (time_slice_labels : list string)
    (z_score_series : list (option float)) : result (list string) :=
  match idx with
  | [] => Ok []
  | i :: idx' =>
      let! v := py_index z_score_series i in
      if truthy v then
        let! l := py_index time_slice_labels i in
        let! rest := labels_where_truthy idx' time_slice_labels z_score_series in
        Ok (l :: rest)
      else labels_where_truthy idx' time_slice_labels z_score_series
  end.

(** [[i for i in z_score_series if i]]. *)
Fixpoint compact (z_score_series : list (option float)) : list float :=
  match z_score_series with
  | [] => []
  | Some x :: z' => if float_truthy x then x :: compact z' else compact z'
  | None :: z' => compact z'
  end.

(** The loop that sets to 1 the p-value of every index whose z-score is
    below the gamma threshold. *)
Fixpoint magnitude_gate (idx : list nat) (z_score_series : list float)
    (gamma_threshold : float) (p_value_series : list float)
  : result (list float) :=
  match idx with
  | [] => Ok p_value_series
  | i :: idx' =>
      let! z := py_index z_score_series i in
      if (z <? gamma_threshold)%float then
        magnitude_gate idx' z_score_series gamma_threshold
          (<[i := 1%float]> p_value_series)
      else magnitude_gate idx' z_score_series gamma_threshold p_value_series
  end.

(** [[(i, mean_shift_series[i]) for i in indices]]. *)
Fixpoint candidates (indices : list nat) (mean_shift_series : list float)
  : result (list (nat * float)) :=
  match indices with
  | [] => Ok []
  | i :: idx' =>
      let! m := py_index mean_shift_series i in
      let! rest := candidates idx' mean_shift_series in
      Ok ((i, m) :: rest)
  end.

(** The gate, the minimum and the selection.  [min()] of an empty array
    raises [ValueError]; the handler prints and falls through, so the test
    of [min_p_val] that follows reads a variable that was never bound. *)
Definition select_change_point (word : string)
    (notNone_time_slice_labels : list string)
    (z_score_series mean_shift_series p_value_series : list float)
    (p_value_threshold gamma_threshold : float)
  : result (option change_point) :=
  let! p := magnitude_gate (seq 0 (length p_value_series)) z_score_series
              gamma_threshold p_value_series in
  let! min_p_val :=
    match np_min p with
    | Raise ValueError => Raise UnboundLocalError
    | r => r
    end in
  if (min_p_val <? p_value_threshold)%float then
    let indices := np_where_eq p min_p_val in
    let! cands := candidates indices mean_shift_series in
    let! best := py_max snd cands in
    let '(change_point, mean_shift) := best in
    let! z_score := py_index z_score_series change_point in
    let! time_slice_label := py_index notNone_time_slice_labels change_point in
    Ok (Some (word, time_slice_label, min_p_val, mean_shift, z_score))
  else Ok None.

Definition detect_change_point (word : string) (time_slice_labels : list string)
    (z_score_series : list (option float)) (n_samples : Z)
    (p_value_threshold gamma_threshold : float) (compare_to : string)
    (g : rng) : result (option change_point) * rng :=
  match labels_where_truthy (seq 0 (length time_slice_labels))
          time_slice_labels z_score_series with
  | Raise e => (Raise e, g)
  | Ok [] => (Ok None, g)
  | Ok notNone_time_slice_labels =>
      let z_score_series := compact z_score_series in
      let mean_shift_series := get_mean_shift_series z_score_series compare_to in
      match get_p_value_series word mean_shift_series n_samples
              z_score_series compare_to g with
      | (Raise e, g') => (Raise e, g')
      | (Ok p_value_series, g') =>
          (select_change_point word notNone_time_slice_labels z_score_series
             mean_shift_series p_value_series p_value_threshold
             gamma_threshold, g')
      end
  end.

(** ** The analysis and ranking stage of the main block *)

Record options : Type := {
  compare_to : string;
  n_samples : Z;
  p_value_threshold : float;
  gamma_threshold : float;
  rank_by : string;
  n_best : Z
}.

(** [[dict_of_z_score_dicts[time_slice][word] for time_slice in labels]]. *)
Fixpoint z_score_series_of
    (dict_of_z_score_dicts : list (string * list (string * option float)))
    (time_slice_labels_used : list string) (word : string)
  : result (list (option float)) :=
  match time_slice_labels_used with
  | [] => Ok []
  | time_slice :: rest =>
      let! d := py_getitem dict_of_z_score_dicts time_slice in
      let! v := py_getitem d word in
      let! vs := z_score_series_of dict_of_z_score_dicts rest word in
      Ok (v :: vs)
  end.

(** The loop over the vocabulary: an exception in one word's detection is
    not caught and ends the loop. *)
Fixpoint collect_change_points (vocab : list string)
    (dict_of_z_score_dicts : list (string * list (string * option float)))
    (time_slice_labels_used : list string) (n_samples : Z)
    (p_value_threshold gamma_threshold : float) (compare_to : string)
    (g : rng) : result (list change_point) * rng :=
  match vocab with
  | [] => (Ok [], g)
  | word :: vocab' =>
      match z_score_series_of dict_of_z_score_dicts time_slice_labels_used word with
      | Raise e => (Raise e, g)
      | Ok z_score_series =>
          match detect_change_point word time_slice_labels_used z_score_series
                  n_samples p_value_threshold gamma_threshold compare_to g with
          | (Raise e, g') => (Raise e, g')
          | (Ok cp, g') =>
              match collect_change_points vocab' dict_of_z_score_dicts
                      time_slice_labels_used n_samples p_value_threshold
                      gamma_threshold compare_to g' with
              | (Ok results, g'') =>
                  (Ok (match cp with
                       | Some r => r :: results
                       | None => results
                       end), g'')
              | (Raise e, g'') => (Raise e, g'')
              end
          end
      end
  end.

(** The three-way branch on [options.rank_by]; its last branch is taken for
    every key other than ["z_score"] and ["mean_shift"]. *)
Definition rank_results (rank_by : string) (results : list change_point)
  : list change_point :=
  if String.eqb rank_by "z_score" then
    py_sorted (fun x => (- cp_z_score x)%float) results
  else if String.eqb rank_by "mean_shift" then
    py_sorted (fun x => (- cp_mean_shift x)%float) results
  else
    py_sorted cp_p_value (py_sorted (fun x => (- cp_mean_shift x)%float) results).

(** From the loop over the vocabulary to the rows written to the report. *)
Definition analyse (vocab : list string)
    (dict_of_z_score_dicts : list (string * list (string * option float)))
    (time_slice_labels_used : list string) (o : options) (g : rng)
  : result (list change_point) * rng :=
  match collect_change_points vocab dict_of_z_score_dicts
          time_slice_labels_used (n_samples o) (p_value_threshold o)
          (gamma_threshold o) (compare_to o) g with
  | (Ok results, g') =>
      (Ok (py_slice_to (n_best o) (rank_results (rank_by o) results)), g')
  | (Raise e, g') => (Raise e, g')
  end.

End Detector.


(** ** The distance dictionary *)

Section Distances.

(** A loaded embedding model, membership of a word in its vocabulary, and
    the two distance measures applied to a word's vectors in two models. *)
Variable keyed_vectors : Type.
Variable contains : keyed_vectors -> string -> bool.
Variable cosine : keyed_vectors -> keyed_vectors -> string -> float.
Variable measure_semantic_shift_by_neighborhood :
  keyed_vectors -> keyed_vectors -> string -> Z -> float.
Variable smart_procrustes_align_gensim :
  keyed_vectors -> keyed_vectors -> keyed_vectors.

(** The three models are passed loaded.  The branch on [distance_measure]
    is two-way: every measure other than ["cosine"] takes the
    neighbourhood branch. *)
Definition get_dist_dict
    (model alignment_reference_model comparison_reference_model : keyed_vectors)
    (vocab : list string) (distance_measure : string) (k : Z)
    (training_mode : string) : list (string * option float) :=
  let align :=
    String.eqb distance_measure "cosine"
    && String.eqb training_mode "independent" in
  let model' :=
    if align then smart_procrustes_align_gensim alignment_reference_model model
    else model in
  let comparison_reference_model' :=
    if align then
      smart_procrustes_align_gensim alignment_reference_model
        comparison_reference_model
    else comparison_reference_model in
  map (fun word =>
         if contains comparison_reference_model' word && contains model' word then
           if String.eqb distance_measure "cosine" then
             (word, Some (cosine comparison_reference_model' model' word))
           else
             (word, Some (measure_semantic_shift_by_neighborhood
                            comparison_reference_model' model' word k))
         else (word, None)) vocab.

End Distances.

(** ** The order of binary64 numbers *)

(** A number that is not a NaN is ranked by a triple of integers compared
    lexicographically: its class (infinities, negative, zero, positive),
    then exponent and mantissa, both negated for a negative number. *)
Definition sf_rank (x : spec_float) : option (Z * Z * Z) :=
  match x with
  | S754_nan => None
  | S754_zero _ => Some (0, 0, 0)%Z
  | S754_infinity s => Some (if s then (-2) else 2, 0, 0)%Z
  | S754_finite s m e =>
      Some (if s then ((-1), (- e), Zneg m)%Z else (1, e, Zpos m)%Z)
  end.

Definition rank_compare (a b : Z * Z * Z) : comparison :=
  let '(a1, a2, a3) := a in
  let '(b1, b2, b3) := b in
  match (a1 ?= b1)%Z with
  | Eq => match (a2 ?= b2)%Z with
          | Eq => (a3 ?= b3)%Z
          | c => c
          end
  | c => c
  end.

Definition rank_lt (a b : Z * Z * Z) : Prop := rank_compare a b = Lt.
Definition rank_le (a b : Z * Z * Z) : Prop := rank_compare a b <> Gt.

Definition float_rank (x : float) : option (Z * Z * Z) := sf_rank (Prim2SF x).

(** ** Auxiliary definitions for the statements *)

(** The positions that compaction keeps, as pairs of a z-score and its
    label: those whose z-score is a float other than zero. *)
Fixpoint kept (z : list (option float)) (labels : list string)
  : list (float * string) :=
  match z, labels with
  | Some x :: z', l :: labels' =>
      if float_truthy x then (x, l) :: kept z' labels' else kept z' labels'
  | None :: z', _ :: labels' => kept z' labels'
  | _, _ => []
  end.

(** The test of the permutation loop: the original mean-shift is a NaN, or
    the permuted one is strictly greater. *)
Definition exceeds (original permuted : float) : bool :=
  is_nan original || (original <? permuted)%float.

Definition exceeds_at (original : float) (j : nat) (compare_to : string)
    (permuted_z_score_series : list float) : bool :=
  match get_mean_shift_series permuted_z_score_series compare_to !! j with
  | Some pm => exceeds original pm
  | None => false
  end.

Section Draws.

Variable rng : Type.
Variable np_random_permutation : rng -> list float -> list float * rng.

(** The permutations drawn by [n] successive calls from state [g]. *)
Fixpoint permutation_draws (n : nat) (z_score_series : list float) (g : rng)
  : list (list float) :=
  match n with
  | O => []
  | S n' =>
      let '(permuted, g') := np_random_permutation g z_score_series in
      permuted :: permutation_draws n' z_score_series g'
  end.

End Draws.

(** How many of the draws exceed the original mean-shift at index [j]. *)
Definition count_exceeding_draws (original : float) (j : nat)
    (compare_to : string) (draws : list (list float)) : nat :=
  length (List.filter (exceeds_at original j compare_to) draws).

(** A generator for the examples: the state is a counter and the [g]-th
    permutation rotates the series by [g] places. *)
Definition rotating_permutation (g : nat) (l : list float) : list float * nat :=
  (rotate g l, S g).

(** The binary64 representation of a positive integer below [2^53]: the
    mantissa is shifted left to 53 binary digits. *)
Definition sf_of_pos (n : positive) : spec_float :=
  S754_finite false
    (Pos.shiftl n (Z.to_N (53 - Zpos (digits2_pos n))))
    (Zpos (digits2_pos n) - 53).

(** ** Inputs of the examples *)

Definition ex_labels : list string :=
  ["2012_02"; "2012_03"; "2012_04"; "2012_05"]%string.

Definition ex_z : list (option float) :=
  [Some 0.5%float; Some 0.25%float; Some 5%float; Some 5.5%float].

(** The word "dog" has a distance at the first time slice only. *)
Definition ex_dicts : list (string * list (string * option float)) :=
  [("2012_02", [("cat", Some 0.5%float); ("dog", Some 1.5%float)]);
   ("2012_03", [("cat", Some 0.25%float); ("dog", None)]);
   ("2012_04", [("cat", Some 5%float); ("dog", None)]);
   ("2012_05", [("cat", Some 5.5%float); ("dog", None)])]%string.

Definition ex_options (rank_key : string) : options :=
  {| compare_to := "first"; n_samples := 8; p_value_threshold := 0.0625%float;
     gamma_threshold := 0%float; rank_by := rank_key; n_best := 1000 |}.

(** The change point of "cat" in these inputs. *)
Definition ex_result : change_point :=
  ("cat"%string, "2012_03"%string, 0%float, 4.875%float, 0.25%float).

(** A toy embedding model: the words it contains. *)
Definition ex_contains (model : list string) (word : string) : bool :=
  existsb (String.eqb word) model.

(** ** Auxiliary definitions for the further properties *)

(** The word of a result tuple. *)
Definition cp_word (r : change_point) : string :=
  let '(w, _, _, _, _) := r in w.

(** The order of a list sorted on a float key by a stable sort: the keys
    ascend, and items with equal keys satisfy the relation [R] that held
    between them before the sort. *)
Definition key_then {A : Type} (key : A -> float) (R : A -> A -> Prop)
    (a b : A) : Prop :=
  (key a <? key b)%float = true \/ ((key a =? key b)%float = true /\ R a b).

(** ** The enumeration of the time slices *)

(** [range(a, b)]. *)
Definition py_range (a b : Z) : list Z :=
  map (fun k => (a + Z.of_nat k)%Z) (seq 0 (Z.to_nat (b - a))).

(** ["{}".format(n)] for an integer: its decimal digits, after a minus sign
    when it is negative. *)
Definition str_int (n : Z) : string := NilZero.string_of_int (Z.to_int n).

(** ["{:02}".format(n)]: zeros are put in front up to a width of 2. *)
Definition format_02 (n : Z) : string :=
  let s := str_int n in
  if (String.length s <? 2)%nat then ("0" ++ s)%string else s.

(** ["{}_{:02}".format(year, month)]. *)
Definition time_slice_of (year month : Z) : string :=
  (str_int year ++ "_" ++ format_02 month)%string.

(** The path of the model of a time slice under [models_rootdir]. *)
Definition model_path_of (models_rootdir : string)
    (vector_size window_size min_count no_of_iter : Z) (year month : Z)
  : string :=
  (models_rootdir ++ "/" ++ str_int year ++ "-" ++ format_02 month ++ "_"
   ++ str_int year ++ "-" ++ format_02 month ++ "/vec_" ++ str_int vector_size
   ++ "_w" ++ str_int window_size ++ "_mc" ++ str_int min_count ++ "_iter"
   ++ str_int no_of_iter ++ "/saved_model.gensim")%string.

Section TimeSlices.

(** [os.path.isfile] on the file system of the run. *)
Variable isfile : string -> bool.

Variable models_rootdir : string.
Variables vector_size window_size min_count no_of_iter : Z.
Variables first_year first_month last_year last_month : Z.

(** The loop over the months of one year, on the two lists built so far:
    [continue] goes on with the next month, [break] leaves the loop. *)
Fixpoint month_loop (months : list Z) (year : Z)
    (model_paths time_slice_labels : list string) : list string * list string :=
  match months with
  | [] => (model_paths, time_slice_labels)
  | month :: rest =>
      if (year =? first_year)%Z && (month <? first_month)%Z then
        month_loop rest year model_paths time_slice_labels
      else if (year =? last_year)%Z && (month >? last_month)%Z then
        (model_paths, time_slice_labels)
      else
        let time_slice := time_slice_of year month in
        let model_path :=
          model_path_of models_rootdir vector_size window_size min_count
            no_of_iter year month in
        if isfile model_path then
          month_loop rest year (model_paths ++ [model_path])
            (time_slice_labels ++ [time_slice])
        else month_loop rest year model_paths time_slice_labels
  end.

(** The loop over the years. *)
Fixpoint year_loop (years : list Z)
    (model_paths time_slice_labels : list string) : list string * list string :=
  match years with
  | [] => (model_paths, time_slice_labels)
  | year :: rest =>
      if (year <? first_year)%Z then
        year_loop rest model_paths time_slice_labels
      else if (year >? last_year)%Z then (model_paths, time_slice_labels)
      else
        let '(model_paths', time_slice_labels') :=
          month_loop (py_range 1 13) year model_paths time_slice_labels in
        year_loop rest model_paths' time_slice_labels'
  end.

(** The model paths and the time-slice labels of a run. *)
Definition enumerate_time_slices : list string * list string :=
  year_loop (py_range 2011 2019) [] [].

End TimeSlices.

(** Every month of the years 2011 to 2018, in the order of the calendar. *)
Definition calendar : list (Z * Z) :=
  flat_map (fun year => map (fun month => (year, month)) (py_range 1 13))
    (py_range 2011 2019).

(** A month lies between the first and the last time slice of a run. *)
Definition in_window (first_year first_month last_year last_month : Z)
    (slice : Z * Z) : bool :=
  let '(year, month) := slice in
  (first_year <=? year)%Z && (year <=? last_year)%Z
  && negb ((year =? first_year)%Z && (month <? first_month)%Z)
  && negb ((year =? last_year)%Z && (month >? last_month)%Z).

(** A time slice of a run: a month inside the window whose model file
    exists. *)
Definition selected (isfile : string -> bool) (models_rootdir : string)
    (vector_size window_size min_count no_of_iter : Z)
    (first_year first_month last_year last_month : Z) (slice : Z * Z) : bool :=
  in_window first_year first_month last_year last_month slice
  && isfile (model_path_of models_rootdir vector_size window_size min_count
               no_of_iter slice.1 slice.2).

#[local] Instance string_eq_dec : EqDecision string := string_dec.

(** ** The snapshot loop of the main block *)

(** [l[i]] for an integer index of either sign. *)
Definition py_index_int {A : Type} (l : list A) (i : Z) : result A :=
  if (i <? 0)%Z then
    if (Z.of_nat (length l) + i <? 0)%Z then Raise IndexError
    else py_index l (Z.to_nat (Z.of_nat (length l) + i))
  else py_index l (Z.to_nat i).

(** [d[k] = v]: the value of an existing key is replaced where it stands, a
    new key is added at the end. *)
Fixpoint py_setitem {A : Type} (d : list (string * A)) (k : string) (v : A)
  : list (string * A) :=
  match d with
  | [] => [(k, v)]
  | (k', v') :: d' =>
      if String.eqb k' k then (k', v) :: d' else (k', v') :: py_setitem d' k v
  end.

Section Snapshots.

Variable keyed_vectors : Type.
Variable contains : keyed_vectors -> string -> bool.
Variable cosine : keyed_vectors -> keyed_vectors -> string -> float.
Variable measure_semantic_shift_by_neighborhood :
  keyed_vectors -> keyed_vectors -> string -> Z -> float.
Variable smart_procrustes_align_gensim :
  keyed_vectors -> keyed_vectors -> keyed_vectors.

(** [load_model] reads a file: it raises when the file is missing. *)
Variable load_model : string -> result keyed_vectors.

(** [get_dist_dict] on three paths: the three loads, then the dictionary. *)
Definition get_dist_dict_of_paths
    (model_path alignment_reference_model_path
       comparison_reference_model_path : string)
    (vocab : list string) (distance_measure : string) (k : Z)
    (training_mode : string) : result (list (string * option float)) :=
  let! model := load_model model_path in
  let! alignment_reference_model := load_model alignment_reference_model_path in
  let! comparison_reference_model :=
    load_model comparison_reference_model_path in
  Ok (get_dist_dict keyed_vectors contains cosine
        measure_semantic_shift_by_neighborhood smart_procrustes_align_gensim
        model alignment_reference_model comparison_reference_model vocab
        distance_measure k training_mode).

(** The reference path of a policy at index [i]: the first model, the last
    model, or the one at [i-1], which for [i = 0] is again the last. *)
Definition reference_model_path (model_paths : list string) (policy : string)
    (i : nat) : result string :=
  if String.eqb policy "first" then py_index_int model_paths 0
  else if String.eqb policy "last" then py_index_int model_paths (-1)
  else py_index_int model_paths (Z.of_nat i - 1).

(** The loop over [enumerate(model_paths)], from the pairs still to visit
    and the two accumulators.  The right-hand side of the assignment is
    evaluated before [time_slice_labels[i]], which is read once more for
    the append. *)
Fixpoint snapshot_loop (items : list (nat * string))
    (model_paths time_slice_labels vocab : list string)
    (align_to compare_to distance_measure : string) (k_neighbors : Z)
    (training_mode : string)
    (dict_of_z_score_dicts : list (string * list (string * option float)))
    (time_slice_labels_used : list string)
  : result (list (string * list (string * option float)) * list string) :=
  match items with
  | [] => Ok (dict_of_z_score_dicts, time_slice_labels_used)
  | (i, model_path) :: rest =>
      if (i =? 0)%nat
         && (String.eqb compare_to "previous" || String.eqb align_to "previous"
             || String.eqb compare_to "first")
      then
        snapshot_loop rest model_paths time_slice_labels vocab align_to
          compare_to distance_measure k_neighbors training_mode
          dict_of_z_score_dicts time_slice_labels_used
      else if (Z.of_nat i =? Z.of_nat (length model_paths) - 1)%Z
              && String.eqb compare_to "last"
      then
        snapshot_loop rest model_paths time_slice_labels vocab align_to
          compare_to distance_measure k_neighbors training_mode
          dict_of_z_score_dicts time_slice_labels_used
      else
        let! alignment_reference_model_path :=
          reference_model_path model_paths align_to i in
        let! comparison_reference_model_path :=
          reference_model_path model_paths compare_to i in
        let! dist_dict :=
          get_dist_dict_of_paths model_path alignment_reference_model_path
            comparison_reference_model_path vocab distance_measure k_neighbors
            training_mode in
        let! time_slice := py_index time_slice_labels i in
        snapshot_loop rest model_paths time_slice_labels vocab align_to
          compare_to distance_measure k_neighbors training_mode
          (py_setitem dict_of_z_score_dicts time_slice
             (get_z_score_dict dist_dict))
          (time_slice_labels_used ++ [time_slice])
  end.

Definition snapshots (model_paths time_slice_labels vocab : list string)
    (align_to compare_to distance_measure : string) (k_neighbors : Z)
    (training_mode : string)
  : result (list (string * list (string * option float)) * list string) :=
  snapshot_loop (zip (seq 0 (length model_paths)) model_paths) model_paths
    time_slice_labels vocab align_to compare_to distance_measure k_neighbors
    training_mode [] [].

(** The main block from the snapshot loop to the rows of the report. *)
Definition snapshots_then_analyse (rng : Type)
    (np_random_permutation : rng -> list float -> list float * rng)
    (model_paths time_slice_labels vocab : list string)
    (align_to distance_measure : string) (k_neighbors : Z)
    (training_mode : string) (o : options) (g : rng)
  : result (list change_point) * rng :=
  match snapshots model_paths time_slice_labels vocab align_to (compare_to o)
          distance_measure k_neighbors training_mode with
  | Raise e => (Raise e, g)
  | Ok (dict_of_z_score_dicts, time_slice_labels_used) =>
      analyse rng np_random_permutation vocab dict_of_z_score_dicts
        time_slice_labels_used o g
  end.

End Snapshots.

(** The labels the snapshot loop uses: the first one is left out when the
    comparison is to the first or the previous model or the alignment is to
    the previous model, the last one when the comparison is to the last. *)
Definition labels_used (time_slice_labels : list string)
    (align_to compare_to : string) : list string :=
  let skip_first :=
    String.eqb compare_to "previous" || String.eqb align_to "previous"
    || String.eqb compare_to "first" in
  let skip_last := String.eqb compare_to "last" in
  drop (if skip_first then 1 else 0)
    (take (length time_slice_labels - (if skip_last then 1 else 0))
       time_slice_labels).

(** ** The main block on a stored vocabulary *)

Section Main.

Variable keyed_vectors : Type.
Variable contains : keyed_vectors -> string -> bool.
Variable cosine : keyed_vectors -> keyed_vectors -> string -> float.
Variable measure_semantic_shift_by_neighborhood :
  keyed_vectors -> keyed_vectors -> string -> Z -> float.
Variable smart_procrustes_align_gensim :
  keyed_vectors -> keyed_vectors -> keyed_vectors.
Variable load_model : string -> result keyed_vectors.
Variable isfile : string -> bool.
Variable rng : Type.
Variable np_random_permutation : rng -> list float -> list float * rng.

(** The enumeration of the time slices, the snapshot loop and the analysis,
    on the vocabulary read from the vocabulary file. *)
Definition main_on_stored_vocab (models_rootdir : string)
    (vector_size window_size min_count no_of_iter : Z)
    (first_year first_month last_year last_month : Z) (vocab : list string)
    (align_to distance_measure : string) (k_neighbors : Z)
    (training_mode : string) (o : options) (g : rng)
  : result (list change_point) * rng :=
  let '(model_paths, time_slice_labels) :=
    enumerate_time_slices isfile models_rootdir vector_size window_size
      min_count no_of_iter first_year first_month last_year last_month in
  snapshots_then_analyse keyed_vectors contains cosine
    measure_semantic_shift_by_neighborhood smart_procrustes_align_gensim
    load_model rng np_random_permutation model_paths time_slice_labels vocab
    align_to distance_measure k_neighbors training_mode o g.

End Main.

(** A run on three months of 2012 whose model files all exist. *)
Definition ex_run : result (list change_point) * nat :=
  main_on_stored_vocab (list string) ex_contains (fun _ _ _ => 0.25%float)
    (fun _ _ _ _ => 0.75%float) (fun _ m => m)
    (fun _ => Ok ["cat"; "dog"]%string) (fun _ => true) nat
    rotating_permutation "models" 200 9 100 15 2012 1 2012 3
    ["cat"; "emu"]%string "last" "neighborhood" 25 "independent"
    (ex_options "p_value") 0.

(** * Properties *)

(** ** Comparisons of binary64 numbers *)

Lemma SFcompare_rank (x y : spec_float) :
  SFcompare x y =
    match sf_rank x, sf_rank y with
    | Some a, Some b => Some (rank_compare a b)
    | _, _ => None
    end.
Proof.
  destruct x as [sx|sx| |sx mx ex], y as [sy|sy| |sy my ey];
    try destruct sx; try destruct sy; try reflexivity.
  cbn. rewrite Z.compare_opp, (Z.compare_antisym ex ey).
  destruct (ex ?= ey)%Z; reflexivity.
Qed.

Lemma rank_compare_lt (a b : Z * Z * Z) :
  rank_compare a b = Lt <->
  (a.1.1 < b.1.1 \/ (a.1.1 = b.1.1 /\ (a.1.2 < b.1.2 \/ (a.1.2 = b.1.2 /\ a.2 < b.2))))%Z.
Proof.
  destruct a as [[a1 a2] a3], b as [[b1 b2] b3]; cbn.
  destruct (Z.compare_spec a1 b1), (Z.compare_spec a2 b2), (Z.compare_spec a3 b3);
    split; intros; try discriminate; try reflexivity; lia.
Qed.

Lemma rank_compare_eq (a b : Z * Z * Z) : rank_compare a b = Eq <-> a = b.
Proof.
  destruct a as [[a1 a2] a3], b as [[b1 b2] b3]; cbn.
  destruct (Z.compare_spec a1 b1), (Z.compare_spec a2 b2), (Z.compare_spec a3 b3);
    split; intros H'; try discriminate; try reflexivity;
    try (injection H'; intros; lia); congruence.
Qed.

Lemma rank_compare_gt (a b : Z * Z * Z) :
  rank_compare a b = Gt <-> rank_compare b a = Lt.
Proof.
  destruct a as [[a1 a2] a3], b as [[b1 b2] b3]; cbn.
  destruct (Z.compare_spec a1 b1), (Z.compare_spec a2 b2), (Z.compare_spec a3 b3),
    (Z.compare_spec b1 a1), (Z.compare_spec b2 a2), (Z.compare_spec b3 a3);
    split; intros; try discriminate; try reflexivity; lia.
Qed.

Lemma is_nan_rank (x : float) : is_nan x = true <-> float_rank x = None.
Proof.
  unfold float_rank, is_nan. rewrite FloatAxioms.eqb_spec. unfold SFeqb.
  rewrite SFcompare_rank.
  destruct (sf_rank (Prim2SF x)) as [a|] eqn:E.
  - assert (rank_compare a a = Eq) as -> by (apply rank_compare_eq; reflexivity).
    cbn. split; discriminate.
  - cbn. split; reflexivity.
Qed.

Lemma ltb_rank (x y : float) :
  (x <? y)%float = true <->
  exists a b, float_rank x = Some a /\ float_rank y = Some b /\ rank_lt a b.
Proof.
  rewrite FloatAxioms.ltb_spec. unfold SFltb, float_rank, rank_lt.
  rewrite SFcompare_rank.
  destruct (sf_rank (Prim2SF x)) as [a|], (sf_rank (Prim2SF y)) as [b|];
    try (split; [discriminate | intros (?&?&?&?&?); discriminate]).
  destruct (rank_compare a b) eqn:E;
    (split; [intros H0 | intros (a'&b'&[= ->]&[= ->]&H0)]);
    try discriminate; try reflexivity; try congruence; eauto.
Qed.

Lemma leb_rank (x y : float) :
  (x <=? y)%float = true <->
  exists a b, float_rank x = Some a /\ float_rank y = Some b /\ rank_le a b.
Proof.
  rewrite FloatAxioms.leb_spec. unfold SFleb, float_rank, rank_le.
  rewrite SFcompare_rank.
  destruct (sf_rank (Prim2SF x)) as [a|], (sf_rank (Prim2SF y)) as [b|];
    try (split; [discriminate | intros (?&?&?&?&?); discriminate]).
  destruct (rank_compare a b) eqn:E;
    (split; [intros H0 | intros (a'&b'&[= ->]&[= ->]&H0)]);
    try discriminate; try reflexivity; try congruence;
    exists a, b; rewrite E; repeat split; discriminate.
Qed.

Lemma eqb_rank (x y : float) :
  (x =? y)%float = true <->
  exists a, float_rank x = Some a /\ float_rank y = Some a.
Proof.
  rewrite FloatAxioms.eqb_spec. unfold SFeqb, float_rank.
  rewrite SFcompare_rank.
  destruct (sf_rank (Prim2SF x)) as [a|], (sf_rank (Prim2SF y)) as [b|];
    try (split; [discriminate | intros (?&?&?); discriminate]).
  destruct (rank_compare a b) eqn:E;
    (split; [intros H0 | intros (a'&[= ->]&[= ->])]);
    try discriminate; try reflexivity.
  - apply rank_compare_eq in E. subst. eauto.
  - assert (rank_compare a' a' = Eq) by (apply rank_compare_eq; reflexivity).
    congruence.
  - assert (rank_compare a' a' = Eq) by (apply rank_compare_eq; reflexivity).
    congruence.
Qed.

(** The facts about comparisons that the detector's proofs use. *)

Lemma ltb_not_nan (x y : float) :
  (x <? y)%float = true -> is_nan x = false /\ is_nan y = false.
Proof.
  intros (a&b&Ha&Hb&_)%ltb_rank.
  split; apply not_true_is_false; intros H%is_nan_rank; congruence.
Qed.

Lemma eqb_refl_not_nan (x : float) : is_nan x = false -> (x =? x)%float = true.
Proof.
  intros H. apply eqb_rank. destruct (float_rank x) as [a|] eqn:E; eauto.
  apply is_nan_rank in E. congruence.
Qed.

Lemma rank_lt_le_trans (a b c : Z * Z * Z) :
  rank_lt a b -> rank_le b c -> rank_lt a c.
Proof.
  unfold rank_lt, rank_le. intros H1 H2.
  destruct (rank_compare b c) eqn:E; try congruence.
  - apply rank_compare_eq in E. subst. exact H1.
  - apply rank_compare_lt in H1, E. apply rank_compare_lt. lia.
Qed.

Lemma rank_le_trans (a b c : Z * Z * Z) :
  rank_le a b -> rank_le b c -> rank_le a c.
Proof.
  unfold rank_le. intros H1 H2 H3. apply rank_compare_gt in H3.
  destruct (rank_compare a b) eqn:E1; try congruence.
  - apply rank_compare_eq in E1. subst. apply H2. apply rank_compare_gt. exact H3.
  - apply H2. apply rank_compare_gt.
    apply rank_compare_lt in E1, H3. apply rank_compare_lt. lia.
Qed.

Lemma rank_le_refl (a : Z * Z * Z) : rank_le a a.
Proof.
  unfold rank_le. assert (rank_compare a a = Eq) as -> by (apply rank_compare_eq; reflexivity).
  discriminate.
Qed.

Lemma rank_not_lt_le (a b : Z * Z * Z) : ~ rank_lt a b -> rank_le b a.
Proof.
  unfold rank_lt, rank_le. intros H1 H2. apply rank_compare_gt in H2. auto.
Qed.


Lemma ltb_leb_trans (x y z : float) :
  (x <? y)%float = true -> (y <=? z)%float = true -> (x <? z)%float = true.
Proof.
  intros (a&b&Ha&Hb&Hab)%ltb_rank (b'&c&Hb'&Hc&Hbc)%leb_rank.
  apply ltb_rank. exists a, c. repeat split; auto.
  apply rank_lt_le_trans with b; auto. congruence.
Qed.

Lemma leb_trans (x y z : float) :
  (x <=? y)%float = true -> (y <=? z)%float = true -> (x <=? z)%float = true.
Proof.
  intros (a&b&Ha&Hb&Hab)%leb_rank (b'&c&Hb'&Hc&Hbc)%leb_rank.
  apply leb_rank. exists a, c. repeat split; auto.
  apply rank_le_trans with b; auto. congruence.
Qed.

Lemma leb_refl_not_nan (x : float) : is_nan x = false -> (x <=? x)%float = true.
Proof.
  intros H. apply leb_rank. destruct (float_rank x) as [a|] eqn:E.
  - exists a, a. auto using rank_le_refl.
  - apply is_nan_rank in E. congruence.
Qed.


Lemma not_ltb_leb (x y : float) :
  is_nan x = false -> is_nan y = false ->
  (x <? y)%float = false -> (y <=? x)%float = true.
Proof.
  intros Hx Hy H. apply leb_rank.
  destruct (float_rank x) as [a|] eqn:Ea;
    [|apply is_nan_rank in Ea; congruence].
  destruct (float_rank y) as [b|] eqn:Eb;
    [|apply is_nan_rank in Eb; congruence].
  exists b, a. repeat split. apply rank_not_lt_le. intros Hab.
  assert ((x <? y)%float = true) by (apply ltb_rank; eauto). congruence.
Qed.

Lemma eqb_ltb_leb_absurd (a b c : float) :
  (a =? b)%float = true -> (b <? c)%float = true -> (c <=? a)%float = true ->
  False.
Proof.
  intros (r&Ha&Hb)%eqb_rank (rb&rc&Hb'&Hc&Hlt)%ltb_rank (rc'&ra&Hc'&Ha'&Hle)%leb_rank.
  assert (rb = r) as -> by congruence. assert (ra = r) as -> by congruence.
  assert (rc' = rc) as -> by congruence.
  pose proof (rank_lt_le_trans _ _ _ Hlt Hle) as H. unfold rank_lt in H.
  assert (rank_compare r r = Eq) by (apply rank_compare_eq; reflexivity).
  congruence.
Qed.

Lemma leb_true_not_nan (x y : float) :
  (x <=? y)%float = true -> is_nan x = false /\ is_nan y = false.
Proof.
  intros (a&b&Ha&Hb&_)%leb_rank.
  split; apply not_true_is_false; intros H%is_nan_rank; congruence.
Qed.

Lemma ltb_leb (x y : float) : (x <? y)%float = true -> (x <=? y)%float = true.
Proof.
  intros (a&b&Ha&Hb&Hab)%ltb_rank. apply leb_rank. exists a, b.
  repeat split; auto. unfold rank_lt in Hab. unfold rank_le. congruence.
Qed.

Lemma eqb_leb (x y : float) : (x =? y)%float = true -> (x <=? y)%float = true.
Proof.
  intros (a&Ha&Hb)%eqb_rank. apply leb_rank. exists a, a.
  auto using rank_le_refl.
Qed.

(** ** NaN *)


Lemma Prim2SF_is_nan (x : float) : Prim2SF x = S754_nan -> is_nan x = true.
Proof. intros H. apply is_nan_rank. unfold float_rank. rewrite H. reflexivity. Qed.


(** ** Compaction and the mean-shift series *)



Lemma length_get_mean_shift_series (ts : list float) (c : string) :
  length (get_mean_shift_series ts c) = length ts - 1.
Proof. unfold get_mean_shift_series. rewrite length_map, length_seq. reflexivity. Qed.




Lemma py_index_middle {A} (pre l : list A) (x : A) :
  py_index (pre ++ x :: l) (length pre) = Ok x.
Proof. unfold py_index. rewrite list_lookup_middle; reflexivity. Qed.

Lemma compact_kept (z : list (option float)) (labels : list string) :
  length labels = length z -> compact z = map fst (kept z labels).
Proof.
  revert labels. induction z as [|[x|] z IH]; intros [|l labels] Hlen;
    try discriminate; cbn; auto.
  destruct (float_truthy x); cbn; f_equal; auto.
Qed.

Lemma labels_where_truthy_kept_from (labels : list string) :
  forall (z : list (option float)) (pre_l : list string) (pre_z : list (option float)),
    length pre_l = length pre_z ->
    length labels = length z ->
    labels_where_truthy (seq (length pre_l) (length labels))
      (pre_l ++ labels) (pre_z ++ z) = Ok (map snd (kept z labels)).
Proof.
  induction labels as [|l labels IH]; intros [|v z] pre_l pre_z Hpre Hlen;
    try discriminate.
  - reflexivity.
  - cbn [length seq labels_where_truthy].
    rewrite Hpre at 1. rewrite py_index_middle. cbn [bind].
    rewrite py_index_middle. cbn [bind].
    specialize (IH z (pre_l ++ [l]) (pre_z ++ [v])).
    rewrite !length_app in IH. cbn [length] in IH.
    rewrite <- !app_assoc in IH. cbn [app] in IH.
    rewrite Nat.add_1_r in IH.
    rewrite IH by (cbn in Hlen; lia).
    destruct v as [x|]; cbn; [destruct (float_truthy x)|]; reflexivity.
Qed.

Lemma labels_where_truthy_kept (labels : list string) (z : list (option float)) :
  length labels = length z ->
  labels_where_truthy (seq 0 (length labels)) labels z
  = Ok (map snd (kept z labels)).
Proof.
  intros H. exact (labels_where_truthy_kept_from labels z [] [] eq_refl H).
Qed.

Lemma kept_positions (z : list (option float)) (labels : list string)
    (x : float) (l : string) :
  length labels = length z ->
  (x, l) ∈ kept z labels <->
  exists i,
    z !! i = Some (Some x) /\ labels !! i = Some l /\ float_truthy x = true.
Proof.
  revert labels. induction z as [|v z IH]; intros [|l' labels] Hlen; try discriminate.
  - cbn. split; [intros H; inversion H | intros (i&H&_); discriminate].
  - cbn in Hlen. injection Hlen as Hlen. specialize (IH labels Hlen).
    assert ((x, l) ∈ kept z labels ->
            exists i, (v :: z) !! i = Some (Some x) /\ (l' :: labels) !! i = Some l
                      /\ float_truthy x = true) as Htl.
    { intros (i&?&?&?)%IH. exists (S i). auto. }
    cbn [kept]. destruct v as [y|].
    + destruct (float_truthy y) eqn:Ey.
      * rewrite elem_of_cons. split.
        -- intros [[= -> ->]|H]; [exists 0; auto | auto].
        -- intros ([|i]&H1&H2&H3); cbn in H1, H2.
           ++ left. congruence.
           ++ right. apply IH. eauto.
      * split; [exact Htl|].
        intros ([|i]&H1&H2&H3); cbn in H1, H2; [congruence | apply IH; eauto].
    + split; [exact Htl|].
      intros ([|i]&H1&H2&H3); cbn in H1, H2; [congruence | apply IH; eauto].
Qed.

(** What compaction does on parallel lists: it keeps, in both lists, the
    positions that hold a float other than zero, and no other. *)
Lemma compaction_keeps_nonzero (labels : list string) (z : list (option float)) :
  length labels = length z ->
  labels_where_truthy (seq 0 (length labels)) labels z
  = Ok (map snd (kept z labels))
  /\ compact z = map fst (kept z labels)
  /\ forall x l,
       (x, l) ∈ kept z labels <->
       exists i,
         z !! i = Some (Some x) /\ labels !! i = Some l
         /\ (x =? 0)%float = false.
Proof.
  intros H. split; [apply labels_where_truthy_kept; exact H|].
  split; [apply compact_kept; exact H|].
  intros x l. rewrite (kept_positions z labels x l H). unfold float_truthy.
  split; intros (i&H1&H2&H3); exists i; repeat split; auto.
  - apply negb_true_iff. exact H3.
  - apply negb_true_iff. exact H3.
Qed.

(** C4: compaction on a series that holds the z-score 0.0: the position
    of the zero is dropped together with its label, like the position of
    [None]. *)
Theorem compaction_drops_zero :
  compact [Some 0%float; Some 1.5%float; None] = [1.5%float]
  /\ labels_where_truthy (seq 0 3) ["2012_02"; "2012_03"; "2012_04"]%string
       [Some 0%float; Some 1.5%float; None] = Ok ["2012_03"%string].
Proof. split; reflexivity. Qed.

(** The values that enter the mean and the variance of the standardizer:
    the distances that are floats other than zero. *)
Lemma elem_of_truthy_values (d : list (string * option float)) (x : float) :
  x ∈ truthy_values d <->
  exists word, (word, Some x) ∈ d /\ (x =? 0)%float = false.
Proof.
  induction d as [|[w [y|]] d IH]; cbn [truthy_values].
  - split; [intros H; inversion H | intros (w&H&_); inversion H].
  - unfold float_truthy. destruct (y =? 0)%float eqn:E; cbn [negb].
    + rewrite IH. split.
      * intros (w'&H&Hx). exists w'. split; [right; exact H | exact Hx].
      * intros (w'&H&Hx). apply elem_of_cons in H as [[= -> ->]|H];
          [congruence | eauto].
    + rewrite elem_of_cons, IH. split.
      * intros [->|(w'&H&Hx)]; [exists w; split; [left|exact E] |].
        exists w'. split; [right; exact H | exact Hx].
      * intros (w'&H&Hx). apply elem_of_cons in H as [[= -> ->]|H]; eauto.
  - rewrite IH. split.
    + intros (w'&H&Hx). exists w'. split; [right; exact H | exact Hx].
    + intros (w'&H&Hx). apply elem_of_cons in H as [[=]|H]; eauto.
Qed.

(** C5: the standardizer on a dictionary that holds the distance 0.0: the
    zero is left out of the mean and of the variance (here 2 and 1, over
    the distances 1 and 3), and its word is mapped to [None]. *)
Theorem standardizer_drops_zero :
  get_z_score_dict
    [("a"%string, Some 0%float); ("b"%string, Some 1%float);
     ("c"%string, Some 3%float)]
  = [("a"%string, None); ("b"%string, Some (-1)%float);
     ("c"%string, Some 1%float)].
Proof. reflexivity. Qed.

(** ** The permutation loop *)

Lemma py_index_Some {A} (l : list A) (i : nat) (v : A) :
  l !! i = Some v -> py_index l i = Ok v.
Proof. unfold py_index. intros ->. reflexivity. Qed.

Lemma count_exceeding_seq (ms pms : list float) :
  forall (n k : nat) (p : list float),
    k + n <= length ms -> k + n <= length pms -> k + n <= length p ->
    exists p',
      count_exceeding (seq k n) ms pms p = Ok p'
      /\ length p' = length p
      /\ forall j m pm v,
           ms !! j = Some m -> pms !! j = Some pm -> p !! j = Some v ->
           p' !! j = Some (if (k <=? j) && (j <? k + n) && exceeds m pm
                           then (v + 1)%float else v).
Proof.
  induction n as [|n IH]; intros k p Hms Hpms Hp.
  - exists p. repeat split; auto. intros j m pm v _ _ Hv.
    replace ((k <=? j) && (j <? k + 0)) with false; [exact Hv|].
    symmetry. apply andb_false_iff. destruct (Nat.leb_spec k j); auto.
    right. apply Nat.ltb_ge. lia.
  - cbn [seq count_exceeding].
    destruct (lookup_lt_is_Some_2 ms k ltac:(lia)) as [m Hm].
    destruct (lookup_lt_is_Some_2 pms k ltac:(lia)) as [pm Hpm].
    destruct (lookup_lt_is_Some_2 p k ltac:(lia)) as [v Hv].
    rewrite (py_index_Some _ _ _ Hm). cbn [bind].
    assert (forall p1,
      length p1 = length p ->
      (forall j v', p !! j = Some v' ->
         p1 !! j = Some (if (j =? k) && exceeds m pm then (v' + 1)%float else v')) ->
      exists p',
        count_exceeding (seq (S k) n) ms pms p1 = Ok p'
        /\ length p' = length p
        /\ forall j m0 pm0 v0,
             ms !! j = Some m0 -> pms !! j = Some pm0 -> p !! j = Some v0 ->
             p' !! j = Some (if (k <=? j) && (j <? k + S n) && exceeds m0 pm0
                             then (v0 + 1)%float else v0)) as Hstep.
    { intros p1 Hlen1 Hp1.
      destruct (IH (S k) p1) as (p'&Hrun&Hlen&Hlook); try lia.
      exists p'. split; [exact Hrun|]. split; [lia|].
      intros j m0 pm0 v0 Hm0 Hpm0 Hv0.
      rewrite (Hlook j m0 pm0 _ Hm0 Hpm0 (Hp1 j v0 Hv0)). f_equal.
      destruct (Nat.eqb_spec j k) as [->|Hne].
      - assert (m0 = m) as -> by congruence.
        assert (pm0 = pm) as -> by congruence.
        replace (S k <=? k) with false by (symmetry; apply Nat.leb_gt; lia).
        replace (k <=? k) with true by (symmetry; apply Nat.leb_le; lia).
        replace (k <? k + S n) with true by (symmetry; apply Nat.ltb_lt; lia).
        reflexivity.
      - cbn [andb].
        replace (j <? k + S n) with (j <? S k + n) by (f_equal; lia).
        replace (k <=? j) with (S k <=? j); [reflexivity|].
        destruct (Nat.leb_spec (S k) j), (Nat.leb_spec k j); auto; lia. }
    assert (forall j v', p !! j = Some v' ->
              <[k := (v + 1)%float]> p !! j
              = Some (if (j =? k) then (v' + 1)%float else v')) as Hins.
    { intros j v' Hv'. destruct (Nat.eqb_spec j k) as [->|Hne].
      - rewrite list_lookup_insert_eq by (apply lookup_lt_Some in Hv; exact Hv).
        congruence.
      - rewrite list_lookup_insert_ne by auto. exact Hv'. }
    unfold exceeds at 1 in Hstep. unfold exceeds in Hstep.
    destruct (is_nan m) eqn:Enan.
    + rewrite (py_index_Some _ _ _ Hv). cbn [bind].
      apply Hstep; [apply length_insert|].
      intros j v' Hv'. rewrite (Hins j v' Hv').
      cbn [orb]. rewrite andb_true_r. reflexivity.
    + rewrite (py_index_Some _ _ _ Hpm). cbn [bind orb] in *.
      destruct (m <? pm)%float eqn:Elt.
      * rewrite (py_index_Some _ _ _ Hv). cbn [bind].
        apply Hstep; [apply length_insert|].
        intros j v' Hv'. rewrite (Hins j v' Hv'). rewrite andb_true_r. reflexivity.
      * apply Hstep; [reflexivity|].
        intros j v' Hv'. rewrite andb_false_r. exact Hv'.
Qed.

(** ** The gate *)

Lemma magnitude_gate_seq (zs : list float) (gamma : float) :
  forall (n k : nat) (p : list float),
    k + n <= length zs -> k + n <= length p ->
    exists p',
      magnitude_gate (seq k n) zs gamma p = Ok p'
      /\ length p' = length p
      /\ forall j z v,
           zs !! j = Some z -> p !! j = Some v ->
           p' !! j = Some (if (k <=? j) && (j <? k + n) && (z <? gamma)%float
                           then 1%float else v).
Proof.
  induction n as [|n IH]; intros k p Hzs Hp.
  - exists p. repeat split; auto. intros j z v _ Hv.
    replace ((k <=? j) && (j <? k + 0)) with false; [exact Hv|].
    symmetry. apply andb_false_iff. destruct (Nat.leb_spec k j); auto.
    right. apply Nat.ltb_ge. lia.
  - cbn [seq magnitude_gate].
    destruct (lookup_lt_is_Some_2 zs k ltac:(lia)) as [z Hz].
    rewrite (py_index_Some _ _ _ Hz). cbn [bind].
    pose (p1 := if (z <? gamma)%float then <[k := 1%float]> p else p).
    assert (length p1 = length p) as Hlen1
      by (unfold p1; destruct (z <? gamma)%float; auto using length_insert).
    assert (forall j v, p !! j = Some v ->
              p1 !! j = Some (if (j =? k) && (z <? gamma)%float
                              then 1%float else v)) as Hlook1.
    { intros j v Hv. unfold p1. destruct (z <? gamma)%float.
      - rewrite andb_true_r. destruct (Nat.eqb_spec j k) as [->|Hne].
        + apply list_lookup_insert_eq. lia.
        + rewrite list_lookup_insert_ne by auto. exact Hv.
      - rewrite andb_false_r. exact Hv. }
    destruct (IH (S k) p1) as (p'&Hrun&Hlen&Hlook); try lia.
    exists p'. split.
    { unfold p1 in Hrun. destruct (z <? gamma)%float; exact Hrun. }
    split; [lia|]. intros j z0 v Hz0 Hv.
    rewrite (Hlook j z0 _ Hz0 (Hlook1 j v Hv)). f_equal.
    destruct (Nat.eqb_spec j k) as [->|Hne].
    + assert (z0 = z) as -> by congruence.
      replace (S k <=? k) with false by (symmetry; apply Nat.leb_gt; lia).
      replace (k <=? k) with true by (symmetry; apply Nat.leb_le; lia).
      replace (k <? k + S n) with true by (symmetry; apply Nat.ltb_lt; lia).
      reflexivity.
    + cbn [andb].
      replace (j <? k + S n) with (j <? S k + n) by (f_equal; lia).
      replace (k <=? j) with (S k <=? j); [reflexivity|].
      destruct (Nat.leb_spec (S k) j), (Nat.leb_spec k j); auto; lia.
Qed.

Lemma magnitude_gate_lookup (zs : list float) (gamma : float) (p : list float) :
  length p <= length zs ->
  exists p',
    magnitude_gate (seq 0 (length p)) zs gamma p = Ok p'
    /\ length p' = length p
    /\ forall j z v,
         zs !! j = Some z -> p !! j = Some v ->
         p' !! j = Some (if (z <? gamma)%float then 1%float else v).
Proof.
  intros Hlen.
  destruct (magnitude_gate_seq zs gamma (length p) 0 p) as (p'&Hrun&Hl&Hlook);
    try lia.
  exists p'. repeat split; auto. intros j z v Hz Hv.
  rewrite (Hlook j z v Hz Hv). apply lookup_lt_Some in Hv.
  replace ((0 <=? j) && (j <? 0 + length p)) with true; [reflexivity|].
  symmetry. apply andb_true_iff. split; [apply Nat.leb_le|apply Nat.ltb_lt]; lia.
Qed.

(** C8: the gate sets the p-value to 1 at the indices whose z-score is
    strictly below the gamma threshold ([<] on the signed value) and
    leaves the p-value of every other index as it was. *)
Theorem magnitude_gate_spec (zs : list float) (gamma : float) (p : list float) :
  length p <= length zs ->
  exists p',
    magnitude_gate (seq 0 (length p)) zs gamma p = Ok p'
    /\ length p' = length p
    /\ (forall j z v,
          zs !! j = Some z -> p !! j = Some v -> (z <? gamma)%float = true ->
          p' !! j = Some 1%float)
    /\ (forall j z v,
          zs !! j = Some z -> p !! j = Some v -> (z <? gamma)%float = false ->
          p' !! j = Some v).
Proof.
  intros Hlen.
  destruct (magnitude_gate_lookup zs gamma p Hlen) as (p'&Hrun&Hl&Hlook).
  exists p'. split; [exact Hrun|]. split; [exact Hl|]. split.
  - intros j z v Hz Hv E. rewrite (Hlook j z v Hz Hv), E. reflexivity.
  - intros j z v Hz Hv E. rewrite (Hlook j z v Hz Hv), E. reflexivity.
Qed.

Lemma magnitude_gate_spec_witness :
  length [0.25%float; 0.75%float] <= length [0.5%float; 3%float; 4%float]
  /\ exists p',
       magnitude_gate (seq 0 2) [0.5%float; 3%float; 4%float] 1%float
         [0.25%float; 0.75%float] = Ok p'
       /\ p' !! 0 = Some 1%float
       /\ p' !! 1 = Some 0.75%float.
Proof.
  split; [cbn; lia|].
  destruct (magnitude_gate_spec [0.5%float; 3%float; 4%float] 1%float
              [0.25%float; 0.75%float] ltac:(cbn; lia))
    as (p' & Hrun & _ & Hlow & Hhigh).
  exists p'. split; [exact Hrun|]. split.
  - exact (Hlow 0 0.5%float 0.25%float eq_refl eq_refl eq_refl).
  - exact (Hhigh 1 3%float 0.75%float eq_refl eq_refl eq_refl).
Defined.

(** ** The minimum and the selection *)

Lemma np_minimum_cases (a b : float) : np_minimum a b = a \/ np_minimum a b = b.
Proof. unfold np_minimum. destruct ((a <? b)%float || is_nan a); auto. Qed.

Lemma fold_np_minimum_elem_of (xs : list float) (x : float) :
  fold_left np_minimum xs x ∈ x :: xs.
Proof.
  revert x. induction xs as [|y xs IH]; intros x; cbn.
  - left.
  - specialize (IH (np_minimum x y)). rewrite !elem_of_cons in *.
    destruct (np_minimum_cases x y) as [E|E]; rewrite E in *; tauto.
Qed.

Lemma np_min_elem_of (p : list float) (m : float) : np_min p = Ok m -> m ∈ p.
Proof.
  destruct p as [|x xs]; [discriminate|]. intros [= <-].
  apply fold_np_minimum_elem_of.
Qed.




Lemma elem_of_np_where_eq_from (p : list float) (m : float) :
  forall (k i : nat),
    i ∈ np_where_eq_from k p m <->
    k <= i /\ exists v, p !! (i - k) = Some v /\ (v =? m)%float = true.
Proof.
  induction p as [|x p IH]; intros k i; cbn [np_where_eq_from].
  - split; [intros H; inversion H | intros (_&v&H&_); discriminate].
  - assert (i ∈ np_where_eq_from (S k) p m <->
            k < i /\ exists v, (x :: p) !! (i - k) = Some v /\ (v =? m)%float = true)
      as Htl.
    { rewrite IH. split.
      - intros (Hk&v&Hv&E). split; [lia|]. exists v. split; auto.
        replace (i - k) with (S (i - S k)) by lia. exact Hv.
      - intros (Hk&v&Hv&E). split; [lia|]. exists v. split; auto.
        replace (i - k) with (S (i - S k)) in Hv by lia. exact Hv. }
    destruct (x =? m)%float eqn:E.
    + rewrite elem_of_cons, Htl. split.
      * intros [->|(Hk&H)]; [|split; [lia|exact H]].
        split; [lia|]. exists x. rewrite Nat.sub_diag. auto.
      * intros (Hk&v&Hv&Ev). destruct (decide (i = k)) as [->|Hne]; auto.
        right. split; [lia|]. eauto.
    + rewrite Htl. split.
      * intros (Hk&H). split; [lia|exact H].
      * intros (Hk&v&Hv&Ev). destruct (decide (i = k)) as [->|Hne].
        -- rewrite Nat.sub_diag in Hv. cbn in Hv. congruence.
        -- split; [lia|]. eauto.
Qed.

Lemma elem_of_np_where_eq (p : list float) (m : float) (i : nat) :
  i ∈ np_where_eq p m <-> exists v, p !! i = Some v /\ (v =? m)%float = true.
Proof.
  unfold np_where_eq. rewrite elem_of_np_where_eq_from, Nat.sub_0_r.
  split; [intros (_&H); exact H | intros H; split; [lia | exact H]].
Qed.

Lemma candidates_spec (ms : list float) (indices : list nat) :
  Forall (fun i => i < length ms) indices ->
  exists cands,
    candidates indices ms = Ok cands
    /\ map fst cands = indices
    /\ Forall (fun c => ms !! c.1 = Some c.2) cands.
Proof.
  induction 1 as [|i indices Hi _ (cands&Hrun&Hfst&Hall)]; cbn [candidates].
  - exists []. repeat split; auto.
  - destruct (lookup_lt_is_Some_2 ms i Hi) as [m Hm].
    rewrite (py_index_Some _ _ _ Hm), Hrun. cbn [bind].
    exists ((i, m) :: cands). repeat split; cbn; auto. congruence.
Qed.

Lemma py_max_from_elem_of {A} (key : A -> float) (l : list A) (cur : A) :
  py_max_from key cur l ∈ cur :: l.
Proof.
  revert cur. induction l as [|x l IH]; intros cur; cbn.
  - left.
  - specialize (IH (if (key cur <? key x)%float then x else cur)).
    rewrite !elem_of_cons in *. destruct (key cur <? key x)%float; tauto.
Qed.

Lemma py_max_from_le {A} (key : A -> float) (l : list A) (cur : A) :
  Forall (fun x => is_nan (key x) = false) (cur :: l) ->
  Forall (fun x => (key x <=? key (py_max_from key cur l))%float = true) (cur :: l).
Proof.
  revert cur. induction l as [|x l IH]; intros cur Hall; cbn.
  - inversion Hall; subst. constructor; auto using leb_refl_not_nan.
  - inversion Hall as [|? ? Hcur Hall']; subst.
    inversion Hall' as [|? ? Hx Hl]; subst.
    set (cur' := if (key cur <? key x)%float then x else cur).
    assert (is_nan (key cur') = false) as Hcur'
      by (unfold cur'; destruct (key cur <? key x)%float; auto).
    specialize (IH cur' ltac:(constructor; assumption)).
    inversion IH as [|? ? Hm Hrest]; subst.
    assert ((key cur <=? key cur')%float = true /\ (key x <=? key cur')%float = true)
      as [H1 H2].
    { unfold cur'. destruct (key cur <? key x)%float eqn:E.
      - auto using ltb_leb, leb_refl_not_nan.
      - auto using not_ltb_leb, leb_refl_not_nan. }
    repeat constructor; eauto using leb_trans.
Qed.

(** ** The selection *)

Lemma select_change_point_spec (word : string) (labels' : list string)
    (zs ms p : list float) (thr gamma : float) :
  length ms = length p -> length p < length zs -> length zs <= length labels' ->
  p <> [] ->
  exists gated min_p,
    magnitude_gate (seq 0 (length p)) zs gamma p = Ok gated
    /\ length gated = length p
    /\ np_min gated = Ok min_p
    /\ ((min_p <? thr)%float = false ->
        select_change_point word labels' zs ms p thr gamma = Ok None)
    /\ ((min_p <? thr)%float = true ->
        exists cp label m z pv,
          select_change_point word labels' zs ms p thr gamma
          = Ok (Some (word, label, min_p, m, z))
          /\ gated !! cp = Some pv /\ (pv =? min_p)%float = true
          /\ ms !! cp = Some m /\ zs !! cp = Some z /\ labels' !! cp = Some label
          /\ ((forall j pj mj,
                 gated !! j = Some pj -> (pj =? min_p)%float = true ->
                 ms !! j = Some mj -> is_nan mj = false) ->
              forall j pj mj,
                gated !! j = Some pj -> (pj =? min_p)%float = true ->
                ms !! j = Some mj -> (mj <=? m)%float = true)).
Proof.
  intros Hms Hzs Hlab Hne.
  destruct (magnitude_gate_lookup zs gamma p) as (gated&Hgate&Hglen&_); [lia|].
  assert (exists min_p, np_min gated = Ok min_p) as [min_p Hmin].
  { destruct gated as [|x xs]; [|eexists; reflexivity].
    destruct p; [congruence|discriminate]. }
  exists gated, min_p. split; [exact Hgate|]. split; [exact Hglen|].
  split; [exact Hmin|].
  unfold select_change_point. rewrite Hgate. cbn [bind]. rewrite Hmin. cbn [bind].
  split; [intros ->; reflexivity|]. intros Hlt. rewrite Hlt.
  destruct (ltb_not_nan _ _ Hlt) as [Hnan _].
  assert (Forall (fun i => i < length ms) (np_where_eq gated min_p)) as Hidx.
  { apply Forall_forall. intros i (v&Hv&_)%elem_of_np_where_eq.
    apply lookup_lt_Some in Hv. lia. }
  destruct (candidates_spec ms _ Hidx) as (cands&Hc&Hfst&Hall).
  rewrite Hc. cbn [bind].
  destruct cands as [|c0 cs].
  { exfalso. apply np_min_elem_of, list_elem_of_lookup in Hmin as [i Hi].
    assert (i ∈ np_where_eq gated min_p) as Hin
      by (apply elem_of_np_where_eq; eauto using eqb_refl_not_nan).
    rewrite <- Hfst in Hin. inversion Hin. }
  cbn [py_max bind].
  pose proof (py_max_from_elem_of snd cs c0) as Hbest.
  destruct (py_max_from snd c0 cs) as [cp m] eqn:Ebest.
  assert (ms !! cp = Some m) as Hm
    by (rewrite Forall_forall in Hall; exact (Hall _ Hbest)).
  assert (cp ∈ np_where_eq gated min_p) as Hcp.
  { rewrite <- Hfst. apply list_elem_of_fmap. exists (cp, m). auto. }
  apply elem_of_np_where_eq in Hcp as (pv&Hpv&Epv).
  assert (cp < length zs) as Hcpz by (apply lookup_lt_Some in Hpv; lia).
  destruct (lookup_lt_is_Some_2 zs cp Hcpz) as [z Hz].
  destruct (lookup_lt_is_Some_2 labels' cp ltac:(lia)) as [label Hl].
  rewrite (py_index_Some _ _ _ Hz), (py_index_Some _ _ _ Hl). cbn [bind].
  exists cp, label, m, z, pv. repeat split; auto.
  intros Hnonan j pj mj Hpj Epj Hmj.
  assert (Forall (fun x => is_nan x.2 = false) (c0 :: cs)) as Hkeys.
  { apply Forall_forall. intros [i mi] Hin.
    assert (ms !! i = Some mi) as Hmi
      by (rewrite Forall_forall in Hall; exact (Hall _ Hin)).
    assert (i ∈ np_where_eq gated min_p) as Hi.
    { rewrite <- Hfst. apply list_elem_of_fmap. exists (i, mi). auto. }
    apply elem_of_np_where_eq in Hi as (v&Hv&Ev). cbn. eauto. }
  pose proof (py_max_from_le snd cs c0 Hkeys) as Hle.
  rewrite Ebest in Hle. cbn in Hle.
  assert (j ∈ map fst (c0 :: cs)) as Hj
    by (rewrite Hfst; apply elem_of_np_where_eq; eauto).
  apply list_elem_of_fmap in Hj as ([j' mj']&Hj'&Hin). cbn in Hj'. subst j'.
  assert (ms !! j = Some mj') as Hmj'
    by (rewrite Forall_forall in Hall; exact (Hall _ Hin)).
  assert (mj' = mj) as -> by congruence.
  rewrite Forall_forall in Hle. exact (Hle _ Hin).
Qed.

(** ** Binary digits and shifts *)

Section Binary64.

Local Open Scope Z_scope.

Lemma digits2_pos_log2 (p : positive) :
Zpos (digits2_pos p) = Z.log2 (Zpos p) + 1.
Proof.
induction p as [p IH|p IH|]; cbn [digits2_pos]; try reflexivity.
- rewrite Pos2Z.inj_succ, IH. 
  change (Zpos p~1) with (2 * Zpos p + 1). rewrite Z.log2_succ_double by lia. lia.
- rewrite Pos2Z.inj_succ, IH.
  change (Zpos p~0) with (2 * Zpos p). rewrite Z.log2_double by lia. lia.
Qed.

Lemma digits2_pos_bounds (p : positive) :
2 ^ (Zpos (digits2_pos p) - 1) <= Zpos p < 2 ^ Zpos (digits2_pos p).
Proof.
rewrite digits2_pos_log2.
replace (Z.log2 (Zpos p) + 1 - 1) with (Z.log2 (Zpos p)) by lia.
pose proof (Z.log2_spec (Zpos p) ltac:(lia)) as H.
replace (Z.log2 (Zpos p) + 1) with (Z.succ (Z.log2 (Zpos p))) by lia. exact H.
Qed.

Lemma digits2_pos_unique (p : positive) (d : Z) :
2 ^ (d - 1) <= Zpos p < 2 ^ d -> 0 < d -> Zpos (digits2_pos p) = d.
Proof.
intros H Hd. rewrite digits2_pos_log2.
rewrite (Z.log2_unique (Zpos p) (d - 1)); try lia.
replace (Z.succ (d - 1)) with d by lia. exact H.
Qed.

Lemma Zpos_shiftl (m : positive) (k : N) :
Zpos (Pos.shiftl m k) = Zpos m * 2 ^ Z.of_N k.
Proof.
destruct k as [|p]; unfold Pos.shiftl; cbn [Z.of_N].
- rewrite Z.pow_0_r. lia.
- induction p as [|p IH] using Pos.peano_ind.
  + cbn. lia.
  + rewrite Pos.iter_succ, Pos2Z.inj_succ, Z.pow_succ_r by lia.
    change (Zpos (Pos.iter xO m p)~0) with (2 * Zpos (Pos.iter xO m p)).
    rewrite IH. lia.
Qed.

Lemma digits2_pos_shiftl (m : positive) (k : N) :
Zpos (digits2_pos (Pos.shiftl m k)) = Zpos (digits2_pos m) + Z.of_N k.
Proof.
apply digits2_pos_unique; [|lia].
rewrite Zpos_shiftl. pose proof (digits2_pos_bounds m) as [H1 H2].
replace (Zpos (digits2_pos m) + Z.of_N k - 1)
  with ((Zpos (digits2_pos m) - 1) + Z.of_N k) by lia.
rewrite !Z.pow_add_r by lia.
assert (0 < 2 ^ Z.of_N k) by (apply Z.pow_pos_nonneg; lia).
split; nia.
Qed.

Lemma iter_pos_iter {A} (f : A -> A) (p : positive) (x : A) :
SpecFloat.iter_pos f p x = Pos.iter f x p.
Proof.
revert x. induction p as [p IH|p IH|]; intros x; cbn [SpecFloat.iter_pos Pos.iter].
- rewrite !IH. rewrite <- !Pos.iter_swap. reflexivity.
- rewrite !IH. reflexivity.
- reflexivity.
Qed.

Lemma shr_exact (m : positive) (p : positive) :
SpecFloat.iter_pos shr_1 p (Build_shr_record (Zpos (Pos.iter xO m p)) false false)
= Build_shr_record (Zpos m) false false.
Proof.
rewrite iter_pos_iter. induction p as [|p IH] using Pos.peano_ind.
- reflexivity.
- rewrite (Pos.iter_succ_r p _ shr_1), (Pos.iter_succ p _ xO).
  cbn [shr_1 orb]. exact IH.
Qed.

(** ** Rounding of a mantissa that fits *)

Lemma fexp_normal (x : Z) :
-1074 <= x - 53 -> fexp prec emax x = x - 53.
Proof. intros H. unfold fexp, SpecFloat.emin, prec, emax. lia. Qed.

Lemma shr_fexp_fits (m : positive) (e : Z) :
Zpos (digits2_pos m) = 53 -> -1074 <= e ->
shr_fexp prec emax (Zpos m) e loc_Exact
= (Build_shr_record (Zpos m) false false, e).
Proof.
intros Hd He. unfold shr_fexp. cbn [Zdigits2]. rewrite Hd.
rewrite fexp_normal by lia. replace (53 + e - 53 - e) with 0 by lia.
reflexivity.
Qed.

Lemma binary_round_aux_fits (s : bool) (m : positive) (e : Z) :
Zpos (digits2_pos m) = 53 -> -1074 <= e <= 971 ->
binary_round_aux prec emax s (Zpos m) e loc_Exact = S754_finite s m e.
Proof.
intros Hd He. unfold binary_round_aux.
rewrite shr_fexp_fits by (auto; lia).
cbn [shr_m loc_of_shr_record round_nearest_even].
rewrite shr_fexp_fits by (auto; lia). cbn [shr_m].
replace (e <=? emax - prec) with true; [reflexivity|].
symmetry. apply Z.leb_le. unfold emax, prec. lia.
Qed.

Lemma fst_shl_align (m : positive) (e e' : Z) :
(shl_align m e e').1 = Pos.shiftl m (Z.to_N (e - e')).
Proof.
unfold shl_align. destruct (e' - e) as [|d|d] eqn:E.
- replace (e - e') with 0 by lia. reflexivity.
- replace (e - e') with (Zneg d) by lia. reflexivity.
- replace (e - e') with (Zpos d) by lia. reflexivity.
Qed.

Lemma snd_shl_align (m : positive) (e e' : Z) :
(shl_align m e e').2 = Z.min e e'.
Proof.
unfold shl_align. destruct (e' - e) as [|d|d] eqn:E; cbn [snd]; lia.
Qed.

Lemma binary_round_shifted (s : bool) (m : positive) (k : N) (e : Z) :
Zpos (digits2_pos m) = 53 -> -1074 <= e -> e + Z.of_N k <= 971 ->
binary_round prec emax s (Pos.shiftl m k) e = S754_finite s m (e + Z.of_N k).
Proof.
intros Hd He Hk. unfold binary_round.
rewrite digits2_pos_shiftl, Hd, fexp_normal by lia.
destruct (shl_align (Pos.shiftl m k) e (53 + Z.of_N k + e - 53)) as [mz ez] eqn:E.
pose proof (fst_shl_align (Pos.shiftl m k) e (53 + Z.of_N k + e - 53)) as H1.
pose proof (snd_shl_align (Pos.shiftl m k) e (53 + Z.of_N k + e - 53)) as H2.
rewrite E in H1, H2. cbn [fst snd] in H1, H2.
replace (Z.to_N (e - (53 + Z.of_N k + e - 53))) with 0%N in H1 by lia.
change (Pos.shiftl (Pos.shiftl m k) 0) with (Pos.shiftl m k) in H1.
assert (ez = e) as -> by lia. subst mz.
destruct k as [|p].
- change (Pos.shiftl m 0) with m. rewrite binary_round_aux_fits by (auto; lia).
  f_equal. cbn. lia.
- unfold binary_round_aux, shr_fexp at 1. cbn [Zdigits2].
  rewrite digits2_pos_shiftl, Hd, fexp_normal by lia.
  replace (53 + Z.of_N (N.pos p) + e - 53 - e) with (Zpos p) by lia.
  unfold shr_record_of_loc, shr. unfold Pos.shiftl. rewrite shr_exact.
  cbn [shr_m loc_of_shr_record round_nearest_even].
  rewrite shr_fexp_fits by (auto; lia). cbn [shr_m].
  replace (e + Z.pos p <=? emax - prec) with true; [reflexivity|].
  symmetry. apply Z.leb_le. unfold emax, prec. cbn [Z.of_N] in Hk. lia.
Qed.

(** ** Integers below [2^53] as binary64 numbers *)

Lemma digits2_pos_le_53 (n : positive) :
Zpos n < 2 ^ 53 -> Zpos (digits2_pos n) <= 53.
Proof.
intros H. pose proof (digits2_pos_bounds n) as [H1 _].
destruct (Z_le_gt_dec (Zpos (digits2_pos n)) 53) as [|Hgt]; [assumption|].
exfalso. assert (2 ^ 53 <= 2 ^ (Zpos (digits2_pos n) - 1))
  by (apply Z.pow_le_mono_r; lia). lia.
Qed.

Lemma digits2_pos_mantissa (n : positive) :
Zpos n < 2 ^ 53 ->
Zpos (digits2_pos (Pos.shiftl n (Z.to_N (53 - Zpos (digits2_pos n))))) = 53.
Proof.
intros H. pose proof (digits2_pos_le_53 n H). rewrite digits2_pos_shiftl. lia.
Qed.

Lemma binary_round_small (s : bool) (n : positive) :
Zpos n < 2 ^ 53 ->
binary_round prec emax s n 0 =
  S754_finite s (Pos.shiftl n (Z.to_N (53 - Zpos (digits2_pos n))))
    (Zpos (digits2_pos n) - 53).
Proof.
intros H. pose proof (digits2_pos_le_53 n H) as Hd. unfold binary_round.
rewrite fexp_normal by lia.
destruct (shl_align n 0 (Zpos (digits2_pos n) + 0 - 53)) as [mz ez] eqn:E.
pose proof (fst_shl_align n 0 (Zpos (digits2_pos n) + 0 - 53)) as H1.
pose proof (snd_shl_align n 0 (Zpos (digits2_pos n) + 0 - 53)) as H2.
rewrite E in H1, H2. cbn [fst snd] in H1, H2.
replace (0 - (Zpos (digits2_pos n) + 0 - 53)) with (53 - Zpos (digits2_pos n))
  in H1 by lia.
assert (ez = Zpos (digits2_pos n) - 53) as -> by lia. subst mz.
apply binary_round_aux_fits; [apply digits2_pos_mantissa; exact H | lia].
Qed.

Lemma Prim2SF_float_of_int_pos (n : positive) :
Zpos n < 2 ^ 53 -> Prim2SF (float_of_int (Zpos n)) = sf_of_pos n.
Proof.
intros H. cbn [float_of_int]. rewrite of_uint63_spec, Uint63.of_Z_spec.
rewrite Z.mod_small.
- cbn [binary_normalize]. apply binary_round_small. exact H.
- split; [lia|]. eapply Z.lt_trans; [exact H|]. reflexivity.
Qed.

Lemma sf_of_pos_succ (k : positive) :
Zpos k + 1 < 2 ^ 53 ->
SFadd prec emax (sf_of_pos k) (sf_of_pos 1) = sf_of_pos (k + 1).
Proof.
intros H. assert (Zpos k < 2 ^ 53) as Hk by lia.
pose proof (digits2_pos_le_53 k Hk) as Hdk.
assert (Zpos (k + 1) < 2 ^ 53) as Hk1 by lia.
pose proof (digits2_pos_le_53 (k + 1) Hk1) as Hdk1.
assert (2 <= Zpos (digits2_pos (k + 1))) as Hd2.
{ pose proof (digits2_pos_bounds (k + 1)) as [_ Hb].
  destruct (Z_le_gt_dec 2 (Zpos (digits2_pos (k + 1)))) as [|Hlt]; [assumption|].
  exfalso. assert (Zpos (digits2_pos (k + 1)) = 1) as E by lia.
  rewrite E in Hb. change (2 ^ 1) with 2 in Hb. lia. }
unfold sf_of_pos at 1 2. change (digits2_pos 1) with 1%positive.
change (Pos.shiftl 1 (Z.to_N (53 - 1))) with 4503599627370496%positive.
change (1 - 53) with (-52).
unfold SFadd. cbn [cond_Zopp]. rewrite !fst_shl_align.
replace (Z.min (Zpos (digits2_pos k) - 53) (-52)) with (-52) by lia.
change (Pos.shiftl 4503599627370496 (Z.to_N (-52 - -52)))
  with 4503599627370496%positive.
replace (Z.to_N (Zpos (digits2_pos k) - 53 - -52))
  with (Z.to_N (Zpos (digits2_pos k) - 1)) by (f_equal; lia).
set (d1 := Zpos (digits2_pos (k + 1))) in *.
set (m1 := Pos.shiftl (k + 1) (Z.to_N (53 - d1))).
assert (Zpos (Pos.shiftl (Pos.shiftl k (Z.to_N (53 - Zpos (digits2_pos k))))
                (Z.to_N (Zpos (digits2_pos k) - 1)))
        + 4503599627370496
        = Zpos (Pos.shiftl m1 (Z.to_N (d1 - 1)))) as ->.
{ unfold m1. rewrite !Zpos_shiftl, !Z2N.id by lia.
  rewrite <- !Z.mul_assoc, <- !Z.pow_add_r by lia.
  replace (53 - Zpos (digits2_pos k) + (Zpos (digits2_pos k) - 1)) with 52 by lia.
  replace (53 - d1 + (d1 - 1)) with 52 by lia.
  change (2 ^ 52) with 4503599627370496. lia. }
cbn [binary_normalize].
rewrite binary_round_shifted.
- unfold sf_of_pos. fold d1. fold m1. f_equal. lia.
- apply digits2_pos_mantissa. exact Hk1.
- lia.
- lia.
Qed.

Lemma float_count_eq (n : nat) :
Z.of_nat n < 2 ^ 53 -> float_count n = float_of_int (Z.of_nat n).
Proof.
induction n as [|n IH]; intros H; [reflexivity|].
change (float_count (S n)) with (float_count n + 1)%float.
rewrite IH by lia. destruct n as [|n]; [reflexivity|].
apply Prim2SF_inj. rewrite FloatAxioms.add_spec.
change 1%float with (float_of_int 1) at 1.
replace (Z.of_nat (S (S n))) with (Zpos (Pos.of_succ_nat n + 1)) by lia.
replace (Z.of_nat (S n)) with (Zpos (Pos.of_succ_nat n)) in * by lia.
rewrite !Prim2SF_float_of_int_pos by (try reflexivity; lia).
apply sf_of_pos_succ. lia.
Qed.

(** ** Division of a counter by the sample count *)

Lemma shr_m_record_of_loc (m : Z) (l : location) :
shr_m (shr_record_of_loc m l) = m.
Proof. destruct l as [|[]]; reflexivity. Qed.

Lemma round_nearest_even_cases (m : Z) (l : location) :
round_nearest_even m l = m \/ round_nearest_even m l = m + 1.
Proof.
destruct l as [|[]]; cbn; auto. destruct (Z.even m); auto.
Qed.

Lemma round_stage_2 (s : bool) (m1 : positive) (e1 : Z) :
2 ^ 52 <= Zpos m1 <= 2 ^ 53 -> -1074 <= e1 -> e1 + 1 <= 971 ->
exists mf ef,
  (let '(mrs, e) := shr_fexp prec emax (Zpos m1) e1 loc_Exact in
   match shr_m mrs with
   | Z0 => S754_zero s
   | Zpos m => if e <=? emax - prec then S754_finite s m e else S754_infinity s
   | Zneg _ => S754_nan
   end) = S754_finite s mf ef
  /\ ((ef = e1 /\ Zpos mf < 2 ^ 53) \/ (ef = e1 + 1 /\ Zpos mf = 2 ^ 52)).
Proof.
intros Hm He1 He2.
destruct (Z_lt_le_dec (Zpos m1) (2 ^ 53)) as [Hlt|Hge].
- assert (Zpos (digits2_pos m1) = 53) as Hd
    by (apply digits2_pos_unique; [change (53 - 1) with 52|]; lia).
  rewrite shr_fexp_fits by (auto; lia). cbn [shr_m].
  replace (e1 <=? emax - prec) with true
    by (symmetry; apply Z.leb_le; unfold emax, prec; lia).
  exists m1, e1. auto.
- assert (m1 = 9007199254740992%positive) as ->.
  { change (2 ^ 53) with 9007199254740992 in *. lia. }
  unfold shr_fexp. cbn [Zdigits2].
  change (Zpos (digits2_pos 9007199254740992)) with 54.
  rewrite fexp_normal by lia. replace (54 + e1 - 53 - e1) with 1 by lia.
  cbn [shr shr_record_of_loc SpecFloat.iter_pos shr_1 shr_m orb].
  replace (e1 + 1 <=? emax - prec) with true
    by (symmetry; apply Z.leb_le; unfold emax, prec; lia).
  eexists _, _. split; [reflexivity|]. right. split; reflexivity.
Qed.

Lemma binary_round_aux_bound (q : positive) (e : Z) (l : location) :
2 ^ 52 <= Zpos q < 2 ^ 54 -> -1074 <= e -> e + 2 <= 971 ->
exists mf ef,
  binary_round_aux prec emax false (Zpos q) e l = S754_finite false mf ef
  /\ ((ef = (if Zpos q <? 2 ^ 53 then e else e + 1) /\ Zpos mf < 2 ^ 53)
      \/ (ef = (if Zpos q <? 2 ^ 53 then e else e + 1) + 1 /\ Zpos mf = 2 ^ 52)).
Proof.
intros Hq He1 He2. unfold binary_round_aux.
destruct (Z.ltb_spec (Zpos q) (2 ^ 53)) as [Hlt|Hge].
- assert (Zpos (digits2_pos q) = 53) as Hd
    by (apply digits2_pos_unique; [change (53 - 1) with 52|]; lia).
  unfold shr_fexp at 1. cbn [Zdigits2]. rewrite Hd, fexp_normal by lia.
  replace (53 + e - 53 - e) with 0 by lia. cbn [shr].
  rewrite shr_m_record_of_loc.
  set (m1 := round_nearest_even (Zpos q) _).
  assert (2 ^ 52 <= m1 <= 2 ^ 53) as Hm1
    by (destruct (round_nearest_even_cases (Zpos q)
                    (loc_of_shr_record (shr_record_of_loc (Zpos q) l)));
        unfold m1; lia).
  destruct m1 as [|m1|m1]; try (change (2 ^ 52) with 4503599627370496 in Hm1; lia).
  apply round_stage_2; lia.
- assert (Zpos (digits2_pos q) = 54) as Hd
    by (apply digits2_pos_unique; [change (54 - 1) with 53|]; lia).
  unfold shr_fexp at 1. cbn [Zdigits2]. rewrite Hd, fexp_normal by lia.
  replace (54 + e - 53 - e) with 1 by lia.
  cbn [shr SpecFloat.iter_pos].
  set (r := shr_1 (shr_record_of_loc (Zpos q) l)).
  assert (2 ^ 52 <= shr_m r < 2 ^ 53) as Hr.
  { unfold r. change (2 ^ 53) with 9007199254740992 in *.
    change (2 ^ 54) with 18014398509481984 in *.
    change (2 ^ 52) with 4503599627370496 in *.
    destruct l as [|[]], q as [p|p|]; cbn [shr_record_of_loc shr_1 shr_m]; lia. }
  set (m1 := round_nearest_even (shr_m r) _).
  assert (2 ^ 52 <= m1 <= 2 ^ 53) as Hm1
    by (destruct (round_nearest_even_cases (shr_m r) (loc_of_shr_record r));
        unfold m1; lia).
  destruct m1 as [|m1|m1]; try (change (2 ^ 52) with 4503599627370496 in Hm1; lia).
  apply round_stage_2; lia.
Qed.

Lemma digits2_pos_mono (c n : positive) :
Zpos c <= Zpos n -> Zpos (digits2_pos c) <= Zpos (digits2_pos n).
Proof.
intros H. rewrite !digits2_pos_log2.
pose proof (Z.log2_le_mono (Zpos c) (Zpos n) H). lia.
Qed.

Lemma mantissa_bounds (n : positive) :
Zpos n < 2 ^ 53 ->
2 ^ 52 <= Zpos (Pos.shiftl n (Z.to_N (53 - Zpos (digits2_pos n)))) < 2 ^ 53.
Proof.
intros H. pose proof (digits2_pos_mantissa n H) as Hd.
pose proof (digits2_pos_bounds (Pos.shiftl n (Z.to_N (53 - Zpos (digits2_pos n)))))
  as Hb.
rewrite Hd in Hb. exact Hb.
Qed.

Lemma div_core (mx my : positive) (ex ey : Z) :
Zpos (digits2_pos mx) = 53 -> Zpos (digits2_pos my) = 53 ->
-1074 <= ex - ey - 53 ->
SFdiv_core_binary prec emax (Zpos mx) ex (Zpos my) ey
= (Zpos mx * 2 ^ 53 / Zpos my, ex - ey - 53,
   new_location (Zpos my) ((Zpos mx * 2 ^ 53) mod Zpos my)).
Proof.
intros Hx Hy He. unfold SFdiv_core_binary. cbn [Zdigits2].
rewrite Hx, Hy, fexp_normal by lia.
replace (Z.min (53 + ex - (53 + ey) - 53) (ex - ey)) with (ex - ey - 53) by lia.
replace (ex - ey - (ex - ey - 53)) with 53 by lia.
rewrite Z.shiftl_mul_pow2 by lia.
unfold Z.div, Z.modulo.
destruct (Z.div_eucl (Zpos mx * 2 ^ 53) (Zpos my)) as [q r]. reflexivity.
Qed.

Lemma sf_div_self (n : positive) :
Zpos n < 2 ^ 53 ->
SFdiv prec emax (sf_of_pos n) (sf_of_pos n) = sf_of_pos 1.
Proof.
intros H. pose proof (digits2_pos_mantissa n H) as Hd.
pose proof (digits2_pos_le_53 n H) as Hle.
unfold sf_of_pos at 1 2. unfold SFdiv.
rewrite div_core by (auto; lia).
rewrite Z.mul_comm, Z.div_mul, Z.mod_mul by lia.
replace (new_location (Zpos (Pos.shiftl n (Z.to_N (53 - Zpos (digits2_pos n))))) 0)
  with loc_Exact
  by (unfold new_location; destruct (Z.even _); reflexivity).
replace (Zpos (digits2_pos n) - 53 - (Zpos (digits2_pos n) - 53) - 53)
  with (-53) by lia.
reflexivity.
Qed.

Lemma sf_div_lt (c n : positive) :
Zpos c < Zpos n -> Zpos n < 2 ^ 53 ->
exists mf ef,
  SFdiv prec emax (sf_of_pos c) (sf_of_pos n) = S754_finite false mf ef
  /\ (ef < -52 \/ (ef = -52 /\ Zpos mf = 2 ^ 52)).
Proof.
intros Hcn Hn. assert (Zpos c < 2 ^ 53) as Hc by lia.
pose proof (digits2_pos_mantissa c Hc) as Hdc.
pose proof (digits2_pos_mantissa n Hn) as Hdn.
pose proof (mantissa_bounds c Hc) as Hbc.
pose proof (mantissa_bounds n Hn) as Hbn.
pose proof (digits2_pos_mono c n ltac:(lia)) as Hmono.
pose proof (digits2_pos_le_53 n Hn) as Hle.
assert (0 < Zpos (digits2_pos c)) as Hpos by lia.
unfold sf_of_pos. unfold SFdiv. rewrite div_core by (auto; lia).
set (dc := Zpos (digits2_pos c)) in *. set (dn := Zpos (digits2_pos n)) in *.
set (mx := Zpos (Pos.shiftl c (Z.to_N (53 - dc)))) in *.
set (my := Zpos (Pos.shiftl n (Z.to_N (53 - dn)))) in *.
cbn [xorb].
pose proof (Z.div_mod (mx * 2 ^ 53) my ltac:(lia)) as Hdiv.
pose proof (Z.mod_pos_bound (mx * 2 ^ 53) my ltac:(lia)) as Hmod.
set (q := mx * 2 ^ 53 / my) in *. set (r := (mx * 2 ^ 53) mod my) in *.
change (2 ^ 52) with 4503599627370496 in *.
change (2 ^ 53) with 9007199254740992 in *.
assert (4503599627370496 <= q < 18014398509481984) as Hq by (split; nia).
assert (dc = dn -> q < 9007199254740992) as Hq'.
{ intros E. assert (mx < my); [|nia].
  unfold mx, my. rewrite !Zpos_shiftl, E.
  assert (0 < 2 ^ Z.of_N (Z.to_N (53 - dn))) by (apply Z.pow_pos_nonneg; lia).
  nia. }
destruct q as [|qp|qp]; try lia.
destruct (binary_round_aux_bound qp (dc - 53 - (dn - 53) - 53)
            (new_location my r)) as (mf&ef&Hres&Hb).
{ change (2 ^ 52) with 4503599627370496. change (2 ^ 54) with 18014398509481984.
  exact Hq. }
{ lia. }
{ lia. }
exists mf, ef. split; [exact Hres|].
change (2 ^ 53) with 9007199254740992 in Hb.
change (2 ^ 52) with 4503599627370496 in Hb.
destruct (Z.ltb_spec (Zpos qp) 9007199254740992) as [Hlt|Hge].
- destruct (Z.eq_dec dc dn); lia.
- assert (dc <> dn) by (intros E; specialize (Hq' E); lia). lia.
Qed.

Lemma Prim2SF_one : Prim2SF 1 = sf_of_pos 1.
Proof.
change 1%float with (float_of_int 1).
apply Prim2SF_float_of_int_pos. reflexivity.
Qed.

Lemma float_count_div_self (N : Z) :
1 <= N < 2 ^ 53 ->
(float_count (Z.to_nat N) / float_of_int N)%float = 1%float.
Proof.
intros H. rewrite float_count_eq, Z2Nat.id by lia.
destruct N as [|n|n]; try lia.
apply Prim2SF_inj. rewrite FloatAxioms.div_spec, Prim2SF_one.
rewrite Prim2SF_float_of_int_pos by lia. apply sf_div_self. lia.
Qed.

Lemma float_count_div_le_one (c : nat) (N : Z) :
1 <= N < 2 ^ 53 -> (c <= Z.to_nat N)%nat ->
(float_count c / float_of_int N <=? 1)%float = true.
Proof.
intros H Hc. destruct (Nat.eq_dec c (Z.to_nat N)) as [->|Hne].
{ rewrite float_count_div_self by exact H. reflexivity. }
rewrite float_count_eq by lia.
destruct N as [|n|n]; try lia.
apply leb_rank. unfold float_rank.
rewrite FloatAxioms.div_spec, Prim2SF_one.
rewrite (Prim2SF_float_of_int_pos n) by lia.
destruct (Z.of_nat c) as [|cp|cp] eqn:Ec; try lia.
- eexists _, _. split; [reflexivity|]. split; [reflexivity|]. discriminate.
- rewrite (Prim2SF_float_of_int_pos cp) by lia.
  destruct (sf_div_lt cp n) as (mf&ef&Hres&Hb); try lia.
  unfold SF64div. rewrite Hres.
  eexists _, _. split; [reflexivity|]. split; [reflexivity|].
  unfold rank_le, rank_compare. cbn [Z.compare Pos.compare Pos.compare_cont].
  change (Z.pos (digits2_pos 1) - 53) with (-52).
  change (Pos.shiftl 1 (Z.to_N (53 - Z.pos (digits2_pos 1))))
    with 4503599627370496%positive.
  change (2 ^ 52) with 4503599627370496 in Hb.
  destruct Hb as [Hb|[-> Hb]].
  + apply Z.compare_lt_iff in Hb. rewrite Hb. discriminate.
  + injection Hb as ->. cbn. discriminate.
Qed.

End Binary64.

(** ** The permutation test *)

Section PermutationTest.

(** The generator is any state-passing function that returns a
    permutation of the series it is given. *)
Variable rng : Type.
Variable np_random_permutation : rng -> list float -> list float * rng.
Hypothesis np_random_permutation_spec :
  forall g l, Permutation (np_random_permutation g l).1 l.

Local Abbreviation trials := (permutation_trials rng np_random_permutation).
Local Abbreviation draws := (permutation_draws rng np_random_permutation).

Lemma length_permutation_draws (n : nat) (zs : list float) (g : rng) :
  length (draws n zs g) = n.
Proof.
  revert g. induction n as [|n IH]; intros g; cbn; auto.
  destruct (np_random_permutation g zs) as [d g']. cbn. f_equal. auto.
Qed.

Lemma permutation_draws_spec (n : nat) (zs : list float) (g : rng) :
  Forall (fun d => Permutation d zs) (draws n zs g).
Proof.
  revert g. induction n as [|n IH]; intros g; cbn; auto.
  pose proof (np_random_permutation_spec g zs) as Hp.
  destruct (np_random_permutation g zs) as [d g']. constructor; auto.
Qed.

Lemma permutation_trials_spec (ms zs : list float) (c : string) :
  length ms = length zs - 1 ->
  forall (n : nat) (p : list float) (g : rng),
    length p = length ms ->
    exists p' g',
      trials n ms zs c p g = (Ok p', g')
      /\ length p' = length p
      /\ forall j m v,
           ms !! j = Some m -> p !! j = Some v ->
           p' !! j =
             Some (Nat.iter (count_exceeding_draws m j c (draws n zs g))
                     (fun x => (x + 1)%float) v).
Proof.
  intros Hms. induction n as [|n IH]; intros p g Hp.
  - exists p, g. repeat split; auto.
  - cbn [permutation_trials permutation_draws].
    pose proof (np_random_permutation_spec g zs) as Hperm.
    destruct (np_random_permutation g zs) as [d g1]. cbn [fst] in Hperm.
    assert (length (get_mean_shift_series d c) = length ms) as Hd.
    { rewrite length_get_mean_shift_series, (Permutation_length Hperm). lia. }
    destruct (count_exceeding_seq ms (get_mean_shift_series d c)
                (length (get_mean_shift_series d c)) 0 p)
      as (p1&Hrun&Hlen1&Hlook1); try lia.
    rewrite Hrun.
    destruct (IH p1 g1) as (p'&g'&Htr&Hlen&Hlook); [lia|].
    exists p', g'. split; [exact Htr|]. split; [lia|].
    intros j m v Hm Hv.
    assert (j < length (get_mean_shift_series d c)) as Hj
      by (rewrite Hd; eapply lookup_lt_Some; eauto).
    destruct (lookup_lt_is_Some_2 _ _ Hj) as [pm Hpm].
    rewrite (Hlook j m _ Hm (Hlook1 j m pm v Hm Hpm Hv)). f_equal.
    unfold count_exceeding_draws. cbn [List.filter].
    assert (exceeds_at m j c d = exceeds m pm) as ->
      by (unfold exceeds_at; rewrite Hpm; reflexivity).
    replace ((0 <=? j) && (j <? 0 + length (get_mean_shift_series d c)))
      with true.
    2:{ symmetry. apply andb_true_iff. split; [apply Nat.leb_le|apply Nat.ltb_lt]; lia. }
    cbn [andb]. destruct (exceeds m pm); cbn [length]; [|reflexivity].
    rewrite Nat.iter_succ_r. reflexivity.
Qed.

Lemma get_p_value_series_spec (word : string) (zs : list float) (c : string)
    (N : Z) (g : rng) :
  let ms := get_mean_shift_series zs c in
  exists p g',
    get_p_value_series rng np_random_permutation word ms N zs c g = (Ok p, g')
    /\ length p = length ms
    /\ forall j m,
         ms !! j = Some m ->
         p !! j =
           Some (float_count
                   (count_exceeding_draws m j c (draws (Z.to_nat N) zs g))
                 / float_of_int N)%float.
Proof.
  intros ms. unfold get_p_value_series.
  destruct (permutation_trials_spec ms zs c
              (length_get_mean_shift_series zs c) (Z.to_nat N)
              (replicate (length ms) 0%float) g)
    as (p'&g'&Htr&Hlen&Hlook); [apply length_replicate|].
  fold ms. rewrite Htr. eexists _, g'. split; [reflexivity|].
  rewrite length_replicate in Hlen. split; [rewrite length_map; exact Hlen|].
  intros j m Hm. rewrite list_lookup_fmap.
  rewrite (Hlook j m 0%float Hm); [reflexivity|].
  apply lookup_replicate_2. eapply lookup_lt_Some; eauto.
Qed.

Lemma count_exceeding_draws_le (m : float) (j : nat) (c : string)
    (ds : list (list float)) :
  count_exceeding_draws m j c ds <= length ds.
Proof. unfold count_exceeding_draws. apply filter_length_le. Qed.

Lemma count_exceeding_draws_nan (m : float) (j : nat) (c : string)
    (ds : list (list float)) :
  is_nan m = true ->
  Forall (fun d => j < length (get_mean_shift_series d c)) ds ->
  count_exceeding_draws m j c ds = length ds.
Proof.
  intros Hm. unfold count_exceeding_draws.
  induction 1 as [|d ds Hd _ IH]; cbn [List.filter]; [reflexivity|].
  destruct (lookup_lt_is_Some_2 _ _ Hd) as [pm Hpm].
  unfold exceeds_at at 1. rewrite Hpm. unfold exceeds. rewrite Hm. cbn.
  f_equal. exact IH.
Qed.


(** C1: the permutation test draws [N] permutations of the series; the
    p-value at split index [j] is the counter of the draws whose mean-shift
    at [j] is strictly greater than the original one, divided by [N]; when
    the original mean-shift at [j] is a NaN every draw is counted and the
    p-value is 1. *)
Theorem permutation_test_p_values (word : string) (zs : list float)
    (c : string) (N : Z) (g : rng) :
  (1 <= N)%Z ->
  let ms := get_mean_shift_series zs c in
  let ds := draws (Z.to_nat N) zs g in
  length ds = Z.to_nat N
  /\ Forall (fun d => Permutation d zs) ds
  /\ exists p g',
       get_p_value_series rng np_random_permutation word ms N zs c g = (Ok p, g')
       /\ length p = length ms
       /\ forall j m,
            ms !! j = Some m ->
            p !! j =
              Some (float_count (count_exceeding_draws m j c ds)
                    / float_of_int N)%float
            /\ (is_nan m = false ->
                count_exceeding_draws m j c ds
                = length
                    (List.filter
                       (fun d =>
                          match get_mean_shift_series d c !! j with
                          | Some pm => (m <? pm)%float
                          | None => false
                          end) ds))
            /\ (is_nan m = true ->
                count_exceeding_draws m j c ds = Z.to_nat N
                /\ ((N < 2 ^ 53)%Z -> p !! j = Some 1%float)).
Proof.
  intros HN ms ds.
  pose proof (length_permutation_draws (Z.to_nat N) zs g) as Hlen.
  pose proof (permutation_draws_spec (Z.to_nat N) zs g) as Hperm.
  fold ds in Hlen, Hperm. split; [exact Hlen|]. split; [exact Hperm|].
  destruct (get_p_value_series_spec word zs c N g) as (p&g'&Hp&Hl&Hlook).
  fold ms in Hp, Hl, Hlook. fold ds in Hlook.
  exists p, g'. split; [exact Hp|]. split; [exact Hl|].
  intros j m Hm. split; [exact (Hlook j m Hm)|]. split.
  - intros Hnan. unfold count_exceeding_draws. f_equal.
    apply filter_ext. intros d. unfold exceeds_at, exceeds. rewrite Hnan.
    reflexivity.
  - intros Hnan.
    assert (count_exceeding_draws m j c ds = Z.to_nat N) as Hcount.
    { rewrite <- Hlen. apply count_exceeding_draws_nan; [exact Hnan|].
      eapply Forall_impl; [exact Hperm|]. intros d Hd. cbn beta.
      rewrite length_get_mean_shift_series, (Permutation_length Hd).
      rewrite <- (length_get_mean_shift_series zs c).
      eapply lookup_lt_Some; exact Hm. }
    split; [exact Hcount|]. intros Hb.
    rewrite (Hlook j m Hm), Hcount, float_count_div_self by lia. reflexivity.
Qed.

(** ** The detector *)

Local Abbreviation detect := (detect_change_point rng np_random_permutation).

Lemma compact_nil_kept (z : list (option float)) (labels : list string) :
  length labels = length z ->
  length (map snd (kept z labels)) = length (compact z).
Proof.
  intros H. rewrite (compact_kept z labels H), !length_map. reflexivity.
Qed.

Lemma detect_change_point_unfold (word : string) (labels : list string)
    (z : list (option float)) (N : Z) (thr gamma : float) (c : string)
    (g : rng) :
  length labels = length z -> compact z <> [] ->
  let zs := compact z in
  let ms := get_mean_shift_series zs c in
  exists p g',
    get_p_value_series rng np_random_permutation word ms N zs c g = (Ok p, g')
    /\ length p = length zs - 1
    /\ detect word labels z N thr gamma c g
       = (select_change_point word (map snd (kept z labels)) zs ms p thr gamma,
          g').
Proof.
  intros Hlen Hne zs ms.
  destruct (get_p_value_series_spec word zs c N g) as (p&g'&Hp&Hl&_).
  fold ms in Hp, Hl. exists p, g'. split; [exact Hp|].
  split; [rewrite Hl; apply length_get_mean_shift_series|].
  unfold detect_change_point. rewrite (labels_where_truthy_kept _ _ Hlen).
  pose proof (compact_nil_kept z labels Hlen) as Hk.
  destruct (map snd (kept z labels)) as [|l ls] eqn:E.
  - destruct (compact z); [congruence|discriminate].
  - fold zs. fold ms. rewrite Hp. reflexivity.
Qed.

(** C6: a series with exactly one entry kept by compaction: the p-value
    series is empty, its minimum raises [ValueError], the handler falls
    through and the detector ends with [UnboundLocalError]. *)
Theorem single_entry_raises (word : string) (labels : list string)
    (z : list (option float)) (N : Z) (thr gamma : float) (c : string)
    (g : rng) :
  length labels = length z -> length (compact z) = 1 ->
  get_mean_shift_series (compact z) c = []
  /\ (get_p_value_series rng np_random_permutation word
        (get_mean_shift_series (compact z) c) N (compact z) c g).1 = Ok []
  /\ (detect word labels z N thr gamma c g).1 = Raise UnboundLocalError.
Proof.
  intros Hlen H1.
  assert (compact z <> []) as Hne by (destruct (compact z); [discriminate|congruence]).
  destruct (detect_change_point_unfold word labels z N thr gamma c g Hlen Hne)
    as (p&g'&Hp&Hl&Hd).
  assert (p = []) as -> by (destruct p; [reflexivity|cbn in Hl; lia]).
  assert (get_mean_shift_series (compact z) c = []) as Hms.
  { apply length_zero_iff_nil. rewrite length_get_mean_shift_series. lia. }
  split; [exact Hms|]. rewrite Hp, Hd. split; reflexivity.
Qed.


(** C9: for a sample count from 1 to below [2^53] and a gamma threshold
    raised from [gamma1] to [gamma2], the gated p-value at every split
    index does not decrease, and no gated p-value is below the p-value of
    the run without a gate. *)
Theorem gate_monotone (word : string) (zs : list float) (c : string) (N : Z)
    (g : rng) (gamma1 gamma2 : float) :
  (1 <= N < 2 ^ 53)%Z -> (gamma1 <=? gamma2)%float = true ->
  exists p g' gated1 gated2,
    get_p_value_series rng np_random_permutation word
      (get_mean_shift_series zs c) N zs c g = (Ok p, g')
    /\ magnitude_gate (seq 0 (length p)) zs gamma1 p = Ok gated1
    /\ magnitude_gate (seq 0 (length p)) zs gamma2 p = Ok gated2
    /\ length gated1 = length p /\ length gated2 = length p
    /\ forall j p0 p1 p2,
         p !! j = Some p0 -> gated1 !! j = Some p1 -> gated2 !! j = Some p2 ->
         (p1 <=? p2)%float = true
         /\ (p0 <=? p1)%float = true
         /\ (p2 = p1 \/ p2 = 1%float).
Proof.
  intros HN Hg.
  destruct (get_p_value_series_spec word zs c N g) as (p&g'&Hp&Hl&Hlook).
  rewrite length_get_mean_shift_series in Hl.
  destruct (magnitude_gate_lookup zs gamma1 p) as (gated1&Hg1&Hl1&Hk1); [lia|].
  destruct (magnitude_gate_lookup zs gamma2 p) as (gated2&Hg2&Hl2&Hk2); [lia|].
  exists p, g', gated1, gated2. repeat (split; [assumption|]).
  intros j p0 p1 p2 H0 H1 H2.
  assert (j < length zs) as Hj by (apply lookup_lt_Some in H0; lia).
  destruct (lookup_lt_is_Some_2 zs j Hj) as [z Hz].
  rewrite (Hk1 j z p0 Hz H0) in H1. rewrite (Hk2 j z p0 Hz H0) in H2.
  injection H1 as <-. injection H2 as <-.
  assert ((p0 <=? 1)%float = true) as Hle.
  { assert (j < length (get_mean_shift_series zs c)) as Hjm
      by (rewrite length_get_mean_shift_series; apply lookup_lt_Some in H0; lia).
    destruct (lookup_lt_is_Some_2 _ _ Hjm) as [m Hm].
    rewrite (Hlook j m Hm) in H0. injection H0 as <-.
    apply float_count_div_le_one; [exact HN|].
    eapply Nat.le_trans; [apply count_exceeding_draws_le|].
    rewrite length_permutation_draws. lia. }
  destruct (leb_true_not_nan _ _ Hle) as [Hnan _].
  destruct (z <? gamma1)%float eqn:E1.
  - rewrite (ltb_leb_trans _ _ _ E1 Hg). auto.
  - destruct (z <? gamma2)%float; auto using leb_refl_not_nan.
Qed.

End PermutationTest.

(** ** The permutation test without samples *)

(** C7: with zero samples no permutation is drawn and every counter,
    still 0.0, is divided by 0: the p-value is a NaN at every split
    index, not 0. *)
Theorem zero_samples_nan (rng : Type)
    (np_random_permutation : rng -> list float -> list float * rng)
    (word : string) (ms zs : list float) (c : string) (g : rng) :
  get_p_value_series rng np_random_permutation word ms 0 zs c g
  = (Ok (replicate (length ms) nan), g).
Proof.
  unfold get_p_value_series. cbn [Z.to_nat permutation_trials].
  do 2 f_equal. induction (length ms) as [|n IH]; cbn; [reflexivity|].
  f_equal. exact IH.
Qed.

Lemma zero_samples_counterexample :
  get_p_value_series nat rotating_permutation "cat"
    (get_mean_shift_series [1%float; 2%float] "last") 0
    [1%float; 2%float] "last" 0
  = (Ok [nan], 0)
  /\ (nan =? 0)%float = false.
Proof. split; reflexivity. Qed.

(** ** The example generator *)

Lemma rotating_permutation_spec (g : nat) (l : list float) :
  Permutation (rotating_permutation g l).1 l.
Proof.
  cbn [rotating_permutation fst]. unfold rotate.
  rewrite Permutation_app_comm, take_drop. reflexivity.
Qed.

(** ** Instances of the theorems *)


Lemma permutation_test_p_values_witness :
  (1 <= 4)%Z
  /\ exists p g',
       get_p_value_series nat rotating_permutation "cat"
         (get_mean_shift_series [0.5%float; nan; 2%float] "first") 4
         [0.5%float; nan; 2%float] "first" 0 = (Ok p, g')
       /\ length p = 2
       /\ p !! 0 = Some 1%float.
Proof.
  split; [lia|].
  destruct (permutation_test_p_values nat rotating_permutation
              rotating_permutation_spec "cat" [0.5%float; nan; 2%float]
              "first" 4 0 ltac:(lia)) as (_ & _ & p & g' & Hp & Hl & Hj).
  exists p, g'. split; [exact Hp|]. split; [exact Hl|].
  destruct (Hj 0 nan eq_refl) as (_ & _ & Hnan).
  destruct (Hnan eq_refl) as [_ H1]. apply H1. reflexivity.
Defined.

Lemma single_entry_raises_witness :
  length ["2012_02"; "2012_03"; "2012_04"]%string
  = length [Some 1.5%float; None; None]
  /\ length (compact [Some 1.5%float; None; None]) = 1
  /\ (detect_change_point nat rotating_permutation "dog"
        ["2012_02"; "2012_03"; "2012_04"]%string [Some 1.5%float; None; None]
        8 0.0625%float 0%float "first" 0).1
     = Raise UnboundLocalError.
Proof.
  split; [reflexivity|]. split; [reflexivity|].
  exact (proj2 (proj2
    (single_entry_raises nat rotating_permutation rotating_permutation_spec
       "dog" ["2012_02"; "2012_03"; "2012_04"]%string
       [Some 1.5%float; None; None] 8 0.0625%float 0%float "first" 0
       eq_refl eq_refl))).
Defined.

(** The error of one word ends the whole run: no report is produced for
    the other words either. *)
Example single_entry_aborts_run :
  analyse nat rotating_permutation ["dog"; "cat"]%string ex_dicts ex_labels
    (ex_options "p_value") 0
  = (Raise UnboundLocalError, 8).
Proof. reflexivity. Qed.



Lemma gate_monotone_witness :
  (1 <= 8 < 2 ^ 53)%Z
  /\ (0 <=? 1)%float = true
  /\ exists p g' gated1 gated2,
       get_p_value_series nat rotating_permutation "cat"
         (get_mean_shift_series (compact ex_z) "first") 8 (compact ex_z)
         "first" 0 = (Ok p, g')
       /\ magnitude_gate (seq 0 (length p)) (compact ex_z) 0 p = Ok gated1
       /\ magnitude_gate (seq 0 (length p)) (compact ex_z) 1 p = Ok gated2
       /\ forall j p1 p2,
            gated1 !! j = Some p1 -> gated2 !! j = Some p2 ->
            (p1 <=? p2)%float = true.
Proof.
  split; [lia|]. split; [reflexivity|].
  destruct (gate_monotone nat rotating_permutation rotating_permutation_spec
              "cat" (compact ex_z) "first" 8 0 0%float 1%float ltac:(lia) eq_refl)
    as (p & g' & gated1 & gated2 & Hp & H1 & H2 & Hl1 & Hl2 & H).
  exists p, g', gated1, gated2. repeat (split; [assumption|]).
  intros j p1 p2 Hp1 Hp2.
  assert (j < length p) as Hj by (apply lookup_lt_Some in Hp1; lia).
  destruct (lookup_lt_is_Some_2 p j Hj) as [p0 Hp0].
  exact (proj1 (H j p0 p1 p2 Hp0 Hp1 Hp2)).
Defined.

Lemma gate_monotone_counterexample :
  (0 <=? 0.5)%float = true
  /\ get_p_value_series nat rotating_permutation "cat"
       (get_mean_shift_series [1%float; 2%float] "last") 0
       [1%float; 2%float] "last" 0 = (Ok [nan], 0)
  /\ magnitude_gate (seq 0 1) [1%float; 2%float] 0 [nan] = Ok [nan]
  /\ magnitude_gate (seq 0 1) [1%float; 2%float] 0.5 [nan] = Ok [nan]
  /\ (nan <=? nan)%float = false.
Proof. repeat split. Qed.

(** ** Configuration values that are not recognised *)

(** C10: no configuration value is validated.  A rank key other than
    ["z_score"] and ["mean_shift"] ranks like ["p_value"], and a distance
    measure other than ["cosine"] gives the dictionary of
    ["neighborhood"]; neither raises an error. *)
Theorem unknown_keys_fall_through (keyed_vectors : Type)
    (contains : keyed_vectors -> string -> bool)
    (cosine : keyed_vectors -> keyed_vectors -> string -> float)
    (measure_semantic_shift_by_neighborhood :
       keyed_vectors -> keyed_vectors -> string -> Z -> float)
    (smart_procrustes_align_gensim :
       keyed_vectors -> keyed_vectors -> keyed_vectors)
    (rank_key distance_measure : string) (results : list change_point)
    (model alignment_reference_model comparison_reference_model : keyed_vectors)
    (vocab : list string) (k : Z) (training_mode : string) :
  rank_key <> "z_score"%string -> rank_key <> "mean_shift"%string ->
  distance_measure <> "cosine"%string ->
  rank_results rank_key results = rank_results "p_value" results
  /\ get_dist_dict keyed_vectors contains cosine
       measure_semantic_shift_by_neighborhood smart_procrustes_align_gensim
       model alignment_reference_model comparison_reference_model vocab
       distance_measure k training_mode
     = get_dist_dict keyed_vectors contains cosine
         measure_semantic_shift_by_neighborhood smart_procrustes_align_gensim
         model alignment_reference_model comparison_reference_model vocab
         "neighborhood" k training_mode.
Proof.
  intros Hz Hm Hc. split.
  - unfold rank_results.
    apply String.eqb_neq in Hz, Hm. rewrite Hz, Hm. reflexivity.
  - unfold get_dist_dict. apply String.eqb_neq in Hc. rewrite Hc. reflexivity.
Qed.

Lemma unknown_keys_fall_through_witness :
  "colour"%string <> "z_score"%string
  /\ "colour"%string <> "mean_shift"%string
  /\ "manhattan"%string <> "cosine"%string
  /\ rank_results "colour" [ex_result]
     = rank_results "p_value" [ex_result]
  /\ get_dist_dict (list string) ex_contains (fun _ _ _ => 0.25%float)
       (fun _ _ _ _ => 0.75%float) (fun _ m => m)
       ["cat"]%string ["cat"]%string ["cat"]%string ["cat"; "dog"]%string
       "manhattan" 25 "independent"
     = get_dist_dict (list string) ex_contains (fun _ _ _ => 0.25%float)
         (fun _ _ _ _ => 0.75%float) (fun _ m => m)
         ["cat"]%string ["cat"]%string ["cat"]%string ["cat"; "dog"]%string
         "neighborhood" 25 "independent".
Proof.
  split; [discriminate|]. split; [discriminate|]. split; [discriminate|].
  apply unknown_keys_fall_through; discriminate.
Defined.

Lemma unknown_keys_counterexample :
  analyse nat rotating_permutation ["cat"]%string ex_dicts ex_labels
    (ex_options "colour") 0
  = (Ok [ex_result], 8)
  /\ get_dist_dict (list string) ex_contains (fun _ _ _ => 0.25%float)
       (fun _ _ _ _ => 0.75%float) (fun _ m => m)
       ["cat"]%string ["cat"]%string ["cat"]%string ["cat"; "dog"]%string
       "manhattan" 25 "independent"
     = [("cat", Some 0.75%float); ("dog", None)]%string.
Proof. split; reflexivity. Qed.

(** * Further properties of the code *)

(** ** Lists of unequal length *)

Lemma labels_where_truthy_short (labels : list string) (z : list (option float)) :
  forall (n k : nat),
    k <= length z -> length z < k + n -> k + n <= length labels ->
    labels_where_truthy (seq k n) labels z = Raise IndexError.
Proof.
  induction n as [|n IH]; intros k Hk Hz Hl; [lia|].
  cbn [seq labels_where_truthy]. unfold py_index at 1.
  destruct (z !! k) as [v|] eqn:Ev; cbn [bind]; [|reflexivity].
  apply lookup_lt_Some in Ev.
  rewrite (IH (S k)) by lia.
  destruct (truthy v); [|reflexivity].
  unfold py_index. destruct (labels !! k); reflexivity.
Qed.

(** X1: when there are more labels than z-scores, the comprehension over
    the label indices reads a z-score that does not exist and the detector
    raises [IndexError], before any permutation is drawn. *)
Theorem detect_more_labels_raises (rng : Type)
    (np_random_permutation : rng -> list float -> list float * rng)
    (word : string) (labels : list string) (z : list (option float)) (N : Z)
    (thr gamma : float) (c : string) (g : rng) :
  length z < length labels ->
  detect_change_point rng np_random_permutation word labels z N thr gamma c g
  = (Raise IndexError, g).
Proof.
  intros H. unfold detect_change_point.
  rewrite (labels_where_truthy_short labels z (length labels) 0) by lia.
  reflexivity.
Qed.

Lemma detect_more_labels_raises_witness :
  length [Some 1.5%float] < length ["2012_02"; "2012_03"]%string
  /\ detect_change_point nat rotating_permutation "cat"
       ["2012_02"; "2012_03"]%string [Some 1.5%float] 8 0.0625%float 0%float
       "first" 0
     = (Raise IndexError, 0).
Proof.
  split; [cbn; lia|].
  apply detect_more_labels_raises. cbn. lia.
Defined.

Lemma detect_compact_nil (rng : Type)
    (np_random_permutation : rng -> list float -> list float * rng)
    (word : string) (labels : list string) (z : list (option float)) (N : Z)
    (thr gamma : float) (c : string) (g : rng) :
  length labels = length z -> compact z = [] ->
  detect_change_point rng np_random_permutation word labels z N thr gamma c g
  = (Ok None, g).
Proof.
  intros Hlen Hc. unfold detect_change_point.
  rewrite (labels_where_truthy_kept _ _ Hlen).
  pose proof (compact_nil_kept z labels Hlen) as Hk. rewrite Hc in Hk.
  destruct (map snd (kept z labels)); [reflexivity|discriminate].
Qed.

(** X2: when no position holds a float other than zero, the detector
    returns no result and leaves the generator as it was. *)
Theorem detect_nothing_kept (rng : Type)
    (np_random_permutation : rng -> list float -> list float * rng)
    (word : string) (labels : list string) (z : list (option float)) (N : Z)
    (thr gamma : float) (c : string) (g : rng) :
  length labels = length z -> compact z = [] ->
  detect_change_point rng np_random_permutation word labels z N thr gamma c g
  = (Ok None, g).
Proof. apply detect_compact_nil. Qed.

Lemma detect_nothing_kept_witness :
  length ["2012_02"; "2012_03"]%string = length [None; Some 0%float]
  /\ compact [None; Some 0%float] = []
  /\ detect_change_point nat rotating_permutation "cat"
       ["2012_02"; "2012_03"]%string [None; Some 0%float] 8 0.0625%float
       0%float "first" 0
     = (Ok None, 0).
Proof.
  split; [reflexivity|]. split; [reflexivity|].
  apply detect_nothing_kept; reflexivity.
Defined.

Section DetectorResults.

Variable rng : Type.
Variable np_random_permutation : rng -> list float -> list float * rng.
Hypothesis np_random_permutation_spec :
  forall g l, Permutation (np_random_permutation g l).1 l.

Local Abbreviation detect := (detect_change_point rng np_random_permutation).

Lemma detect_one_kept (word : string) (labels : list string)
    (z : list (option float)) (N : Z) (thr gamma : float) (c : string)
    (g : rng) :
  length labels = length z -> length (compact z) = 1 ->
  (detect word labels z N thr gamma c g).1 = Raise UnboundLocalError.
Proof.
  intros Hlen H1.
  assert (compact z <> []) as Hne
    by (destruct (compact z); [discriminate|congruence]).
  destruct (detect_change_point_unfold rng np_random_permutation
              np_random_permutation_spec word labels z N thr gamma c g Hlen Hne)
    as (p&g'&Hp&Hl&Hd).
  assert (p = []) as -> by (destruct p; [reflexivity|cbn in Hl; lia]).
  rewrite Hd. reflexivity.
Qed.

(** What a reported change point is made of. *)
Lemma detect_result_inv (word : string) (labels : list string)
    (z : list (option float)) (N : Z) (thr gamma : float) (c : string)
    (g g' : rng) (r : change_point) :
  length labels = length z ->
  detect word labels z N thr gamma c g = (Ok (Some r), g') ->
  exists p gated min_p cp label m zv pv,
    r = (word, label, min_p, m, zv)
    /\ get_p_value_series rng np_random_permutation word
         (get_mean_shift_series (compact z) c) N (compact z) c g = (Ok p, g')
    /\ length p = length (compact z) - 1
    /\ magnitude_gate (seq 0 (length p)) (compact z) gamma p = Ok gated
    /\ length gated = length p
    /\ np_min gated = Ok min_p
    /\ (min_p <? thr)%float = true
    /\ gated !! cp = Some pv /\ (pv =? min_p)%float = true
    /\ get_mean_shift_series (compact z) c !! cp = Some m
    /\ compact z !! cp = Some zv
    /\ map snd (kept z labels) !! cp = Some label
    /\ (exists i, z !! i = Some (Some zv) /\ labels !! i = Some label)
    /\ ((thr <=? 1)%float = true -> (zv <? gamma)%float = false).
Proof.
  intros Hlen Hd.
  destruct (compact z) as [|x0 [|x1 zs]] eqn:Ez.
  - rewrite (detect_compact_nil rng np_random_permutation word labels z N thr
               gamma c g Hlen Ez) in Hd. discriminate.
  - pose proof (detect_one_kept word labels z N thr gamma c g Hlen) as H1.
    rewrite Ez, Hd in H1. specialize (H1 eq_refl). discriminate.
  - rewrite <- Ez in *.
    assert (compact z <> []) as Hne by (rewrite Ez; discriminate).
    assert (2 <= length (compact z)) as H2 by (rewrite Ez; cbn; lia).
    destruct (detect_change_point_unfold rng np_random_permutation
                np_random_permutation_spec word labels z N thr gamma c g Hlen Hne)
      as (p&g1&Hp&Hl&Hd').
    rewrite Hd' in Hd. injection Hd as Hsel <-.
    destruct (select_change_point_spec word (map snd (kept z labels))
                (compact z) (get_mean_shift_series (compact z) c) p thr gamma)
      as (gated&min_p&Hgate&Hglen&Hmin&Hnone&Hsome).
    { rewrite length_get_mean_shift_series. lia. }
    { lia. }
    { rewrite (compact_nil_kept z labels Hlen). reflexivity. }
    { destruct p; [cbn in Hl; lia|discriminate]. }
    destruct (min_p <? thr)%float eqn:Elt.
    + destruct (Hsome eq_refl) as (cp&label&m&zv&pv&Hs&Hpv&Epv&Hm&Hz&Hlab&_).
      rewrite Hs in Hsel. injection Hsel as <-.
      exists p, gated, min_p, cp, label, m, zv, pv.
      repeat (split; [first [assumption|reflexivity]|]). split.
      * assert (kept z labels !! cp = Some (zv, label)) as Hk.
        { rewrite (compact_kept z labels Hlen), list_lookup_fmap in Hz.
          rewrite list_lookup_fmap in Hlab.
          destruct (kept z labels !! cp) as [[a b]|]; [|discriminate].
          cbn in Hz, Hlab. congruence. }
        apply list_elem_of_lookup_2, (kept_positions z labels zv label Hlen)
          in Hk as (i&Hi&Hli&_).
        eauto.
      * intros Hthr.
        destruct (zv <? gamma)%float eqn:E; [exfalso|reflexivity].
        destruct (magnitude_gate_lookup (compact z) gamma p)
          as (gated'&Hg'&_&Hk); [lia|].
        rewrite Hgate in Hg'. injection Hg' as <-.
        assert (cp < length p) as Hcp by (apply lookup_lt_Some in Hpv; lia).
        destruct (lookup_lt_is_Some_2 p cp Hcp) as [v Hv].
        rewrite (Hk cp zv v Hz Hv), E in Hpv. injection Hpv as <-.
        exact (eqb_ltb_leb_absurd _ _ _ Epv Elt Hthr).
    + rewrite (Hnone eq_refl) in Hsel. discriminate.
Qed.

Lemma detect_raises_inv (word : string) (labels : list string)
    (z : list (option float)) (N : Z) (thr gamma : float) (c : string)
    (g : rng) (e : exn) :
  length labels = length z ->
  (detect word labels z N thr gamma c g).1 = Raise e ->
  length (compact z) = 1 /\ e = UnboundLocalError.
Proof.
  intros Hlen Hr. destruct (compact z) as [|x0 [|x1 zs]] eqn:Ez.
  - rewrite (detect_compact_nil rng np_random_permutation word labels z N
               thr gamma c g Hlen Ez) in Hr. discriminate.
  - pose proof (detect_one_kept word labels z N thr gamma c g Hlen) as H1.
    rewrite Ez in H1. specialize (H1 eq_refl). split; [reflexivity|congruence].
  - exfalso.
    assert (compact z <> []) as Hne by (rewrite Ez; discriminate).
    assert (2 <= length (compact z)) as H2 by (rewrite Ez; cbn; lia).
    clear Ez.
    destruct (detect_change_point_unfold rng np_random_permutation
                np_random_permutation_spec word labels z N thr gamma c g Hlen Hne)
      as (p&g1&Hp&Hl&Hd').
    rewrite Hd' in Hr. cbn [fst] in Hr.
    destruct (select_change_point_spec word (map snd (kept z labels))
                (compact z) (get_mean_shift_series (compact z) c) p thr gamma)
      as (gated&min_p&Hgate&Hglen&Hmin&Hnone&Hsome).
    { rewrite length_get_mean_shift_series. lia. }
    { lia. }
    { rewrite (compact_nil_kept z labels Hlen). reflexivity. }
    { destruct p; [cbn in Hl; lia|discriminate]. }
    destruct (min_p <? thr)%float eqn:Elt.
    + destruct (Hsome eq_refl) as (cp&label&m&zv&pv&Hs&_). congruence.
    + rewrite (Hnone eq_refl) in Hr. discriminate.
Qed.

(** X3: on parallel lists the detector raises only when exactly one
    position is kept, and the exception is then [UnboundLocalError]. *)
Theorem detect_raises_iff (word : string) (labels : list string)
    (z : list (option float)) (N : Z) (thr gamma : float) (c : string)
    (g : rng) (e : exn) :
  length labels = length z ->
  (detect word labels z N thr gamma c g).1 = Raise e
  <-> length (compact z) = 1 /\ e = UnboundLocalError.
Proof.
  intros Hlen. split.
  - apply detect_raises_inv. exact Hlen.
  - intros [H1 ->]. apply detect_one_kept; assumption.
Qed.

(** X4: a reported change point carries the word it was computed for and
    a p-value below the threshold; its z-score and its label come from one
    and the same position of the input lists, its mean-shift is the entry
    of the mean-shift series at the selected split index, and that index is
    never the last kept position. *)
Theorem detect_result_provenance (word : string) (labels : list string)
    (z : list (option float)) (N : Z) (thr gamma : float) (c : string)
    (g g' : rng) (w l : string) (p m zv : float) :
  length labels = length z ->
  detect word labels z N thr gamma c g = (Ok (Some (w, l, p, m, zv)), g') ->
  w = word
  /\ (p <? thr)%float = true
  /\ exists cp i,
       S cp < length (compact z)
       /\ compact z !! cp = Some zv
       /\ get_mean_shift_series (compact z) c !! cp = Some m
       /\ z !! i = Some (Some zv) /\ labels !! i = Some l.
Proof.
  intros Hlen Hd.
  destruct (detect_result_inv word labels z N thr gamma c g g' _ Hlen Hd)
    as (p0&gated&min_p&cp&label&m0&zv0&pv&Hr&Hp&Hl&Hgate&Hglen&Hmin&Hlt&Hpv&_
        &Hm&Hz&Hlab&(i&Hi&Hli)&_).
  injection Hr as -> -> -> -> ->. split; [reflexivity|]. split; [exact Hlt|].
  exists cp, i. repeat split; try assumption.
  apply lookup_lt_Some in Hpv. lia.
Qed.

(** X5: for a p-value threshold of at most 1, the z-score of a reported
    change point is not below the gamma threshold: the gate keeps every
    gated index out of the selection. *)
Theorem detect_result_not_gated (word : string) (labels : list string)
    (z : list (option float)) (N : Z) (thr gamma : float) (c : string)
    (g g' : rng) (w l : string) (p m zv : float) :
  length labels = length z -> (thr <=? 1)%float = true ->
  detect_change_point rng np_random_permutation word labels z N thr gamma c g
  = (Ok (Some (w, l, p, m, zv)), g') ->
  (zv <? gamma)%float = false.
Proof.
  intros Hlen Hthr Hd.
  destruct (detect_result_inv word labels z N thr gamma c g g' _ Hlen Hd)
    as (p0&gated&min_p&cp&label&m0&zv0&pv&Hr&_&_&_&_&_&_&_&_&_&_&_&_&Hgate).
  injection Hr as -> -> -> -> ->. exact (Hgate Hthr).
Qed.

End DetectorResults.

(** ** The range of the p-values *)

Lemma float_count_div_nonneg (c : nat) (N : Z) :
  (1 <= N < 2 ^ 53)%Z -> (c <= Z.to_nat N)%nat ->
  (0 <=? float_count c / float_of_int N)%float = true.
Proof.
  intros H Hc. destruct (Nat.eq_dec c (Z.to_nat N)) as [->|Hne].
  { rewrite float_count_div_self by exact H. reflexivity. }
  rewrite float_count_eq by lia.
  destruct N as [|n|n]; try lia.
  apply leb_rank. unfold float_rank.
  rewrite FloatAxioms.div_spec.
  rewrite (Prim2SF_float_of_int_pos n) by lia.
  destruct (Z.of_nat c) as [|cp|cp] eqn:Ec; try lia.
  - eexists _, _. split; [reflexivity|]. split; [reflexivity|]. discriminate.
  - rewrite (Prim2SF_float_of_int_pos cp) by lia.
    destruct (sf_div_lt cp n) as (mf&ef&Hres&_); try lia.
    unfold SF64div. rewrite Hres.
    eexists _, _. split; [reflexivity|]. split; [reflexivity|]. discriminate.
Qed.

Lemma zero_div_negative (n : positive) :
  (Zpos n < 2 ^ 53)%Z -> (0 / float_of_int (Zneg n))%float = (-0)%float.
Proof.
  intros H. apply Prim2SF_inj. rewrite FloatAxioms.div_spec.
  cbn [float_of_int]. rewrite FloatAxioms.opp_spec.
  pose proof (Prim2SF_float_of_int_pos n H) as Hn. cbn [float_of_int] in Hn.
  rewrite Hn. reflexivity.
Qed.

Lemma map_replicate_float (f : float -> float) (n : nat) (x : float) :
  map f (replicate n x) = replicate n (f x).
Proof. induction n as [|n IH]; cbn; [reflexivity|]. f_equal. exact IH. Qed.

(** X6: with a negative sample count no permutation is drawn and every
    counter, still 0.0, is divided by a negative number: every p-value is
    the negative zero. *)
Theorem negative_samples_zero (rng : Type)
    (np_random_permutation : rng -> list float -> list float * rng)
    (word : string) (ms zs : list float) (c : string) (N : Z) (g : rng) :
  (- 2 ^ 53 < N < 0)%Z ->
  get_p_value_series rng np_random_permutation word ms N zs c g
  = (Ok (replicate (length ms) (-0)%float), g).
Proof.
  intros H. destruct N as [|n|n]; try lia.
  unfold get_p_value_series. change (Z.to_nat (Z.neg n)) with 0.
  cbn [permutation_trials].
  rewrite map_replicate_float, zero_div_negative by lia. reflexivity.
Qed.

Lemma negative_samples_zero_witness :
  (- 2 ^ 53 < -3 < 0)%Z
  /\ get_p_value_series nat rotating_permutation "cat"
       (get_mean_shift_series [1%float; 2%float; 4%float] "last") (-3)
       [1%float; 2%float; 4%float] "last" 0
     = (Ok [(-0)%float; (-0)%float], 0).
Proof.
  split; [lia|].
  exact (negative_samples_zero nat rotating_permutation "cat"
           (get_mean_shift_series [1%float; 2%float; 4%float] "last")
           [1%float; 2%float; 4%float] "last" (-3) 0 ltac:(lia)).
Defined.

(** ** The gate applied twice *)

Lemma lookup_both {A} (l1 l2 : list A) :
  length l1 = length l2 ->
  (forall j x y, l1 !! j = Some x -> l2 !! j = Some y -> x = y) ->
  l1 = l2.
Proof.
  intros Hlen H. apply list_eq. intros j.
  destruct (l1 !! j) as [x|] eqn:E1, (l2 !! j) as [y|] eqn:E2.
  - f_equal. eauto.
  - apply lookup_lt_Some in E1. apply lookup_ge_None in E2. lia.
  - apply lookup_lt_Some in E2. apply lookup_ge_None in E1. lia.
  - reflexivity.
Qed.

(** X7: the gate is idempotent, and the gate at a threshold followed by
    the gate at a threshold that is at least as high gives the series of
    the second gate alone. *)
Theorem magnitude_gate_twice (zs : list float) (gamma1 gamma2 : float)
    (p p1 : list float) :
  length p <= length zs ->
  magnitude_gate (seq 0 (length p)) zs gamma1 p = Ok p1 ->
  magnitude_gate (seq 0 (length p1)) zs gamma1 p1 = Ok p1
  /\ ((gamma1 <=? gamma2)%float = true ->
      magnitude_gate (seq 0 (length p1)) zs gamma2 p1
      = magnitude_gate (seq 0 (length p)) zs gamma2 p).
Proof.
  intros Hlen H1.
  destruct (magnitude_gate_lookup zs gamma1 p Hlen) as (q&Hq&Hlq&Hkq).
  rewrite H1 in Hq. injection Hq as <-.
  assert (forall gamma,
    (forall z, (z <? gamma1)%float = true -> (z <? gamma)%float = true) ->
    magnitude_gate (seq 0 (length p1)) zs gamma p1
    = magnitude_gate (seq 0 (length p)) zs gamma p) as Hcomp.
  { intros gamma Himp.
    destruct (magnitude_gate_lookup zs gamma p Hlen) as (a&Ha&Hla&Hka).
    destruct (magnitude_gate_lookup zs gamma p1 ltac:(lia)) as (b&Hb&Hlb&Hkb).
    rewrite Ha, Hb. f_equal. apply lookup_both; [lia|].
    intros j x y Hx Hy.
    assert (j < length p) as Hj by (apply lookup_lt_Some in Hx; lia).
    destruct (lookup_lt_is_Some_2 p j Hj) as [v Hv].
    destruct (lookup_lt_is_Some_2 zs j ltac:(lia)) as [z Hz].
    rewrite (Hkb j z _ Hz (Hkq j z v Hz Hv)) in Hx.
    rewrite (Hka j z v Hz Hv) in Hy.
    injection Hx as <-. injection Hy as <-.
    destruct (z <? gamma1)%float eqn:E1; [|reflexivity].
    rewrite (Himp z E1). reflexivity. }
  split.
  - rewrite (Hcomp gamma1) by auto. exact H1.
  - intros Hle. apply Hcomp. intros z Hz. exact (ltb_leb_trans _ _ _ Hz Hle).
Qed.

Lemma magnitude_gate_twice_witness :
  length [0.25%float; 0.75%float] <= length [0.5%float; 3%float; 4%float]
  /\ magnitude_gate (seq 0 2) [0.5%float; 3%float; 4%float] 1%float
       [0.25%float; 0.75%float] = Ok [1%float; 0.75%float]
  /\ (1 <=? 3.5)%float = true
  /\ magnitude_gate (seq 0 2) [0.5%float; 3%float; 4%float] 3.5%float
       [1%float; 0.75%float]
     = magnitude_gate (seq 0 2) [0.5%float; 3%float; 4%float] 3.5%float
         [0.25%float; 0.75%float].
Proof.
  split; [cbn; lia|]. split; [reflexivity|]. split; [reflexivity|].
  exact (proj2 (magnitude_gate_twice [0.5%float; 3%float; 4%float] 1%float
                  3.5%float [0.25%float; 0.75%float] [1%float; 0.75%float]
                  ltac:(cbn; lia) eq_refl) eq_refl).
Defined.

Section PValues.

Variable rng : Type.
Variable np_random_permutation : rng -> list float -> list float * rng.
Hypothesis np_random_permutation_spec :
  forall g l, Permutation (np_random_permutation g l).1 l.

(** X8: for a sample count from 1 to below [2^53] every p-value lies
    between 0 and 1, and there is one p-value per split index. *)
Theorem p_values_in_unit_interval (word : string) (zs : list float)
    (c : string) (N : Z) (g : rng) (p : list float) (g' : rng) :
  (1 <= N < 2 ^ 53)%Z ->
  get_p_value_series rng np_random_permutation word
    (get_mean_shift_series zs c) N zs c g = (Ok p, g') ->
  length p = length zs - 1
  /\ Forall (fun v => (0 <=? v)%float = true /\ (v <=? 1)%float = true) p.
Proof.
  intros HN Hp.
  destruct (get_p_value_series_spec rng np_random_permutation
              np_random_permutation_spec word zs c N g) as (p0&g0&Hp0&Hl&Hlook).
  rewrite Hp in Hp0. injection Hp0 as <- <-.
  split; [rewrite Hl; apply length_get_mean_shift_series|].
  apply Forall_lookup. intros j v Hv.
  assert (j < length (get_mean_shift_series zs c)) as Hj
    by (apply lookup_lt_Some in Hv; lia).
  destruct (lookup_lt_is_Some_2 _ _ Hj) as [m Hm].
  rewrite (Hlook j m Hm) in Hv. injection Hv as <-.
  assert (count_exceeding_draws m j c
            (permutation_draws rng np_random_permutation (Z.to_nat N) zs g)
          <= Z.to_nat N) as Hc.
  { eapply Nat.le_trans; [apply count_exceeding_draws_le|].
    rewrite length_permutation_draws. lia. }
  split; [apply float_count_div_nonneg | apply float_count_div_le_one]; auto.
Qed.

Lemma permutation_trials_state (ms zs : list float) (c : string) :
  length ms = length zs - 1 ->
  forall (n : nat) (p : list float) (g : rng),
    length p = length ms ->
    (permutation_trials rng np_random_permutation n ms zs c p g).2
    = Nat.iter n (fun s => (np_random_permutation s zs).2) g.
Proof.
  intros Hms. induction n as [|n IH]; intros p g Hp; [reflexivity|].
  rewrite Nat.iter_succ_r. cbn [permutation_trials].
  pose proof (np_random_permutation_spec g zs) as Hperm.
  destruct (np_random_permutation g zs) as [d g1]. cbn [fst snd] in *.
  assert (length (get_mean_shift_series d c) = length ms) as Hd.
  { rewrite length_get_mean_shift_series, (Permutation_length Hperm). lia. }
  destruct (count_exceeding_seq ms (get_mean_shift_series d c)
              (length (get_mean_shift_series d c)) 0 p)
    as (p1&Hrun&Hlen1&_); try lia.
  rewrite Hrun. apply IH. lia.
Qed.

(** X9: the permutation test has no early exit: it advances the generator
    by exactly [N] draws, each a permutation of the whole series, whatever
    the values of the series are. *)
Theorem permutation_test_draws (word : string) (zs : list float) (c : string)
    (N : Z) (g : rng) :
  (get_p_value_series rng np_random_permutation word
     (get_mean_shift_series zs c) N zs c g).2
  = Nat.iter (Z.to_nat N) (fun s => (np_random_permutation s zs).2) g.
Proof.
  unfold get_p_value_series.
  pose proof (permutation_trials_state (get_mean_shift_series zs c) zs c
                (length_get_mean_shift_series zs c) (Z.to_nat N)
                (replicate (length (get_mean_shift_series zs c)) 0%float) g
                (length_replicate _ _)) as H.
  destruct (permutation_trials _ _ _ _ _ _ _ _) as [[p|e] g']; exact H.
Qed.

Lemma p_values_without_samples (word : string) (ms zs : list float)
    (c : string) (g : rng) :
  get_p_value_series rng np_random_permutation word ms 0 zs c g
  = (Ok (replicate (length ms) nan), g).
Proof.
  unfold get_p_value_series. change (Z.to_nat 0) with 0.
  cbn [permutation_trials]. rewrite map_replicate_float. reflexivity.
Qed.

(** X10: with a sample count of 0 and a p-value threshold of at most 1
    the detector never reports a change point: every p-value is a NaN or,
    where the gate applies, 1. *)
Theorem detect_without_samples (word : string) (labels : list string)
    (z : list (option float)) (thr gamma : float) (c : string) (g : rng)
    (r : change_point) :
  length labels = length z -> (thr <=? 1)%float = true ->
  (detect_change_point rng np_random_permutation word labels z 0 thr gamma c g).1
  <> Ok (Some r).
Proof.
  intros Hlen Hthr Hd.
  destruct (detect_change_point rng np_random_permutation word labels z 0 thr
              gamma c g) as [res g'] eqn:E. cbn [fst] in Hd. subst res.
  destruct (detect_result_inv rng np_random_permutation
              np_random_permutation_spec word labels z 0 thr gamma c g g' r
              Hlen E)
    as (p&gated&min_p&cp&label&m&zv&pv&_&Hp&Hl&Hgate&Hglen&Hmin&Hlt&Hpv&Epv
        &_&Hz&_).
  rewrite p_values_without_samples in Hp. injection Hp as <- <-.
  destruct (magnitude_gate_lookup (compact z) gamma
              (replicate (length (get_mean_shift_series (compact z) c)) nan))
    as (gated'&Hg'&_&Hk); [lia|].
  rewrite Hgate in Hg'. injection Hg' as <-.
  assert (cp < length (get_mean_shift_series (compact z) c)) as Hcp.
  { apply lookup_lt_Some in Hpv. rewrite Hglen, length_replicate in Hpv. lia. }
  rewrite (Hk cp zv nan Hz (lookup_replicate_2 _ _ _ Hcp)) in Hpv.
  destruct (zv <? gamma)%float; injection Hpv as <-.
  - exact (eqb_ltb_leb_absurd _ _ _ Epv Hlt Hthr).
  - apply eqb_rank in Epv as (a&Ha&_). discriminate.
Qed.

End PValues.

(** ** More comparisons *)

Lemma not_ltb_cases (x y : float) :
  is_nan x = false -> is_nan y = false -> (y <? x)%float = false ->
  (x <? y)%float = true \/ (x =? y)%float = true.
Proof.
  intros Hx Hy H.
  destruct (float_rank x) as [a|] eqn:Ea; [|apply is_nan_rank in Ea; congruence].
  destruct (float_rank y) as [b|] eqn:Eb; [|apply is_nan_rank in Eb; congruence].
  destruct (rank_compare a b) eqn:E.
  - right. apply rank_compare_eq in E. subst. apply eqb_rank. eauto.
  - left. apply ltb_rank. exists a, b. auto.
  - apply rank_compare_gt in E.
    assert ((y <? x)%float = true) by (apply ltb_rank; exists b, a; auto).
    congruence.
Qed.

Lemma ltb_trans (x y z : float) :
  (x <? y)%float = true -> (y <? z)%float = true -> (x <? z)%float = true.
Proof. intros H1 H2. exact (ltb_leb_trans _ _ _ H1 (ltb_leb _ _ H2)). Qed.

Lemma ltb_eqb_trans (x y z : float) :
  (x <? y)%float = true -> (y =? z)%float = true -> (x <? z)%float = true.
Proof. intros H1 H2. exact (ltb_leb_trans _ _ _ H1 (eqb_leb _ _ H2)). Qed.

Lemma eqb_ltb_trans (x y z : float) :
  (x =? y)%float = true -> (y <? z)%float = true -> (x <? z)%float = true.
Proof.
  intros (a&Ha&Hb)%eqb_rank (b&c&Hb'&Hc&Hlt)%ltb_rank.
  apply ltb_rank. exists a, c. repeat split; auto. congruence.
Qed.

Lemma eqb_trans (x y z : float) :
  (x =? y)%float = true -> (y =? z)%float = true -> (x =? z)%float = true.
Proof.
  intros (a&Ha&Hb)%eqb_rank (b&Hb'&Hc)%eqb_rank.
  apply eqb_rank. exists a. split; congruence.
Qed.

Lemma leb_cases (x y : float) :
  (x <=? y)%float = true <->
  (x <? y)%float = true \/ (x =? y)%float = true.
Proof.
  split.
  - intros (a&b&Ha&Hb&Hle)%leb_rank. unfold rank_le in Hle.
    destruct (rank_compare a b) eqn:E; try congruence.
    + right. apply rank_compare_eq in E. subst. apply eqb_rank. eauto.
    + left. apply ltb_rank. exists a, b. auto.
  - intros [H|H]; auto using ltb_leb, eqb_leb.
Qed.

Lemma rank_compare_opp (a b : Z * Z * Z) :
  rank_compare (- a.1.1, - a.1.2, - a.2)%Z (- b.1.1, - b.1.2, - b.2)%Z
  = rank_compare b a.
Proof.
  destruct a as [[a1 a2] a3], b as [[b1 b2] b3]. cbn [fst snd rank_compare].
  rewrite !Z.compare_opp. reflexivity.
Qed.

Lemma float_rank_opp (x : float) :
  float_rank (- x) =
    match float_rank x with
    | Some a => Some (- a.1.1, - a.1.2, - a.2)%Z
    | None => None
    end.
Proof.
  unfold float_rank. rewrite FloatAxioms.opp_spec.
  destruct (Prim2SF x) as [[]|[]| |[] m e]; cbn; try reflexivity.
  rewrite Z.opp_involutive. reflexivity.
Qed.

Lemma ltb_opp (x y : float) : (- x <? - y)%float = (y <? x)%float.
Proof.
  apply eq_true_iff_eq. rewrite !ltb_rank, !float_rank_opp. split.
  - intros (a&b&Ha&Hb&Hlt).
    destruct (float_rank x) as [rx|]; [|discriminate].
    destruct (float_rank y) as [ry|]; [|discriminate].
    injection Ha as <-. injection Hb as <-.
    unfold rank_lt in Hlt. rewrite rank_compare_opp in Hlt. eauto.
  - intros (b&a&Hb&Ha&Hlt). rewrite Ha, Hb.
    eexists _, _. split; [reflexivity|]. split; [reflexivity|].
    unfold rank_lt. rewrite rank_compare_opp. exact Hlt.
Qed.

Lemma eqb_opp (x y : float) : (- x =? - y)%float = (y =? x)%float.
Proof.
  apply eq_true_iff_eq. rewrite !eqb_rank, !float_rank_opp. split.
  - intros (a&Ha&Hb).
    destruct (float_rank x) as [[[x1 x2] x3]|]; [|discriminate].
    destruct (float_rank y) as [[[y1 y2] y3]|]; [|discriminate].
    cbn in Ha, Hb. injection Ha as <-. injection Hb as H1 H2 H3.
    exists (x1, x2, x3). split; [|reflexivity]. repeat f_equal; lia.
  - intros (a&Hy&Hx). rewrite Hx, Hy. eauto.
Qed.

Lemma is_nan_opp (x : float) : is_nan (- x) = is_nan x.
Proof.
  apply eq_true_iff_eq. rewrite !is_nan_rank, float_rank_opp.
  destruct (float_rank x); split; congruence.
Qed.

(** ** The stable sort *)

Lemma py_insert_perm {A} (key : A -> float) (x : A) (l : list A) :
  Permutation (py_insert key x l) (x :: l).
Proof.
  induction l as [|y l IH]; cbn; [reflexivity|].
  destruct (key y <? key x)%float; [|reflexivity].
  rewrite IH. apply perm_swap.
Qed.

Lemma py_sorted_perm {A} (key : A -> float) (l : list A) :
  Permutation (py_sorted key l) l.
Proof.
  induction l as [|x l IH]; cbn; [reflexivity|].
  rewrite py_insert_perm. constructor. exact IH.
Qed.

Lemma py_insert_sorted {A} (key : A -> float) (R : A -> A -> Prop) (x : A)
    (l : list A) :
  is_nan (key x) = false -> Forall (fun y => is_nan (key y) = false) l ->
  Forall (R x) l ->
  StronglySorted (key_then key R) l ->
  StronglySorted (key_then key R) (py_insert key x l).
Proof.
  intros Hx. induction l as [|y l IH]; intros Hnan HR Hs; cbn.
  - repeat constructor.
  - inversion Hnan as [|? ? Hy Hnan']; subst.
    inversion HR as [|? ? HRy HR']; subst.
    inversion Hs as [|? ? Hs' Hall]; subst.
    destruct (key y <? key x)%float eqn:E.
    + constructor; [apply IH; assumption|].
      rewrite (py_insert_perm key x l). constructor; [left; exact E|exact Hall].
    + assert (key_then key R x y) as Hxy.
      { destruct (not_ltb_cases _ _ Hx Hy E) as [H|H]; [left|right]; auto. }
      constructor; [exact Hs|]. constructor; [exact Hxy|].
      rewrite Forall_forall in *. intros z Hz.
      specialize (Hall z Hz). specialize (HR' z Hz).
      destruct Hxy as [H1|[H1 _]], Hall as [H2|[H2 _]].
      * left. eauto using ltb_trans.
      * left. eauto using ltb_eqb_trans.
      * left. eauto using eqb_ltb_trans.
      * right. split; [eauto using eqb_trans | exact HR'].
Qed.

Lemma py_sorted_sorted {A} (key : A -> float) (R : A -> A -> Prop) (l : list A) :
  Forall (fun y => is_nan (key y) = false) l ->
  StronglySorted R l ->
  StronglySorted (key_then key R) (py_sorted key l).
Proof.
  induction l as [|x l IH]; intros Hnan Hs; cbn; [constructor|].
  inversion Hnan; subst. inversion Hs; subst.
  apply py_insert_sorted; auto.
  - rewrite (py_sorted_perm key l). assumption.
  - rewrite (py_sorted_perm key l). assumption.
Qed.

Lemma StronglySorted_True {A} (l : list A) :
  StronglySorted (fun _ _ => True) l.
Proof.
  induction l; constructor; auto. apply Forall_forall. auto.
Qed.

Lemma StronglySorted_impl {A} (R S : A -> A -> Prop) (l : list A) :
  (forall a b, R a b -> S a b) -> StronglySorted R l -> StronglySorted S l.
Proof.
  intros H. induction 1 as [|x l Hs IH Hall]; constructor; auto.
  eapply Forall_impl; [exact Hall|]. auto.
Qed.

(** X11: whatever the rank key, the ranking is a rearrangement of the
    results: no row is lost and none is duplicated. *)
Theorem rank_results_permutation (rank_key : string)
    (results : list change_point) :
  Permutation (rank_results rank_key results) results.
Proof.
  unfold rank_results.
  destruct (String.eqb rank_key "z_score"); [apply py_sorted_perm|].
  destruct (String.eqb rank_key "mean_shift"); [apply py_sorted_perm|].
  rewrite !py_sorted_perm. reflexivity.
Qed.

Lemma descending_key (f : change_point -> float) (results : list change_point) :
  Forall (fun r => is_nan (f r) = false) results ->
  StronglySorted (fun a b => (f b <=? f a)%float = true)
    (py_sorted (fun x => (- f x)%float) results).
Proof.
  intros Hnan.
  apply (StronglySorted_impl
           (key_then (fun x => (- f x)%float) (fun _ _ => True))).
  - intros a b [H|[H _]].
    + rewrite ltb_opp in H. apply ltb_leb. exact H.
    + rewrite eqb_opp in H. apply eqb_leb. exact H.
  - apply py_sorted_sorted; [|apply StronglySorted_True].
    eapply Forall_impl; [exact Hnan|]. intros r Hr. cbn beta.
    rewrite is_nan_opp. exact Hr.
Qed.

(** X12: ranked by z-score the rows have descending z-scores, and ranked
    by mean-shift descending mean-shifts, when the key is a NaN in no
    row. *)
Theorem rank_results_descending (results : list change_point) :
  (Forall (fun r => is_nan (cp_z_score r) = false) results ->
   StronglySorted (fun a b => (cp_z_score b <=? cp_z_score a)%float = true)
     (rank_results "z_score" results))
  /\ (Forall (fun r => is_nan (cp_mean_shift r) = false) results ->
      StronglySorted
        (fun a b => (cp_mean_shift b <=? cp_mean_shift a)%float = true)
        (rank_results "mean_shift" results)).
Proof.
  split; intros H; apply descending_key; exact H.
Qed.

(** X13: ranked by p-value the rows have ascending p-values, and rows
    with equal p-values have descending mean-shifts, when neither is a NaN
    in any row. *)
Theorem rank_results_p_value (results : list change_point) :
  Forall (fun r => is_nan (cp_p_value r) = false) results ->
  Forall (fun r => is_nan (cp_mean_shift r) = false) results ->
  StronglySorted
    (fun a b =>
       (cp_p_value a <? cp_p_value b)%float = true
       \/ ((cp_p_value a =? cp_p_value b)%float = true
           /\ (cp_mean_shift b <=? cp_mean_shift a)%float = true))
    (rank_results "p_value" results).
Proof.
  intros Hp Hm. change (rank_results "p_value" results)
    with (py_sorted cp_p_value
            (py_sorted (fun x => (- cp_mean_shift x)%float) results)).
  apply (py_sorted_sorted cp_p_value
           (fun a b => (cp_mean_shift b <=? cp_mean_shift a)%float = true)).
  - rewrite py_sorted_perm. exact Hp.
  - apply descending_key. exact Hm.
Qed.

(** ** The analysis loop and the report *)

Lemma length_z_score_series_of
    (dicts : list (string * list (string * option float)))
    (labels : list string) (word : string) :
  forall zs, z_score_series_of dicts labels word = Ok zs ->
  length zs = length labels.
Proof.
  induction labels as [|l labels IH]; intros zs H; cbn in H.
  - injection H as <-. reflexivity.
  - destruct (py_getitem dicts l) as [d|]; [|discriminate]. cbn [bind] in H.
    destruct (py_getitem d word) as [v|]; [|discriminate]. cbn [bind] in H.
    destruct (z_score_series_of dicts labels word) as [vs|]; [|discriminate].
    cbn [bind] in H. injection H as <-. cbn. f_equal. apply IH. reflexivity.
Qed.

Lemma lookup_z_score_series_of
    (dicts : list (string * list (string * option float)))
    (labels : list string) (word : string) :
  forall zs i l v,
    z_score_series_of dicts labels word = Ok zs ->
    labels !! i = Some l -> zs !! i = Some v ->
    exists d, py_getitem dicts l = Ok d /\ py_getitem d word = Ok v.
Proof.
  induction labels as [|l0 labels IH]; intros zs i l v H Hl Hv; [discriminate|].
  cbn in H.
  destruct (py_getitem dicts l0) as [d|] eqn:Ed; [|discriminate]. cbn [bind] in H.
  destruct (py_getitem d word) as [v0|] eqn:Ev; [|discriminate]. cbn [bind] in H.
  destruct (z_score_series_of dicts labels word) as [vs|]; [|discriminate].
  cbn [bind] in H. injection H as <-.
  destruct i as [|i]; cbn in Hl, Hv.
  - injection Hl as <-. injection Hv as <-. eauto.
  - eapply IH; eauto.
Qed.

Lemma py_slice_to_take {A} (n : Z) (l : list A) :
  exists k, py_slice_to n l = take k l.
Proof. unfold py_slice_to. destruct (n <? 0)%Z; eauto. Qed.

Lemma length_py_slice_to {A} (n : Z) (l : list A) :
  (0 <= n)%Z -> length (py_slice_to n l) <= Z.to_nat n.
Proof.
  intros H. unfold py_slice_to.
  destruct (n <? 0)%Z eqn:E; [lia|]. rewrite length_take. lia.
Qed.

Lemma rank_results_perm (rank_key : string) (results : list change_point) :
  Permutation (rank_results rank_key results) results.
Proof.
  unfold rank_results.
  destruct (String.eqb rank_key "z_score"); [apply py_sorted_perm|].
  destruct (String.eqb rank_key "mean_shift"); [apply py_sorted_perm|].
  etransitivity; apply py_sorted_perm.
Qed.

Section Analysis.

Variable rng : Type.
Variable np_random_permutation : rng -> list float -> list float * rng.
Hypothesis np_random_permutation_spec :
  forall g l, Permutation (np_random_permutation g l).1 l.

Local Abbreviation detect := (detect_change_point rng np_random_permutation).
Local Abbreviation collect := (collect_change_points rng np_random_permutation).

(** Every collected result is the detector's result for its word. *)
Lemma collect_change_points_inv
    (dicts : list (string * list (string * option float)))
    (labels : list string) (N : Z) (thr gamma : float) (c : string) :
  forall (vocab : list string) (g g' : rng) (results : list change_point),
    collect vocab dicts labels N thr gamma c g = (Ok results, g') ->
    sublist (map cp_word results) vocab
    /\ Forall (fun r => exists zs g1 g2,
                 z_score_series_of dicts labels (cp_word r) = Ok zs
                 /\ detect (cp_word r) labels zs N thr gamma c g1
                    = (Ok (Some r), g2)) results.
Proof.
  induction vocab as [|w vocab IH]; intros g g' results H; cbn in H.
  - injection H as <- <-. split; constructor.
  - destruct (z_score_series_of dicts labels w) as [zs|] eqn:Ez; [|discriminate].
    destruct (detect w labels zs N thr gamma c g) as [[cp|e] g1] eqn:Ed;
      [|discriminate].
    destruct (collect vocab dicts labels N thr gamma c g1) as [[rs|e] g2] eqn:Ec;
      [|discriminate].
    injection H as <- <-.
    destruct (IH g1 g2 rs Ec) as [Hsub Hall].
    destruct cp as [r|].
    + assert (cp_word r = w) as Hw.
      { destruct (detect_result_inv rng np_random_permutation
                    np_random_permutation_spec w labels zs N thr gamma c g g1 r
                    (eq_sym (length_z_score_series_of dicts labels w zs Ez)) Ed)
          as (p&gated&min_p&k&label&m&zv&pv&Hr&_).
        rewrite Hr. reflexivity. }
      split.
      * cbn [map]. rewrite Hw. constructor. exact Hsub.
      * constructor; [|exact Hall]. exists zs, g, g1. rewrite Hw. auto.
    + split; [constructor; exact Hsub|exact Hall].
Qed.

Lemma analyse_inv (vocab : list string)
    (dicts : list (string * list (string * option float)))
    (labels : list string) (o : options) (g g' : rng)
    (report : list change_point) :
  analyse rng np_random_permutation vocab dicts labels o g = (Ok report, g') ->
  exists results,
    collect vocab dicts labels (n_samples o) (p_value_threshold o)
      (gamma_threshold o) (compare_to o) g = (Ok results, g')
    /\ report = py_slice_to (n_best o) (rank_results (rank_by o) results).
Proof.
  unfold analyse. intros H.
  destruct (collect vocab dicts labels (n_samples o) (p_value_threshold o)
              (gamma_threshold o) (compare_to o) g) as [[rs|e] g1];
    [|discriminate].
  injection H as <- <-. eauto.
Qed.

Lemma analyse_words (vocab : list string)
    (dicts : list (string * list (string * option float)))
    (labels : list string) (o : options) (g g' : rng)
    (report : list change_point) :
  analyse rng np_random_permutation vocab dicts labels o g = (Ok report, g') ->
  map cp_word report ⊆+ vocab.
Proof.
  intros H. destruct (analyse_inv _ _ _ _ _ _ _ H) as (results&Hc&->).
  destruct (collect_change_points_inv _ _ _ _ _ _ _ _ _ _ Hc) as [Hsub _].
  destruct (py_slice_to_take (n_best o) (rank_results (rank_by o) results))
    as [k ->].
  transitivity (map cp_word (rank_results (rank_by o) results)).
  - apply sublist_submseteq, fmap_sublist, sublist_take.
  - transitivity (map cp_word results).
    + apply Permutation_submseteq, fmap_Permutation, rank_results_perm.
    + apply sublist_submseteq, Hsub.
Qed.

(** X14: the report has at most one row per vocabulary word and at most
    [n_best] rows when [n_best] is not negative; every row is about a
    vocabulary word, and no word of a duplicate-free vocabulary has two
    rows. *)
Theorem analyse_report_shape (vocab : list string)
    (dicts : list (string * list (string * option float)))
    (labels : list string) (o : options) (g g' : rng)
    (report : list change_point) :
  analyse rng np_random_permutation vocab dicts labels o g = (Ok report, g') ->
  length report <= length vocab
  /\ ((0 <= n_best o)%Z -> length report <= Z.to_nat (n_best o))
  /\ (forall r, r ∈ report -> cp_word r ∈ vocab)
  /\ (NoDup vocab -> NoDup (map cp_word report)).
Proof.
  intros H. pose proof (analyse_words _ _ _ _ _ _ _ H) as Hsub.
  split; [|split; [|split]].
  - rewrite <- (length_map cp_word). apply submseteq_length, Hsub.
  - intros Hn. destruct (analyse_inv _ _ _ _ _ _ _ H) as (results&_&->).
    apply length_py_slice_to, Hn.
  - intros r Hr. eapply elem_of_submseteq; [|exact Hsub].
    apply list_elem_of_fmap. eauto.
  - intros Hnd. apply submseteq_sublist_r in Hsub as (k&Hperm&Hk).
    rewrite Hperm. eapply sublist_NoDup; eauto.
Qed.

(** X15: every row of the report has a p-value below the threshold, and its
    z-score is the entry that the z-score dictionary of the row's time
    slice holds for the row's word; the time slice is one of the labels
    used.  For a threshold of at most 1 the z-score is not below the gamma
    threshold. *)
Theorem analyse_report_rows (vocab : list string)
    (dicts : list (string * list (string * option float)))
    (labels : list string) (o : options) (g g' : rng)
    (report : list change_point) (w l : string) (p m zv : float) :
  analyse rng np_random_permutation vocab dicts labels o g = (Ok report, g') ->
  (w, l, p, m, zv) ∈ report ->
  (p <? p_value_threshold o)%float = true
  /\ l ∈ labels
  /\ (exists d, py_getitem dicts l = Ok d /\ py_getitem d w = Ok (Some zv))
  /\ ((p_value_threshold o <=? 1)%float = true ->
      (zv <? gamma_threshold o)%float = false).
Proof.
  intros H Hr. destruct (analyse_inv _ _ _ _ _ _ _ H) as (results&Hc&->).
  destruct (collect_change_points_inv _ _ _ _ _ _ _ _ _ _ Hc) as [_ Hall].
  destruct (py_slice_to_take (n_best o) (rank_results (rank_by o) results))
    as [k Hk].
  rewrite Hk in Hr. apply elem_of_take in Hr as (i&Hr&_).
  apply list_elem_of_lookup_2 in Hr.
  rewrite (rank_results_perm (rank_by o) results) in Hr.
  rewrite Forall_forall in Hall.
  destruct (Hall _ Hr) as (zs&g1&g2&Hz&Hd). cbn [cp_word] in Hz, Hd.
  pose proof (eq_sym (length_z_score_series_of dicts labels w zs Hz)) as Hlen.
  destruct (detect_result_inv rng np_random_permutation
              np_random_permutation_spec w labels zs _ _ _ _ g1 g2 _ Hlen Hd)
    as (p0&gated&min_p&cp&label&m0&zv0&pv&Hrow&_&_&_&_&_&Hp&_&_&_&_&_
        &(i0&Hzi&Hli)&Hgate).
  injection Hrow as -> -> -> ->.
  split; [exact Hp|]. split; [eapply list_elem_of_lookup_2; eauto|].
  split; [eapply lookup_z_score_series_of; eauto|exact Hgate].
Qed.

Lemma collect_change_points_raises
    (dicts : list (string * list (string * option float)))
    (labels : list string) (N : Z) (thr gamma : float) (c : string) :
  forall (vocab : list string) (g : rng) (e : exn),
    (forall w, w ∈ vocab ->
       exists zs, z_score_series_of dicts labels w = Ok zs) ->
    (collect vocab dicts labels N thr gamma c g).1 = Raise e
    <-> e = UnboundLocalError
        /\ exists w zs, w ∈ vocab /\ z_score_series_of dicts labels w = Ok zs
                        /\ length (compact zs) = 1.
Proof.
  induction vocab as [|w vocab IH]; intros g e Hok.
  - cbn. split; [discriminate|]. intros (_&w&zs&Hw&_).
    apply elem_of_nil in Hw. contradiction.
  - destruct (Hok w ltac:(left)) as [zs Hz].
    pose proof (eq_sym (length_z_score_series_of dicts labels w zs Hz)) as Hlen.
    assert (forall w', w' ∈ vocab ->
              exists zs', z_score_series_of dicts labels w' = Ok zs') as Hok'
      by (intros w' Hw'; apply Hok; right; exact Hw').
    cbn [collect_change_points]. rewrite Hz.
    destruct (detect w labels zs N thr gamma c g) as [[cp|e0] g1] eqn:Ed.
    + specialize (IH g1 e Hok').
      destruct (collect vocab dicts labels N thr gamma c g1) as [[rs|e1] g2];
        cbn [fst] in *.
      * split; [discriminate|].
        intros (->&w'&zs'&Hw'&Hz'&H1).
        apply elem_of_cons in Hw' as [->|Hw'].
        -- rewrite Hz in Hz'. injection Hz' as <-.
           pose proof (detect_one_kept rng np_random_permutation
                         np_random_permutation_spec w labels zs N thr gamma c g
                         Hlen H1) as Hone.
           rewrite Ed in Hone. discriminate.
        -- apply proj2 in IH. exfalso.
           assert (Ok rs = Raise UnboundLocalError) as Habs
             by (apply IH; eauto 6).
           discriminate.
      * split.
        -- intros He. apply proj1 in IH.
           destruct (IH He) as (->&w'&zs'&Hw'&Hz'&H1).
           split; [reflexivity|]. exists w', zs'. split; [right; exact Hw'|auto].
        -- intros (->&w'&zs'&Hw'&Hz'&H1).
           apply elem_of_cons in Hw' as [->|Hw'].
           ++ rewrite Hz in Hz'. injection Hz' as <-.
              pose proof (detect_one_kept rng np_random_permutation
                            np_random_permutation_spec w labels zs N thr gamma c
                            g Hlen H1) as Hone.
              rewrite Ed in Hone. discriminate.
           ++ apply IH. eauto 6.
    + cbn [fst].
      pose proof (detect_raises_inv rng np_random_permutation
                    np_random_permutation_spec w labels zs N thr gamma c g e0
                    Hlen) as Hinv.
      rewrite Ed in Hinv. destruct (Hinv eq_refl) as [H1 ->].
      split.
      * intros [= <-]. split; [reflexivity|]. exists w, zs.
        split; [left|auto].
      * intros [-> _]. reflexivity.
Qed.

(** X16: when every word has an entry in the z-score dictionary of every
    label used, the analysis raises exactly when some vocabulary word has
    exactly one usable z-score, and the exception is [UnboundLocalError]:
    one such word is enough to lose the whole report. *)
Theorem analyse_raises_iff (vocab : list string)
    (dicts : list (string * list (string * option float)))
    (labels : list string) (o : options) (g : rng) (e : exn) :
  (forall w, w ∈ vocab -> exists zs, z_score_series_of dicts labels w = Ok zs) ->
  (analyse rng np_random_permutation vocab dicts labels o g).1 = Raise e
  <-> e = UnboundLocalError
      /\ exists w zs, w ∈ vocab /\ z_score_series_of dicts labels w = Ok zs
                      /\ length (compact zs) = 1.
Proof.
  intros Hok.
  rewrite <- (collect_change_points_raises dicts labels (n_samples o)
                (p_value_threshold o) (gamma_threshold o) (compare_to o) vocab g
                e Hok).
  unfold analyse.
  destruct (collect vocab dicts labels (n_samples o) (p_value_threshold o)
              (gamma_threshold o) (compare_to o) g) as [[rs|e1] g1]; cbn [fst].
  - split; discriminate.
  - reflexivity.
Qed.

End Analysis.

(** ** The enumeration of the time slices *)

Lemma py_range_sorted (a b : Z) : StronglySorted Z.lt (py_range a b).
Proof.
  unfold py_range. generalize (Z.to_nat (b - a)) as n. generalize 0 as s.
  intros s n. revert s. induction n as [|n IH]; intros s; cbn; constructor.
  - apply IH.
  - apply List.Forall_forall. intros x Hx. apply in_map_iff in Hx as (k&<-&Hk).
    apply in_seq in Hk. lia.
Qed.

Lemma filter_none {A} (f : A -> bool) (l : list A) :
  List.Forall (fun x => f x = false) l -> List.filter f l = [].
Proof.
  induction 1 as [|x l Hx _ IH]; cbn; [reflexivity|]. rewrite Hx. exact IH.
Qed.

Lemma filter_map_pair {A B} (f : A * B -> bool) (a : A) (l : list B) :
  List.filter f (map (fun b => (a, b)) l)
  = map (fun b => (a, b)) (List.filter (fun b => f (a, b)) l).
Proof.
  induction l as [|b l IH]; cbn; [reflexivity|].
  destruct (f (a, b)); cbn; rewrite IH; reflexivity.
Qed.

Section Enumeration.

Variable isfile : string -> bool.
Variable models_rootdir : string.
Variables vector_size window_size min_count no_of_iter : Z.
Variables first_year first_month last_year last_month : Z.

Local Abbreviation path_of :=
  (model_path_of models_rootdir vector_size window_size min_count no_of_iter).
Local Abbreviation window :=
  (in_window first_year first_month last_year last_month).
Local Abbreviation months_of :=
  (month_loop isfile models_rootdir vector_size window_size min_count
     no_of_iter first_year first_month last_year last_month).
Local Abbreviation years_of :=
  (year_loop isfile models_rootdir vector_size window_size min_count
     no_of_iter first_year first_month last_year last_month).

Local Abbreviation selected :=
  (selected isfile models_rootdir vector_size window_size min_count no_of_iter
     first_year first_month last_year last_month).

Lemma month_loop_spec (year : Z) :
  (first_year <= year <= last_year)%Z ->
  forall months, StronglySorted Z.lt months ->
  forall model_paths time_slice_labels,
    months_of months year model_paths time_slice_labels
    = (model_paths
       ++ map (fun s => path_of s.1 s.2)
            (List.filter selected (map (fun month => (year, month)) months)),
       time_slice_labels
       ++ map (fun s => time_slice_of s.1 s.2)
            (List.filter selected (map (fun month => (year, month)) months))).
Proof.
  intros Hy. induction 1 as [|month rest Hs IH Hall];
    intros model_paths time_slice_labels.
  - cbn. rewrite !app_nil_r. reflexivity.
  - cbn [month_loop map List.filter].
    assert (selected (year, month)
            = negb ((year =? first_year)%Z && (month <? first_month)%Z)
              && negb ((year =? last_year)%Z && (month >? last_month)%Z)
              && isfile (path_of year month)) as ->.
    { unfold selected. cbn [in_window fst snd].
      assert ((first_year <=? year)%Z && (year <=? last_year)%Z = true) as ->
        by (apply andb_true_iff; split; apply Z.leb_le; lia).
      reflexivity. }
    destruct ((year =? first_year)%Z && (month <? first_month)%Z) eqn:E1;
      cbn [negb andb]; [apply IH|].
    destruct ((year =? last_year)%Z && (month >? last_month)%Z) eqn:E2;
      cbn [negb andb].
    + rewrite filter_none; [cbn; rewrite !app_nil_r; reflexivity|].
      apply List.Forall_forall. intros [y m] Hin.
      apply in_map_iff in Hin as (m'&[= <- <-]&Hm').
      rewrite List.Forall_forall in Hall. specialize (Hall m' Hm').
      apply andb_true_iff in E2 as [Ey Em].
      unfold selected. cbn [in_window]. rewrite Ey.
      assert ((m' >? last_month)%Z = true) as -> by lia.
      cbn. rewrite !andb_false_r. reflexivity.
    + destruct (isfile (path_of year month)); [|apply IH].
      rewrite IH. cbn [map fst snd]. rewrite <- !app_assoc. reflexivity.
Qed.

Lemma year_loop_spec (months_sorted : StronglySorted Z.lt (py_range 1 13)) :
  forall years, StronglySorted Z.lt years ->
  forall model_paths time_slice_labels,
    years_of years model_paths time_slice_labels
    = (model_paths
       ++ map (fun s => path_of s.1 s.2)
            (List.filter selected
               (flat_map (fun year => map (fun month => (year, month))
                                        (py_range 1 13)) years)),
       time_slice_labels
       ++ map (fun s => time_slice_of s.1 s.2)
            (List.filter selected
               (flat_map (fun year => map (fun month => (year, month))
                                        (py_range 1 13)) years))).
Proof.
  induction 1 as [|year rest Hs IH Hall]; intros model_paths time_slice_labels.
  - cbn. rewrite !app_nil_r. reflexivity.
  - cbn [year_loop flat_map].
    destruct (year <? first_year)%Z eqn:E1.
    { rewrite List.filter_app.
      rewrite (filter_none selected (map _ (py_range 1 13))); [apply IH|].
      apply List.Forall_forall. intros [y m] Hin.
      apply in_map_iff in Hin as (m'&[= <- <-]&_).
      unfold selected. cbn [in_window].
      assert ((first_year <=? year)%Z = false) as -> by lia. reflexivity. }
    destruct (year >? last_year)%Z eqn:E2.
    { rewrite filter_none; [cbn; rewrite !app_nil_r; reflexivity|].
      apply List.Forall_forall. intros [y m] Hin.
      assert ((y <=? last_year)%Z = false) as Hy.
      { apply in_app_iff in Hin as [Hin|Hin].
        - apply in_map_iff in Hin as (m'&[= <- <-]&_). lia.
        - apply in_flat_map in Hin as (y'&Hy'&Hin).
          apply in_map_iff in Hin as (m'&[= <- <-]&_).
          rewrite List.Forall_forall in Hall. specialize (Hall y' Hy'). lia. }
      unfold selected. cbn [in_window]. rewrite Hy, andb_false_r. reflexivity. }
    rewrite (month_loop_spec year ltac:(lia) _ months_sorted).
    rewrite IH, List.filter_app, !map_app, <- !app_assoc. reflexivity.
Qed.

Lemma enumerate_time_slices_eq :
  enumerate_time_slices isfile models_rootdir vector_size window_size min_count
    no_of_iter first_year first_month last_year last_month
  = (map (fun s => path_of s.1 s.2) (List.filter selected calendar),
     map (fun s => time_slice_of s.1 s.2) (List.filter selected calendar)).
Proof.
  unfold enumerate_time_slices.
  rewrite (year_loop_spec (py_range_sorted 1 13) _ (py_range_sorted 2011 2019)).
  reflexivity.
Qed.

End Enumeration.

Lemma calendar_labels_NoDup :
  NoDup (map (fun s => time_slice_of s.1 s.2) calendar).
Proof. apply (bool_decide_unpack _). vm_compute. exact I. Qed.

Lemma sublist_filter {A} (f : A -> bool) (l : list A) :
  sublist (List.filter f l) l.
Proof.
  induction l as [|x l IH]; cbn; [constructor|].
  destruct (f x); constructor; exact IH.
Qed.

Lemma calendar_elem (year month : Z) :
  (year, month) ∈ calendar
  <-> (2011 <= year <= 2018)%Z /\ (1 <= month <= 12)%Z.
Proof.
  unfold calendar. rewrite list_elem_of_In, in_flat_map. split.
  - intros (y&Hy&Hm). apply in_map_iff in Hm as (m&[= <- <-]&Hm).
    unfold py_range in Hy, Hm.
    apply in_map_iff in Hy as (k&<-&Hk). apply in_map_iff in Hm as (j&<-&Hj).
    apply in_seq in Hk, Hj. cbn in Hk, Hj. lia.
  - intros [Hy Hm]. exists year. split.
    + unfold py_range. apply in_map_iff. exists (Z.to_nat (year - 2011)).
      split; [lia|]. apply in_seq. cbn. lia.
    + apply in_map_iff. exists month. split; [reflexivity|].
      unfold py_range. apply in_map_iff. exists (Z.to_nat (month - 1)).
      split; [lia|]. apply in_seq. cbn. lia.
Qed.

(** X17: the two nested loops with their [continue] and [break] list, in
    the order of the calendar, the months of 2011 to 2018 from the first to
    the last time slice whose model file exists; the model paths and the
    labels are built in parallel.  A first time slice before 2011 or a last
    one after 2018 is not an error: the months outside these years are
    never listed. *)
Theorem enumerate_time_slices_spec (isfile : string -> bool)
    (models_rootdir : string)
    (vector_size window_size min_count no_of_iter : Z)
    (first_year first_month last_year last_month : Z) :
  let slices :=
    List.filter
      (selected isfile models_rootdir vector_size window_size min_count
         no_of_iter first_year first_month last_year last_month) calendar in
  enumerate_time_slices isfile models_rootdir vector_size window_size min_count
    no_of_iter first_year first_month last_year last_month
  = (map (fun s => model_path_of models_rootdir vector_size window_size
                     min_count no_of_iter s.1 s.2) slices,
     map (fun s => time_slice_of s.1 s.2) slices)
  /\ forall year month,
       (year, month) ∈ slices
       <-> (2011 <= year <= 2018)%Z /\ (1 <= month <= 12)%Z
           /\ ((first_year < year)%Z
               \/ (year = first_year /\ first_month <= month)%Z)
           /\ ((year < last_year)%Z
               \/ (year = last_year /\ month <= last_month)%Z)
           /\ isfile (model_path_of models_rootdir vector_size window_size
                        min_count no_of_iter year month) = true.
Proof.
  intros slices. split; [apply enumerate_time_slices_eq|].
  intros year month. subst slices.
  rewrite list_elem_of_In, filter_In, <- list_elem_of_In, calendar_elem.
  unfold selected. cbn [in_window fst snd].
  rewrite !andb_true_iff, !negb_true_iff, !andb_false_iff.
  rewrite !Z.leb_le, !Z.eqb_neq, Z.ltb_ge, Z.gtb_ltb, Z.ltb_ge.
  generalize (isfile (model_path_of models_rootdir vector_size window_size
                        min_count no_of_iter year month) = true).
  intros P. intuition lia.
Qed.

(** X18: the labels of a run are pairwise distinct and the two lists have
    the same length, whatever files exist. *)
Theorem enumerate_time_slices_labels (isfile : string -> bool)
    (models_rootdir : string)
    (vector_size window_size min_count no_of_iter : Z)
    (first_year first_month last_year last_month : Z) :
  let '(model_paths, time_slice_labels) :=
    enumerate_time_slices isfile models_rootdir vector_size window_size
      min_count no_of_iter first_year first_month last_year last_month in
  NoDup time_slice_labels /\ length time_slice_labels = length model_paths.
Proof.
  rewrite enumerate_time_slices_eq. split.
  - eapply sublist_NoDup;
      first [exact calendar_labels_NoDup | apply fmap_sublist, sublist_filter].
  - rewrite !length_map. reflexivity.
Qed.

(** ** The snapshot loop *)

Lemma py_getitem_setitem_eq {A} (d : list (string * A)) (k : string) (v : A) :
  py_getitem (py_setitem d k v) k = Ok v.
Proof.
  induction d as [|[k' v'] d IH]; cbn.
  - rewrite String.eqb_refl. reflexivity.
  - destruct (String.eqb k' k) eqn:E; cbn; rewrite E; [reflexivity|exact IH].
Qed.

Lemma py_getitem_setitem_ne {A} (d : list (string * A)) (k k0 : string) (v : A) :
  k <> k0 -> py_getitem (py_setitem d k v) k0 = py_getitem d k0.
Proof.
  intros Hne. induction d as [|[k' v'] d IH]; cbn.
  - apply String.eqb_neq in Hne. rewrite Hne. reflexivity.
  - destruct (String.eqb k' k) eqn:E; cbn.
    + apply String.eqb_eq in E. subst k'.
      apply String.eqb_neq in Hne. rewrite Hne. reflexivity.
    + rewrite IH. reflexivity.
Qed.

Lemma py_setitem_fresh {A} (d : list (string * A)) (k : string) (v : A) :
  k ∉ map fst d -> py_setitem d k v = d ++ [(k, v)].
Proof.
  induction d as [|[k' v'] d IH]; intros Hk; cbn; [reflexivity|].
  cbn in Hk. apply not_elem_of_cons in Hk as [Hne Hk].
  assert (String.eqb k' k = false) as -> by (apply String.eqb_neq; congruence).
  rewrite IH by exact Hk. reflexivity.
Qed.

Lemma py_getitem_map_Some {A B} (f : string -> B) (g : string * B -> string * A)
    (l : list string) (w : string) :
  (forall x, (g (x, f x)).1 = x) ->
  w ∈ l -> exists v, py_getitem (map (fun x => g (x, f x)) l) w = Ok v.
Proof.
  intros Hg. induction l as [|x l IH]; intros Hw.
  - apply elem_of_nil in Hw. contradiction.
  - cbn. specialize (Hg x). destruct (g (x, f x)) as [k v]. cbn in Hg. subst k.
    destruct (String.eqb x w) eqn:E; [eauto|].
    apply IH. apply elem_of_cons in Hw as [->|Hw]; [|exact Hw].
    rewrite String.eqb_refl in E. discriminate.
Qed.

Lemma py_getitem_keys {A} (d : list (string * A)) (w : string) :
  w ∈ map fst d -> exists v, py_getitem d w = Ok v.
Proof.
  induction d as [|[k v] d IH]; cbn; intros Hw.
  - apply elem_of_nil in Hw. contradiction.
  - destruct (String.eqb k w) eqn:E; [eauto|].
    apply IH. apply elem_of_cons in Hw as [->|Hw]; [|exact Hw].
    rewrite String.eqb_refl in E. discriminate.
Qed.

Lemma keys_get_z_score_dict (d : list (string * option float)) :
  map fst (get_z_score_dict d) = map fst d.
Proof.
  unfold get_z_score_dict. rewrite map_map. apply map_ext.
  intros [w [x|]]; [|reflexivity]. destruct (float_truthy x); reflexivity.
Qed.

Lemma keys_get_dist_dict (keyed_vectors : Type)
    (contains : keyed_vectors -> string -> bool)
    (cosine : keyed_vectors -> keyed_vectors -> string -> float)
    (measure : keyed_vectors -> keyed_vectors -> string -> Z -> float)
    (align : keyed_vectors -> keyed_vectors -> keyed_vectors)
    (m a c : keyed_vectors) (vocab : list string) (dm : string) (k : Z)
    (tm : string) :
  map fst (get_dist_dict keyed_vectors contains cosine measure align m a c vocab
             dm k tm) = vocab.
Proof.
  unfold get_dist_dict. rewrite map_map. rewrite <- (map_id vocab) at 2.
  apply map_ext. intros w.
  destruct (_ && _); [destruct (String.eqb dm "cosine")|]; reflexivity.
Qed.

Lemma py_index_int_first {A} (l : list A) (x : A) :
  py_index_int (x :: l) 0 = Ok x.
Proof. reflexivity. Qed.

Lemma py_index_int_elem {A} (l : list A) (i : Z) :
  l <> [] -> (-1 <= i < Z.of_nat (length l))%Z ->
  exists x, py_index_int l i = Ok x /\ x ∈ l.
Proof.
  intros Hne Hi. unfold py_index_int, py_index.
  assert (0 < length l) by (destruct l; [congruence|cbn; lia]).
  destruct (i <? 0)%Z eqn:E.
  - destruct (Z.of_nat (length l) + i <? 0)%Z eqn:E2; [lia|].
    destruct (lookup_lt_is_Some_2 l (Z.to_nat (Z.of_nat (length l) + i))
                ltac:(lia)) as [x Hx].
    rewrite Hx. eauto using list_elem_of_lookup_2.
  - destruct (lookup_lt_is_Some_2 l (Z.to_nat i) ltac:(lia)) as [x Hx].
    rewrite Hx. eauto using list_elem_of_lookup_2.
Qed.

Section SnapshotLoop.

Variable keyed_vectors : Type.
Variable contains : keyed_vectors -> string -> bool.
Variable cosine : keyed_vectors -> keyed_vectors -> string -> float.
Variable measure_semantic_shift_by_neighborhood :
  keyed_vectors -> keyed_vectors -> string -> Z -> float.
Variable smart_procrustes_align_gensim :
  keyed_vectors -> keyed_vectors -> keyed_vectors.
Variable load_model : string -> result keyed_vectors.

Local Abbreviation loop :=
  (snapshot_loop keyed_vectors contains cosine
     measure_semantic_shift_by_neighborhood smart_procrustes_align_gensim
     load_model).
Local Abbreviation dist_dict_of_paths :=
  (get_dist_dict_of_paths keyed_vectors contains cosine
     measure_semantic_shift_by_neighborhood smart_procrustes_align_gensim
     load_model).

Lemma reference_model_path_elem (model_paths : list string) (policy : string)
    (i : nat) :
  i < length model_paths ->
  exists p, reference_model_path model_paths policy i = Ok p /\ p ∈ model_paths.
Proof.
  intros Hi. assert (model_paths <> []) as Hne
    by (destruct model_paths; [cbn in Hi; lia|discriminate]).
  unfold reference_model_path.
  destruct (String.eqb policy "first"); [|destruct (String.eqb policy "last")];
    apply py_index_int_elem; try exact Hne; lia.
Qed.

Lemma get_dist_dict_of_paths_keys (paths : list string) (p a c : string)
    (vocab : list string) (dm : string) (k : Z) (tm : string) :
  Forall (fun q => exists m, load_model q = Ok m) paths ->
  p ∈ paths -> a ∈ paths -> c ∈ paths ->
  exists d, dist_dict_of_paths p a c vocab dm k tm = Ok d /\ map fst d = vocab.
Proof.
  intros Hall Hp Ha Hc. rewrite Forall_forall in Hall.
  destruct (Hall p Hp) as [mp Emp], (Hall a Ha) as [ma Ema],
    (Hall c Hc) as [mc Emc].
  unfold get_dist_dict_of_paths. rewrite Emp, Ema, Emc. cbn [bind].
  eexists. split; [reflexivity|]. apply keys_get_dist_dict.
Qed.

Lemma z_score_series_of_complete
    (dicts : list (string * list (string * option float)))
    (vocab : list string) (w : string) :
  w ∈ vocab ->
  forall used,
    (forall l, l ∈ used ->
       exists d, py_getitem dicts l = Ok d /\ map fst d = vocab) ->
    exists zs, z_score_series_of dicts used w = Ok zs.
Proof.
  intros Hw. induction used as [|l used IH]; intros Hinv; cbn.
  - eauto.
  - destruct (Hinv l ltac:(left)) as (d&Hd&Hk). rewrite Hd. cbn [bind].
    destruct (py_getitem_keys d w) as [v Hv]; [rewrite Hk; exact Hw|].
    rewrite Hv. cbn [bind].
    destruct IH as [zs Hzs]; [intros l' Hl'; apply Hinv; right; exact Hl'|].
    rewrite Hzs. cbn [bind]. eauto.
Qed.

(** The invariant of the loop: the labels used so far are among the first
    [j] labels, every label used has a dictionary whose keys are the
    vocabulary, and the labels still to come are those of the visited
    indices from [j] on. *)
Lemma snapshot_loop_spec (model_paths time_slice_labels vocab : list string)
    (align_to compare_to dm : string) (k : Z) (tm : string) :
  length time_slice_labels = length model_paths ->
  Forall (fun q => exists m, load_model q = Ok m) model_paths ->
  let a := if String.eqb compare_to "previous" || String.eqb align_to "previous"
              || String.eqb compare_to "first" then 1 else 0 in
  let b := if String.eqb compare_to "last" then 1 else 0 in
  forall (n j : nat) dicts used,
    j + n = length model_paths ->
    (forall l, l ∈ used ->
       exists d, py_getitem dicts l = Ok d /\ map fst d = vocab) ->
    (forall l, l ∈ used -> l ∈ take j time_slice_labels) ->
    (NoDup time_slice_labels -> map fst dicts = used) ->
    exists dicts',
      let used' :=
        used ++ drop (j `max` a)
                  (take (length time_slice_labels - b) time_slice_labels) in
      loop (zip (seq j n) (drop j model_paths)) model_paths time_slice_labels
        vocab align_to compare_to dm k tm dicts used = Ok (dicts', used')
      /\ (forall l, l ∈ used' ->
            exists d, py_getitem dicts' l = Ok d /\ map fst d = vocab)
      /\ (NoDup time_slice_labels -> map fst dicts' = used').
Proof.
  intros Hlen Hload a b.
  induction n as [|n IH]; intros j dicts used Hj Hinv Hsub Hnd.
  - exists dicts. cbn zeta.
    rewrite (drop_ge (take _ time_slice_labels)), app_nil_r
      by (rewrite length_take; lia).
    split; [reflexivity|]. split; [exact Hinv|exact Hnd].
  - assert (j < length model_paths) as Hjlt by lia.
    destruct (lookup_lt_is_Some_2 model_paths j Hjlt) as [p Hp].
    destruct (lookup_lt_is_Some_2 time_slice_labels j ltac:(lia)) as [lj Hlj].
    assert (forall l, l ∈ used -> l ∈ take (S j) time_slice_labels) as Hsub'.
    { intros l Hl. rewrite (take_S_r _ _ _ Hlj). apply elem_of_app. left.
      apply Hsub, Hl. }
    rewrite (drop_S _ _ _ Hp). cbn [seq zip zip_with snapshot_loop].
    destruct ((j =? 0)%nat
              && (String.eqb compare_to "previous"
                  || String.eqb align_to "previous"
                  || String.eqb compare_to "first")) eqn:E1.
    { apply andb_true_iff in E1 as [Ej Ea]. apply Nat.eqb_eq in Ej. subst j.
      destruct (IH 1 dicts used ltac:(lia) Hinv Hsub' Hnd) as (dicts'&H).
      exists dicts'. subst a. rewrite Ea in *. exact H. }
    destruct ((Z.of_nat j =? Z.of_nat (length model_paths) - 1)%Z
              && String.eqb compare_to "last") eqn:E2.
    { apply andb_true_iff in E2 as [Ej Eb]. apply Z.eqb_eq in Ej.
      destruct (IH (S j) dicts used ltac:(lia) Hinv Hsub' Hnd) as (dicts'&H).
      exists dicts'. cbn zeta in *.
      assert (forall i, j <= i ->
                drop i (take (length time_slice_labels - b) time_slice_labels)
                = []) as Hnil.
      { intros i Hi. apply drop_ge. rewrite length_take. subst b.
        rewrite Eb. lia. }
      rewrite Hnil in H by lia. rewrite Hnil by lia. exact H. }
    destruct (reference_model_path_elem model_paths align_to j Hjlt)
      as (pa&Epa&Hpa).
    destruct (reference_model_path_elem model_paths compare_to j Hjlt)
      as (pc&Epc&Hpc).
    rewrite Epa, Epc. cbn [bind].
    destruct (get_dist_dict_of_paths_keys model_paths p pa pc vocab dm k tm
                Hload (list_elem_of_lookup_2 _ _ _ Hp) Hpa Hpc) as (d&Ed&Hd).
    rewrite Ed. cbn [bind]. unfold py_index. rewrite Hlj. cbn [bind].
    assert (a <= j) as Haj.
    { subst a. apply andb_false_iff in E1 as [E1|E1]; [|rewrite E1; lia].
      apply Nat.eqb_neq in E1. destruct (_ || _); lia. }
    assert (j < length time_slice_labels - b) as Hbj.
    { subst b. apply andb_false_iff in E2 as [E2|E2]; [|rewrite E2; lia].
      apply Z.eqb_neq in E2. destruct (String.eqb compare_to "last"); lia. }
    destruct (IH (S j) (py_setitem dicts lj (get_z_score_dict d))
                (used ++ [lj]) ltac:(lia)) as (dicts'&Hrun&Hinv'&Hnd').
    + intros l Hl. apply elem_of_app in Hl as [Hl|Hl].
      * destruct (String.eqb_spec lj l) as [<-|Hne].
        -- rewrite py_getitem_setitem_eq. eexists. split; [reflexivity|].
           rewrite keys_get_z_score_dict. exact Hd.
        -- rewrite py_getitem_setitem_ne by exact Hne. apply Hinv, Hl.
      * apply list_elem_of_singleton in Hl as ->.
        rewrite py_getitem_setitem_eq. eexists. split; [reflexivity|].
        rewrite keys_get_z_score_dict. exact Hd.
    + intros l Hl. apply elem_of_app in Hl as [Hl|Hl]; [apply Hsub', Hl|].
      apply list_elem_of_singleton in Hl as ->.
      rewrite (take_S_r _ _ _ Hlj). apply elem_of_app. right. left.
    + intros Hn. rewrite py_setitem_fresh.
      * rewrite map_app, (Hnd Hn). reflexivity.
      * rewrite (Hnd Hn). intros Hin. apply Hsub in Hin.
        apply list_elem_of_lookup_1 in Hin as [i Hi].
        pose proof (lookup_lt_Some _ _ _ Hi) as Hilt.
        rewrite length_take in Hilt.
        rewrite lookup_take_lt in Hi by lia.
        pose proof (NoDup_lookup _ _ _ _ Hn Hi Hlj). lia.
    + exists dicts'. cbn zeta in *.
      assert (drop (j `max` a)
                (take (length time_slice_labels - b) time_slice_labels)
              = lj :: drop (S j `max` a)
                        (take (length time_slice_labels - b) time_slice_labels))
        as ->.
      { rewrite !Nat.max_l by lia. apply drop_S.
        rewrite lookup_take_lt by lia. exact Hlj. }
      rewrite <- app_assoc in Hrun, Hinv', Hnd'. cbn [app] in Hrun, Hinv', Hnd'.
      auto.
Qed.

Lemma snapshots_spec (model_paths time_slice_labels vocab : list string)
    (align_to compare_to dm : string) (k : Z) (tm : string) :
  length time_slice_labels = length model_paths ->
  Forall (fun q => exists m, load_model q = Ok m) model_paths ->
  exists dicts,
    snapshots keyed_vectors contains cosine
      measure_semantic_shift_by_neighborhood smart_procrustes_align_gensim
      load_model model_paths time_slice_labels vocab align_to compare_to dm k tm
    = Ok (dicts, labels_used time_slice_labels align_to compare_to)
    /\ (forall l, l ∈ labels_used time_slice_labels align_to compare_to ->
          exists d, py_getitem dicts l = Ok d /\ map fst d = vocab)
    /\ (NoDup time_slice_labels ->
        map fst dicts = labels_used time_slice_labels align_to compare_to).
Proof.
  intros Hlen Hload.
  destruct (snapshot_loop_spec model_paths time_slice_labels vocab align_to
              compare_to dm k tm Hlen Hload (length model_paths) 0 [] [])
    as (dicts&Hrun&Hinv&Hnd).
  - reflexivity.
  - intros l Hl. apply elem_of_nil in Hl. contradiction.
  - intros l Hl. apply elem_of_nil in Hl. contradiction.
  - reflexivity.
  - exists dicts. cbn zeta in *. rewrite Nat.max_0_l in *. cbn [app] in *.
    unfold snapshots, labels_used. rewrite drop_0 in Hrun. auto.
Qed.

(** X19: for parallel lists of model paths and labels whose models load,
    the snapshot loop does not raise.  It uses every label but the first
    when the comparison is to the first or the previous model or the
    alignment is to the previous model, and every label but the last when
    the comparison is to the last model; every word of the vocabulary then
    has a z-score series with one entry per label used, and for pairwise
    distinct labels the dictionary has exactly the labels used as its keys,
    in their order. *)
Theorem snapshots_labels_used (model_paths time_slice_labels vocab : list string)
    (align_to compare_to dm : string) (k : Z) (tm : string) :
  length time_slice_labels = length model_paths ->
  Forall (fun q => exists m, load_model q = Ok m) model_paths ->
  exists dicts,
    snapshots keyed_vectors contains cosine
      measure_semantic_shift_by_neighborhood smart_procrustes_align_gensim
      load_model model_paths time_slice_labels vocab align_to compare_to dm k tm
    = Ok (dicts, labels_used time_slice_labels align_to compare_to)
    /\ (forall w, w ∈ vocab ->
          exists zs,
            z_score_series_of dicts
              (labels_used time_slice_labels align_to compare_to) w = Ok zs
            /\ length zs
               = length (labels_used time_slice_labels align_to compare_to))
    /\ (NoDup time_slice_labels ->
        map fst dicts = labels_used time_slice_labels align_to compare_to).
Proof.
  intros Hlen Hload.
  destruct (snapshots_spec model_paths time_slice_labels vocab align_to
              compare_to dm k tm Hlen Hload) as (dicts&Hrun&Hinv&Hnd).
  exists dicts. split; [exact Hrun|]. split; [|exact Hnd].
  intros w Hw.
  destruct (z_score_series_of_complete dicts vocab w Hw _ Hinv) as [zs Hzs].
  exists zs. split; [exact Hzs|].
  eapply length_z_score_series_of, Hzs.
Qed.

Lemma get_dist_dict_of_paths_alignment (paths : list string)
    (p a a' c : string) (vocab : list string) (dm : string) (k : Z)
    (tm : string) :
  Forall (fun q => exists m, load_model q = Ok m) paths ->
  a ∈ paths -> a' ∈ paths ->
  String.eqb dm "cosine" && String.eqb tm "independent" = false ->
  dist_dict_of_paths p a c vocab dm k tm = dist_dict_of_paths p a' c vocab dm k tm.
Proof.
  intros Hall Ha Ha' Hal. rewrite Forall_forall in Hall.
  destruct (Hall a Ha) as [ma Ema], (Hall a' Ha') as [ma' Ema'].
  unfold get_dist_dict_of_paths. rewrite Ema, Ema'.
  destruct (load_model p) as [mp|e]; [|reflexivity]. cbn [bind].
  destruct (load_model c) as [mc|e]; [|reflexivity]. cbn [bind].
  unfold get_dist_dict. rewrite Hal. reflexivity.
Qed.

Lemma snapshot_loop_alignment (model_paths time_slice_labels vocab : list string)
    (a a' c dm : string) (k : Z) (tm : string) :
  Forall (fun q => exists m, load_model q = Ok m) model_paths ->
  String.eqb dm "cosine" && String.eqb tm "independent" = false ->
  String.eqb a "previous" = false -> String.eqb a' "previous" = false ->
  forall items dicts used,
    Forall (fun ip : nat * string => ip.1 < length model_paths) items ->
    loop items model_paths time_slice_labels vocab a c dm k tm dicts used
    = loop items model_paths time_slice_labels vocab a' c dm k tm dicts used.
Proof.
  intros Hload Hal Ha Ha'.
  induction items as [|[i p] items IH]; intros dicts used Hitems;
    [reflexivity|].
  apply Forall_cons_1 in Hitems as [Hi Hitems]. cbn [fst] in Hi.
  cbn [snapshot_loop]. rewrite Ha, Ha'.
  destruct ((i =? 0)%nat && _); [apply IH, Hitems|].
  destruct ((Z.of_nat i =? _)%Z && _); [apply IH, Hitems|].
  destruct (reference_model_path_elem model_paths a i Hi) as (pa&Epa&Hpa).
  destruct (reference_model_path_elem model_paths a' i Hi) as (pa'&Epa'&Hpa').
  rewrite Epa, Epa'. cbn [bind].
  destruct (reference_model_path model_paths c i) as [pc|e]; [|reflexivity].
  cbn [bind].
  rewrite (get_dist_dict_of_paths_alignment model_paths p pa pa' pc vocab dm k
             tm Hload Hpa Hpa' Hal).
  destruct (dist_dict_of_paths p pa' pc vocab dm k tm) as [d|e]; [|reflexivity].
  cbn [bind]. destruct (py_index time_slice_labels i) as [l|e]; [|reflexivity].
  cbn [bind]. apply IH, Hitems.
Qed.

(** X20: when the models are not aligned (the distance measure is not
    ["cosine"] or the training mode is not ["independent"]) the dictionaries
    do not depend on the alignment option, as long as it is not
    ["previous"], which drops the first time slice. *)
Theorem snapshots_alignment_irrelevant
    (model_paths time_slice_labels vocab : list string)
    (align_to align_to' compare_to dm : string) (k : Z) (tm : string) :
  Forall (fun q => exists m, load_model q = Ok m) model_paths ->
  dm <> "cosine"%string \/ tm <> "independent"%string ->
  align_to <> "previous"%string -> align_to' <> "previous"%string ->
  snapshots keyed_vectors contains cosine
    measure_semantic_shift_by_neighborhood smart_procrustes_align_gensim
    load_model model_paths time_slice_labels vocab align_to compare_to dm k tm
  = snapshots keyed_vectors contains cosine
      measure_semantic_shift_by_neighborhood smart_procrustes_align_gensim
      load_model model_paths time_slice_labels vocab align_to' compare_to dm k
      tm.
Proof.
  intros Hload Hal Ha Ha'. unfold snapshots.
  apply snapshot_loop_alignment; try exact Hload.
  - apply andb_false_iff.
    destruct Hal as [H|H]; [left|right]; apply String.eqb_neq, H.
  - apply String.eqb_neq, Ha.
  - apply String.eqb_neq, Ha'.
  - apply Forall_forall. intros [i p] Hin.
    apply elem_of_zip_l in Hin. apply list_elem_of_In, in_seq in Hin. cbn. lia.
Qed.

Section Pipeline.

Variable rng : Type.
Variable np_random_permutation : rng -> list float -> list float * rng.
Hypothesis np_random_permutation_spec :
  forall g l, Permutation (np_random_permutation g l).1 l.

(** X21: from the snapshot loop to the report, for parallel lists of model
    paths and labels whose models load, no lookup fails: the run raises
    exactly when some vocabulary word has exactly one usable z-score over
    the labels used, and the exception is [UnboundLocalError]. *)
Theorem snapshots_then_analyse_raises
    (model_paths time_slice_labels vocab : list string)
    (align_to dm : string) (k : Z) (tm : string) (o : options) (g : rng)
    (e : exn) :
  length time_slice_labels = length model_paths ->
  Forall (fun q => exists m, load_model q = Ok m) model_paths ->
  exists dicts,
    snapshots keyed_vectors contains cosine
      measure_semantic_shift_by_neighborhood smart_procrustes_align_gensim
      load_model model_paths time_slice_labels vocab align_to (compare_to o)
      dm k tm
    = Ok (dicts, labels_used time_slice_labels align_to (compare_to o))
    /\ ((snapshots_then_analyse keyed_vectors contains cosine
           measure_semantic_shift_by_neighborhood smart_procrustes_align_gensim
           load_model rng np_random_permutation model_paths time_slice_labels
           vocab align_to dm k tm o g).1 = Raise e
        <-> e = UnboundLocalError
            /\ exists w zs,
                 w ∈ vocab
                 /\ z_score_series_of dicts
                      (labels_used time_slice_labels align_to (compare_to o)) w
                    = Ok zs
                 /\ length (compact zs) = 1).
Proof.
  intros Hlen Hload.
  destruct (snapshots_spec model_paths time_slice_labels vocab align_to
              (compare_to o) dm k tm Hlen Hload) as (dicts&Hrun&Hinv&_).
  exists dicts. split; [exact Hrun|].
  unfold snapshots_then_analyse. rewrite Hrun.
  assert (forall w, w ∈ vocab ->
            exists zs, z_score_series_of dicts
                         (labels_used time_slice_labels align_to (compare_to o))
                         w = Ok zs) as Hok
    by (intros w Hw; exact (z_score_series_of_complete dicts vocab w Hw _ Hinv)).
  rewrite <- (collect_change_points_raises rng np_random_permutation
                np_random_permutation_spec dicts _ (n_samples o)
                (p_value_threshold o) (gamma_threshold o) (compare_to o) vocab g
                e Hok).
  unfold analyse.
  destruct (collect_change_points _ _ _ _ _ _ _ _ _ _) as [[rs|e1] g1];
    cbn [fst].
  - split; discriminate.
  - reflexivity.
Qed.

End Pipeline.

End SnapshotLoop.

(** ** The sign of the mean-shift under the two orders of subtraction *)

Lemma binary_round_opp (s : bool) (m : positive) (e : Z) :
  binary_round prec emax (negb s) m e = SFopp (binary_round prec emax s m e).
Proof.
  unfold binary_round.
  destruct (shl_align m e _) as [mz ez]. unfold binary_round_aux.
  destruct (shr_fexp prec emax (Z.pos mz) ez loc_Exact) as [mrs' e'].
  destruct (shr_fexp prec emax _ e' loc_Exact) as [mrs'' e''].
  destruct (shr_m mrs''); [reflexivity| |reflexivity].
  destruct (e'' <=? emax - prec)%Z; reflexivity.
Qed.

Lemma binary_normalize_opp (m e : Z) :
  m <> 0%Z ->
  binary_normalize prec emax (- m) e false
  = SFopp (binary_normalize prec emax m e false).
Proof.
  intros Hm. destruct m as [|p|p]; [congruence| |]; cbn [Z.opp binary_normalize].
  - apply (binary_round_opp false).
  - rewrite <- (binary_round_opp true). reflexivity.
Qed.

(** [x - y] is the opposite of [y - x], or both are zeros. *)
Lemma SF64sub_opp (x y : spec_float) :
  SF64sub x y = SFopp (SF64sub y x)
  \/ exists s s', SF64sub x y = S754_zero s /\ SF64sub y x = S754_zero s'.
Proof.
  unfold SF64sub, SFsub.
  destruct x as [sx|sx| |sx mx ex], y as [sy|sy| |sy my ey];
    try (left; reflexivity);
    try (repeat match goal with s : bool |- _ => destruct s end;
         first [left; reflexivity | right; cbn; eauto]; fail).
  rewrite (Z.min_comm ey ex).
  set (ez := Z.min ex ey).
  set (a := cond_Zopp sx (Z.pos (shl_align mx ex ez).1)).
  set (b := cond_Zopp sy (Z.pos (shl_align my ey ez).1)).
  destruct (Z.eq_dec (a - b)%Z 0%Z) as [H0|H0].
  - right. replace (b - a)%Z with 0%Z by lia. rewrite H0. cbn. eauto.
  - left. replace (a - b)%Z with (- (b - a))%Z by lia.
    apply binary_normalize_opp. lia.
Qed.

Lemma sub_opp_sub (a b : float) :
  (is_nan (a - b) = true /\ is_nan (b - a) = true)
  \/ (a - b =? - (b - a))%float = true.
Proof.
  destruct (SF64sub_opp (Prim2SF a) (Prim2SF b)) as [H|(s&s'&H1&H2)].
  - assert ((a - b)%float = (- (b - a))%float) as E.
    { apply Prim2SF_inj.
      rewrite FloatAxioms.opp_spec, !FloatAxioms.sub_spec. exact H. }
    destruct (is_nan (a - b)) eqn:En.
    + left. split; [reflexivity|]. rewrite E, is_nan_opp in En. exact En.
    + right. rewrite <- E. apply eqb_refl_not_nan, En.
  - right. rewrite FloatAxioms.eqb_spec, FloatAxioms.opp_spec,
      !FloatAxioms.sub_spec, H1, H2.
    reflexivity.
Qed.

(** X22: the mean-shift under a policy other than ["first"] is the
    opposite of the one under ["first"]: at every split index the two are
    both NaN, or the one equals the other negated. *)
Theorem mean_shift_policy_sign (time_series : list float) (c : string) :
  c <> "first"%string ->
  Forall2 (fun a b =>
             (is_nan a = true /\ is_nan b = true)
             \/ (a =? - b)%float = true)
    (get_mean_shift_series time_series "first")
    (get_mean_shift_series time_series c).
Proof.
  intros Hc. unfold get_mean_shift_series.
  apply Forall2_fmap, Forall_Forall2_diag, Forall_forall. intros j _.
  unfold compute_mean_shift. apply String.eqb_neq in Hc. rewrite Hc.
  cbn [String.eqb Ascii.eqb]. apply sub_opp_sub.
Qed.

Lemma mean_shift_policy_sign_witness :
  "last"%string <> "first"%string
  /\ Forall2 (fun a b =>
                (is_nan a = true /\ is_nan b = true)
                \/ (a =? - b)%float = true)
       (get_mean_shift_series [1%float; 2%float; 4%float] "first")
       (get_mean_shift_series [1%float; 2%float; 4%float] "last").
Proof.
  split; [discriminate|].
  apply (mean_shift_policy_sign [1%float; 2%float; 4%float] "last").
  discriminate.
Defined.

(** ** The z-score of a distance equal to the mean *)

Lemma is_finite_Prim2SF (x : float) :
  is_finite x = true ->
  (exists s, Prim2SF x = S754_zero s)
  \/ exists s m e, Prim2SF x = S754_finite s m e.
Proof.
  unfold is_finite, is_infinity. intros H.
  apply negb_true_iff, orb_false_iff in H as [Hn Hi].
  rewrite FloatAxioms.eqb_spec, FloatAxioms.abs_spec in Hi.
  destruct (Prim2SF x) as [s|s| |s m e] eqn:E; eauto.
  - discriminate.
  - apply Prim2SF_is_nan in E. congruence.
Qed.

Lemma sub_self_finite (x : float) :
  is_finite x = true -> Prim2SF (x - x) = S754_zero false.
Proof.
  intros H. rewrite FloatAxioms.sub_spec. unfold SF64sub, SFsub.
  destruct (is_finite_Prim2SF x H) as [[s ->]|(s&m&e&->)].
  - destruct s; reflexivity.
  - rewrite Z.sub_diag. reflexivity.
Qed.

Lemma zero_div_positive (x s : float) :
  Prim2SF x = S754_zero false -> (0 <? s)%float = true ->
  (x / s)%float = 0%float.
Proof.
  intros Hx Hs. apply Prim2SF_inj. rewrite FloatAxioms.div_spec, Hx.
  rewrite FloatAxioms.ltb_spec in Hs.
  destruct (Prim2SF s) as [b|b| |b m e]; try destruct b; try discriminate;
    reflexivity.
Qed.

(** X23: a word whose distance is the mean of the usable distances gets
    the z-score 0.0, not [None]; the filters of the detector, which test
    truthiness, treat that time slice of the word as missing. *)
Theorem z_score_of_mean_distance (dist_dict : list (string * option float))
    (word : string) (x : float) :
  (word, Some x) ∈ dist_dict ->
  float_truthy x = true -> is_finite x = true ->
  np_mean (truthy_values dist_dict) = x ->
  (0 <? PrimFloat.sqrt (np_var (truthy_values dist_dict)))%float = true ->
  (word, Some 0%float) ∈ get_z_score_dict dist_dict
  /\ truthy (Some 0%float) = false.
Proof.
  intros Hin Ht Hf Hm Hs. split; [|reflexivity].
  unfold get_z_score_dict. apply list_elem_of_fmap.
  exists (word, Some x). split; [|exact Hin].
  rewrite Ht, Hm. f_equal. f_equal. symmetry.
  apply zero_div_positive; [apply sub_self_finite, Hf|exact Hs].
Qed.

Lemma z_score_of_mean_distance_witness :
  let d := [("a"%string, Some 1%float); ("b"%string, Some 2%float);
            ("c"%string, Some 3%float)] in
  ("b"%string, Some 2%float) ∈ d
  /\ float_truthy 2 = true /\ is_finite 2 = true
  /\ np_mean (truthy_values d) = 2%float
  /\ (0 <? PrimFloat.sqrt (np_var (truthy_values d)))%float = true
  /\ ("b"%string, Some 0%float) ∈ get_z_score_dict d
  /\ truthy (Some 0%float) = false.
Proof.
  cbv zeta.
  assert (("b"%string, Some 2%float)
          ∈ [("a"%string, Some 1%float); ("b"%string, Some 2%float);
             ("c"%string, Some 3%float)]) as Hin by (right; left).
  split; [exact Hin|]. split; [reflexivity|]. split; [reflexivity|].
  split; [reflexivity|]. split; [reflexivity|].
  exact (z_score_of_mean_distance _ "b" 2%float Hin eq_refl eq_refl eq_refl
           eq_refl).
Defined.

(** ** Words without a z-score *)

Section ZScores.

Variable keyed_vectors : Type.
Variable contains : keyed_vectors -> string -> bool.
Variable cosine : keyed_vectors -> keyed_vectors -> string -> float.
Variable measure_semantic_shift_by_neighborhood :
  keyed_vectors -> keyed_vectors -> string -> Z -> float.
Variable smart_procrustes_align_gensim :
  keyed_vectors -> keyed_vectors -> keyed_vectors.

Local Abbreviation dist_dict :=
  (get_dist_dict keyed_vectors contains cosine
     measure_semantic_shift_by_neighborhood smart_procrustes_align_gensim).

Lemma py_getitem_fmap {A B} (f : string -> A -> B) (d : list (string * A))
    (w : string) :
  py_getitem (map (fun kv => (kv.1, f kv.1 kv.2)) d) w
  = match py_getitem d w with
    | Ok v => Ok (f w v)
    | Raise e => Raise e
    end.
Proof.
  induction d as [|[k v] d IH]; cbn; [reflexivity|].
  destruct (String.eqb_spec k w) as [->|Hne]; [reflexivity|exact IH].
Qed.

Lemma py_getitem_get_z_score_dict (d : list (string * option float))
    (w : string) :
  py_getitem (get_z_score_dict d) w
  = match py_getitem d w with
    | Ok v =>
        Ok (if truthy v then
              match v with
              | Some x =>
                  Some ((x - np_mean (truthy_values d))
                        / PrimFloat.sqrt (np_var (truthy_values d)))%float
              | None => None
              end
            else None)
    | Raise e => Raise e
    end.
Proof.
  unfold get_z_score_dict.
  rewrite <- (py_getitem_fmap
                (fun _ v =>
                   if truthy v then
                     match v with
                     | Some x =>
                         Some ((x - np_mean (truthy_values d))
                               / PrimFloat.sqrt (np_var (truthy_values d)))%float
                     | None => None
                     end
                   else None) d w).
  f_equal. apply map_ext. intros [k [x|]]; cbn; [|reflexivity].
  destruct (float_truthy x); reflexivity.
Qed.

Lemma py_getitem_get_dist_dict_vocab
    (model alignment_reference_model comparison_reference_model : keyed_vectors)
    (vocab : list string) (distance_measure : string) (k : Z)
    (training_mode : string) (w : string) :
  w ∈ vocab ->
  exists v,
    py_getitem (dist_dict model alignment_reference_model
                  comparison_reference_model vocab distance_measure k
                  training_mode) w = Ok v
    /\ (w, v) ∈ dist_dict model alignment_reference_model
                  comparison_reference_model [w] distance_measure k
                  training_mode.
Proof.
  unfold get_dist_dict.
  set (f := fun word : string => _).
  assert (forall x, (f x).1 = x) as Hf.
  { intros x. subst f. cbn beta.
    destruct (_ && _); [destruct (String.eqb distance_measure "cosine")|];
      reflexivity. }
  induction vocab as [|x vocab IH]; intros Hw.
  - apply elem_of_nil in Hw. contradiction.
  - cbn [map py_getitem]. specialize (Hf x) as Hx.
    destruct (f x) as [k0 v] eqn:E. cbn in Hx. subst k0.
    destruct (String.eqb_spec x w) as [->|Hne].
    + exists v. split; [reflexivity|]. rewrite E. left.
    + apply IH. apply elem_of_cons in Hw as [->|Hw]; [congruence|exact Hw].
Qed.

(** X24: in the z-score dictionary of a time slice every vocabulary word
    has an entry, and the entry is [None] exactly when the word is missing
    from the model of the time slice or from the comparison model (each as
    aligned, when the models are aligned), or its distance is zero. *)
Theorem z_score_none_iff
    (model alignment_reference_model comparison_reference_model : keyed_vectors)
    (vocab : list string) (distance_measure : string) (k : Z)
    (training_mode : string) (w : string) :
  w ∈ vocab ->
  let align :=
    String.eqb distance_measure "cosine"
    && String.eqb training_mode "independent" in
  let model' :=
    if align then smart_procrustes_align_gensim alignment_reference_model model
    else model in
  let comparison_reference_model' :=
    if align then
      smart_procrustes_align_gensim alignment_reference_model
        comparison_reference_model
    else comparison_reference_model in
  let distance :=
    if String.eqb distance_measure "cosine" then
      cosine comparison_reference_model' model' w
    else
      measure_semantic_shift_by_neighborhood comparison_reference_model' model'
        w k in
  exists v,
    py_getitem
      (get_z_score_dict
         (dist_dict model alignment_reference_model comparison_reference_model
            vocab distance_measure k training_mode)) w = Ok v
    /\ (v = None
        <-> contains comparison_reference_model' w = false
            \/ contains model' w = false
            \/ (distance =? 0)%float = true).
Proof.
  intros Hw align model' comparison_reference_model' distance.
  destruct (py_getitem_get_dist_dict_vocab model alignment_reference_model
              comparison_reference_model vocab distance_measure k training_mode
              w Hw) as (v0&Hv0&Hin).
  rewrite py_getitem_get_z_score_dict, Hv0.
  eexists. split; [reflexivity|].
  unfold get_dist_dict in Hin. cbn [map] in Hin.
  fold align in Hin. fold model' in Hin. fold comparison_reference_model' in Hin.
  apply list_elem_of_singleton in Hin.
  destruct (contains comparison_reference_model' w) eqn:Ec; cbn [andb] in Hin.
  - destruct (contains model' w) eqn:Em.
    + assert (v0 = Some distance) as ->.
      { subst distance. destruct (String.eqb distance_measure "cosine");
          congruence. }
      cbn [truthy]. unfold float_truthy.
      destruct (distance =? 0)%float; cbn [negb]; split; intros H; auto;
        try discriminate.
      destruct H as [H|[H|H]]; discriminate.
    + injection Hin as ->. cbn [truthy]. split; auto.
  - injection Hin as ->. cbn [truthy]. split; auto.
Qed.

End ZScores.

(** ** Time slices without a usable z-score *)

Lemma compact_app (z1 z2 : list (option float)) :
  compact (z1 ++ z2) = compact z1 ++ compact z2.
Proof.
  induction z1 as [|[x|] z1 IH]; cbn; [reflexivity| |exact IH].
  destruct (float_truthy x); cbn; rewrite IH; reflexivity.
Qed.

Lemma kept_app (z1 z2 : list (option float)) (l1 l2 : list string) :
  length l1 = length z1 ->
  kept (z1 ++ z2) (l1 ++ l2) = kept z1 l1 ++ kept z2 l2.
Proof.
  revert l1. induction z1 as [|[x|] z1 IH]; intros [|l l1] Hlen;
    try discriminate; cbn; [reflexivity| |apply IH; cbn in Hlen; lia].
  destruct (float_truthy x); cbn; rewrite IH by (cbn in Hlen; lia);
    reflexivity.
Qed.

(** X25: a time slice whose z-score is [None] or zero has no effect on the
    detector: with the slice and its label removed from the two lists the
    result and the generator state are the same. *)
Theorem detect_ignores_missing (rng : Type)
    (np_random_permutation : rng -> list float -> list float * rng)
    (word : string) (l1 l2 : list string) (l : string)
    (z1 z2 : list (option float)) (v : option float) (N : Z)
    (thr gamma : float) (c : string) (g : rng) :
  length l1 = length z1 -> length l2 = length z2 -> truthy v = false ->
  detect_change_point rng np_random_permutation word (l1 ++ l :: l2)
    (z1 ++ v :: z2) N thr gamma c g
  = detect_change_point rng np_random_permutation word (l1 ++ l2) (z1 ++ z2)
      N thr gamma c g.
Proof.
  intros H1 H2 Hv. unfold detect_change_point.
  rewrite !labels_where_truthy_kept by (rewrite !length_app; cbn; lia).
  rewrite !kept_app, !compact_app by exact H1.
  assert (kept (v :: z2) (l :: l2) = kept z2 l2) as ->.
  { destruct v as [x|]; cbn in *; [rewrite Hv|]; reflexivity. }
  assert (compact (v :: z2) = compact z2) as ->.
  { destruct v as [x|]; cbn in *; [rewrite Hv|]; reflexivity. }
  reflexivity.
Qed.

Lemma detect_ignores_missing_witness :
  length ["2012_02"]%string = length [Some 0.5%float]
  /\ length ["2012_04"; "2012_05"; "2012_06"]%string
     = length [Some 0.25%float; Some 5%float; Some 5.5%float]
  /\ truthy None = false
  /\ detect_change_point nat rotating_permutation "cat"
       (["2012_02"]%string
          ++ "2012_03"%string :: ["2012_04"; "2012_05"; "2012_06"]%string)
       ([Some 0.5%float] ++ None
          :: [Some 0.25%float; Some 5%float; Some 5.5%float])
       8 0.0625%float 0%float "first" 0
     = detect_change_point nat rotating_permutation "cat"
         (["2012_02"]%string ++ ["2012_04"; "2012_05"; "2012_06"]%string)
         ([Some 0.5%float]
            ++ [Some 0.25%float; Some 5%float; Some 5.5%float])
         8 0.0625%float 0%float "first" 0.
Proof.
  split; [reflexivity|]. split; [reflexivity|]. split; [reflexivity|].
  apply detect_ignores_missing; reflexivity.
Defined.

(** ** Instances of the further properties *)

Lemma ex_detect :
  detect_change_point nat rotating_permutation "cat" ex_labels ex_z 8
    0.0625%float 0%float "first" 0
  = (Ok (Some ex_result), 8).
Proof. vm_compute. reflexivity. Qed.

Lemma ex_analyse :
  analyse nat rotating_permutation ["cat"]%string ex_dicts ex_labels
    (ex_options "p_value") 0
  = (Ok [ex_result], 8).
Proof. vm_compute. reflexivity. Qed.

Lemma detect_raises_iff_witness :
  length ["2012_02"; "2012_03"; "2012_04"]%string
  = length [Some 1.5%float; None; None]
  /\ ((detect_change_point nat rotating_permutation "dog"
         ["2012_02"; "2012_03"; "2012_04"]%string [Some 1.5%float; None; None]
         8 0.0625%float 0%float "first" 0).1 = Raise UnboundLocalError
      <-> length (compact [Some 1.5%float; None; None]) = 1
          /\ UnboundLocalError = UnboundLocalError).
Proof.
  split; [reflexivity|].
  apply (detect_raises_iff nat rotating_permutation rotating_permutation_spec).
  reflexivity.
Defined.

Lemma detect_result_provenance_witness :
  length ex_labels = length ex_z
  /\ detect_change_point nat rotating_permutation "cat" ex_labels ex_z 8
       0.0625%float 0%float "first" 0
     = (Ok (Some ("cat"%string, "2012_03"%string, 0%float, 4.875%float,
                  0.25%float)), 8)
  /\ "cat"%string = "cat"%string
  /\ (0 <? 0.0625)%float = true
  /\ exists cp i,
       S cp < length (compact ex_z)
       /\ compact ex_z !! cp = Some 0.25%float
       /\ get_mean_shift_series (compact ex_z) "first" !! cp = Some 4.875%float
       /\ ex_z !! i = Some (Some 0.25%float)
       /\ ex_labels !! i = Some "2012_03"%string.
Proof.
  split; [reflexivity|]. split; [exact ex_detect|].
  exact (detect_result_provenance nat rotating_permutation
           rotating_permutation_spec "cat" ex_labels ex_z 8 0.0625%float
           0%float "first" 0 8 "cat" "2012_03" 0%float 4.875%float 0.25%float
           eq_refl ex_detect).
Defined.

Lemma detect_result_not_gated_witness :
  length ex_labels = length ex_z
  /\ (0.0625 <=? 1)%float = true
  /\ detect_change_point nat rotating_permutation "cat" ex_labels ex_z 8
       0.0625%float 0%float "first" 0
     = (Ok (Some ("cat"%string, "2012_03"%string, 0%float, 4.875%float,
                  0.25%float)), 8)
  /\ (0.25 <? 0)%float = false.
Proof.
  split; [reflexivity|]. split; [reflexivity|]. split; [exact ex_detect|].
  exact (detect_result_not_gated nat rotating_permutation
           rotating_permutation_spec "cat" ex_labels ex_z 8 0.0625%float
           0%float "first" 0 8 "cat" "2012_03" 0%float 4.875%float 0.25%float
           eq_refl eq_refl ex_detect).
Defined.

Lemma ex_p_values :
  get_p_value_series nat rotating_permutation "cat"
    (get_mean_shift_series (compact ex_z) "first") 8 (compact ex_z) "first" 0
  = (Ok [0.25%float; 0%float; 0%float], 8).
Proof. vm_compute. reflexivity. Qed.

Lemma p_values_in_unit_interval_witness :
  (1 <= 8 < 2 ^ 53)%Z
  /\ get_p_value_series nat rotating_permutation "cat"
       (get_mean_shift_series (compact ex_z) "first") 8 (compact ex_z) "first" 0
     = (Ok [0.25%float; 0%float; 0%float], 8)
  /\ length [0.25%float; 0%float; 0%float] = length (compact ex_z) - 1
  /\ Forall (fun v => (0 <=? v)%float = true /\ (v <=? 1)%float = true)
       [0.25%float; 0%float; 0%float].
Proof.
  split; [lia|]. split; [exact ex_p_values|].
  exact (p_values_in_unit_interval nat rotating_permutation
           rotating_permutation_spec "cat" (compact ex_z) "first" 8 0
           [0.25%float; 0%float; 0%float] 8 ltac:(lia) ex_p_values).
Defined.

Lemma permutation_test_draws_witness :
  (get_p_value_series nat rotating_permutation "cat"
     (get_mean_shift_series (compact ex_z) "first") 8 (compact ex_z) "first"
     0).2
  = Nat.iter (Z.to_nat 8)
      (fun s => (rotating_permutation s (compact ex_z)).2) 0.
Proof.
  exact (permutation_test_draws nat rotating_permutation
           rotating_permutation_spec "cat" (compact ex_z) "first" 8 0).
Defined.

Lemma detect_without_samples_witness :
  length ex_labels = length ex_z
  /\ (0.0625 <=? 1)%float = true
  /\ (detect_change_point nat rotating_permutation "cat" ex_labels ex_z 0
        0.0625%float 0%float "first" 0).1 <> Ok (Some ex_result).
Proof.
  split; [reflexivity|]. split; [reflexivity|].
  exact (detect_without_samples nat rotating_permutation
           rotating_permutation_spec "cat" ex_labels ex_z 0.0625%float 0%float
           "first" 0 ex_result eq_refl eq_refl).
Defined.

Lemma rank_results_p_value_witness :
  let rows :=
    [("dog"%string, "2012_04"%string, 0.5%float, 1%float, 2%float);
     ex_result;
     ("emu"%string, "2012_05"%string, 0%float, 6%float, 1%float)] in
  Forall (fun r => is_nan (cp_p_value r) = false) rows
  /\ Forall (fun r => is_nan (cp_mean_shift r) = false) rows
  /\ StronglySorted
       (fun a b =>
          (cp_p_value a <? cp_p_value b)%float = true
          \/ ((cp_p_value a =? cp_p_value b)%float = true
              /\ (cp_mean_shift b <=? cp_mean_shift a)%float = true))
       (rank_results "p_value" rows).
Proof.
  cbv zeta.
  assert (Forall (fun r => is_nan (cp_p_value r) = false)
            [("dog"%string, "2012_04"%string, 0.5%float, 1%float, 2%float);
             ex_result;
             ("emu"%string, "2012_05"%string, 0%float, 6%float, 1%float)])
    as Hp by (repeat constructor).
  assert (Forall (fun r => is_nan (cp_mean_shift r) = false)
            [("dog"%string, "2012_04"%string, 0.5%float, 1%float, 2%float);
             ex_result;
             ("emu"%string, "2012_05"%string, 0%float, 6%float, 1%float)])
    as Hm by (repeat constructor).
  split; [exact Hp|]. split; [exact Hm|].
  exact (rank_results_p_value _ Hp Hm).
Defined.

Lemma analyse_report_shape_witness :
  analyse nat rotating_permutation ["cat"]%string ex_dicts ex_labels
    (ex_options "p_value") 0
  = (Ok [ex_result], 8)
  /\ length [ex_result] <= length ["cat"]%string
  /\ ((0 <= n_best (ex_options "p_value"))%Z ->
      length [ex_result] <= Z.to_nat (n_best (ex_options "p_value")))
  /\ (forall r, r ∈ [ex_result] -> cp_word r ∈ ["cat"]%string)
  /\ (NoDup ["cat"]%string -> NoDup (map cp_word [ex_result])).
Proof.
  split; [exact ex_analyse|].
  exact (analyse_report_shape nat rotating_permutation
           rotating_permutation_spec ["cat"]%string ex_dicts ex_labels
           (ex_options "p_value") 0 8 [ex_result] ex_analyse).
Defined.

Lemma analyse_report_rows_witness :
  analyse nat rotating_permutation ["cat"]%string ex_dicts ex_labels
    (ex_options "p_value") 0
  = (Ok [ex_result], 8)
  /\ ex_result ∈ [ex_result]
  /\ (0 <? p_value_threshold (ex_options "p_value"))%float = true
  /\ "2012_03"%string ∈ ex_labels
  /\ (exists d, py_getitem ex_dicts "2012_03" = Ok d
                /\ py_getitem d "cat" = Ok (Some 0.25%float))
  /\ ((p_value_threshold (ex_options "p_value") <=? 1)%float = true ->
      (0.25 <? gamma_threshold (ex_options "p_value"))%float = false).
Proof.
  assert (ex_result ∈ [ex_result]) as Hin by left.
  split; [exact ex_analyse|]. split; [exact Hin|].
  exact (analyse_report_rows nat rotating_permutation
           rotating_permutation_spec ["cat"]%string ex_dicts ex_labels
           (ex_options "p_value") 0 8 [ex_result] "cat" "2012_03" 0%float
           4.875%float 0.25%float ex_analyse Hin).
Defined.

Lemma ex_lookups (w : string) :
  w ∈ ["cat"; "dog"]%string ->
  exists zs, z_score_series_of ex_dicts ex_labels w = Ok zs.
Proof.
  intros Hw. apply elem_of_cons in Hw as [->|Hw]; [eexists; reflexivity|].
  apply list_elem_of_singleton in Hw as ->. eexists. reflexivity.
Qed.

Lemma analyse_raises_iff_witness :
  (forall w, w ∈ ["cat"; "dog"]%string ->
     exists zs, z_score_series_of ex_dicts ex_labels w = Ok zs)
  /\ ((analyse nat rotating_permutation ["cat"; "dog"]%string ex_dicts
         ex_labels (ex_options "p_value") 0).1 = Raise UnboundLocalError
      <-> UnboundLocalError = UnboundLocalError
          /\ exists w zs,
               w ∈ ["cat"; "dog"]%string
               /\ z_score_series_of ex_dicts ex_labels w = Ok zs
               /\ length (compact zs) = 1).
Proof.
  split; [exact ex_lookups|].
  exact (analyse_raises_iff nat rotating_permutation rotating_permutation_spec
           ["cat"; "dog"]%string ex_dicts ex_labels (ex_options "p_value") 0
           UnboundLocalError ex_lookups).
Defined.

Lemma ex_models_load :
  Forall (fun q => exists m : list string,
            (fun _ : string => Ok ["cat"; "dog"]%string) q = Ok m)
    ["m1"; "m2"; "m3"]%string.
Proof. repeat constructor; eexists; reflexivity. Qed.

Lemma snapshots_labels_used_witness :
  length ["2012_01"; "2012_02"; "2012_03"]%string
  = length ["m1"; "m2"; "m3"]%string
  /\ Forall (fun q => exists m : list string,
               (fun _ : string => Ok ["cat"; "dog"]%string) q = Ok m)
       ["m1"; "m2"; "m3"]%string
  /\ exists dicts,
       snapshots (list string) ex_contains (fun _ _ _ => 0.25%float)
         (fun _ _ _ _ => 0.75%float) (fun _ m => m)
         (fun _ => Ok ["cat"; "dog"]%string)
         ["m1"; "m2"; "m3"]%string ["2012_01"; "2012_02"; "2012_03"]%string
         ["cat"; "emu"]%string "first" "last" "cosine" 25 "independent"
       = Ok (dicts, ["2012_01"; "2012_02"]%string)
       /\ (forall w, w ∈ ["cat"; "emu"]%string ->
             exists zs,
               z_score_series_of dicts ["2012_01"; "2012_02"]%string w = Ok zs
               /\ length zs = 2)
       /\ (NoDup ["2012_01"; "2012_02"; "2012_03"]%string ->
           map fst dicts = ["2012_01"; "2012_02"]%string).
Proof.
  split; [reflexivity|]. split; [exact ex_models_load|].
  exact (snapshots_labels_used (list string) ex_contains
           (fun _ _ _ => 0.25%float) (fun _ _ _ _ => 0.75%float) (fun _ m => m)
           (fun _ => Ok ["cat"; "dog"]%string) ["m1"; "m2"; "m3"]%string
           ["2012_01"; "2012_02"; "2012_03"]%string ["cat"; "emu"]%string
           "first" "last" "cosine" 25 "independent" eq_refl ex_models_load).
Defined.

Lemma snapshots_then_analyse_raises_witness :
  length ["2012_01"; "2012_02"; "2012_03"]%string
  = length ["m1"; "m2"; "m3"]%string
  /\ Forall (fun q => exists m : list string,
               (fun _ : string => Ok ["cat"; "dog"]%string) q = Ok m)
       ["m1"; "m2"; "m3"]%string
  /\ exists dicts,
       snapshots (list string) ex_contains (fun _ _ _ => 0.25%float)
         (fun _ _ _ _ => 0.75%float) (fun _ m => m)
         (fun _ => Ok ["cat"; "dog"]%string)
         ["m1"; "m2"; "m3"]%string ["2012_01"; "2012_02"; "2012_03"]%string
         ["cat"; "emu"]%string "last" "first" "cosine" 25 "independent"
       = Ok (dicts, ["2012_02"; "2012_03"]%string)
       /\ ((snapshots_then_analyse (list string) ex_contains
              (fun _ _ _ => 0.25%float) (fun _ _ _ _ => 0.75%float)
              (fun _ m => m) (fun _ => Ok ["cat"; "dog"]%string) nat
              rotating_permutation ["m1"; "m2"; "m3"]%string
              ["2012_01"; "2012_02"; "2012_03"]%string ["cat"; "emu"]%string
              "last" "cosine" 25 "independent" (ex_options "p_value") 0).1
           = Raise UnboundLocalError
           <-> UnboundLocalError = UnboundLocalError
               /\ exists w zs,
                    w ∈ ["cat"; "emu"]%string
                    /\ z_score_series_of dicts ["2012_02"; "2012_03"]%string w
                       = Ok zs
                    /\ length (compact zs) = 1).
Proof.
  split; [reflexivity|]. split; [exact ex_models_load|].
  exact (snapshots_then_analyse_raises (list string) ex_contains
           (fun _ _ _ => 0.25%float) (fun _ _ _ _ => 0.75%float) (fun _ m => m)
           (fun _ => Ok ["cat"; "dog"]%string) nat rotating_permutation
           rotating_permutation_spec ["m1"; "m2"; "m3"]%string
           ["2012_01"; "2012_02"; "2012_03"]%string ["cat"; "emu"]%string
           "last" "cosine" 25 "independent" (ex_options "p_value") 0
           UnboundLocalError eq_refl ex_models_load).
Defined.

Lemma snapshots_alignment_irrelevant_witness :
  Forall (fun q => exists m : list string,
            (fun _ : string => Ok ["cat"; "dog"]%string) q = Ok m)
    ["m1"; "m2"; "m3"]%string
  /\ ("neighborhood"%string <> "cosine"%string
      \/ "independent"%string <> "independent"%string)
  /\ "first"%string <> "previous"%string
  /\ "last"%string <> "previous"%string
  /\ snapshots (list string) ex_contains (fun _ _ _ => 0.25%float)
       (fun _ _ _ _ => 0.75%float) (fun _ m => m)
       (fun _ => Ok ["cat"; "dog"]%string)
       ["m1"; "m2"; "m3"]%string ["2012_01"; "2012_02"; "2012_03"]%string
       ["cat"; "emu"]%string "first" "last" "neighborhood" 25 "independent"
     = snapshots (list string) ex_contains (fun _ _ _ => 0.25%float)
         (fun _ _ _ _ => 0.75%float) (fun _ m => m)
         (fun _ => Ok ["cat"; "dog"]%string)
         ["m1"; "m2"; "m3"]%string ["2012_01"; "2012_02"; "2012_03"]%string
         ["cat"; "emu"]%string "last" "last" "neighborhood" 25 "independent".
Proof.
  split; [exact ex_models_load|].
  split; [left; discriminate|]. split; [discriminate|]. split; [discriminate|].
  apply snapshots_alignment_irrelevant;
    [exact ex_models_load | left; discriminate | discriminate | discriminate].
Defined.

Lemma z_score_none_iff_witness :
  "emu"%string ∈ ["cat"; "emu"]%string
  /\ exists v,
       py_getitem
         (get_z_score_dict
            (get_dist_dict (list string) ex_contains (fun _ _ _ => 0.25%float)
               (fun _ _ _ _ => 0.75%float) (fun _ m => m)
               ["cat"; "dog"]%string ["cat"]%string ["cat"; "emu"]%string
               ["cat"; "emu"]%string "neighborhood" 25 "independent"))
         "emu" = Ok v
       /\ (v = None
           <-> ex_contains ["cat"; "emu"]%string "emu" = false
               \/ ex_contains ["cat"; "dog"]%string "emu" = false
               \/ (0.75 =? 0)%float = true).
Proof.
  assert ("emu"%string ∈ ["cat"; "emu"]%string) as Hin by (right; left).
  split; [exact Hin|].
  exact (z_score_none_iff (list string) ex_contains (fun _ _ _ => 0.25%float)
           (fun _ _ _ _ => 0.75%float) (fun _ m => m)
           ["cat"; "dog"]%string ["cat"]%string ["cat"; "emu"]%string
           ["cat"; "emu"]%string "neighborhood" 25 "independent" "emu" Hin).
Defined.

(** ** A series of equal z-scores *)

Lemma ltb_irrefl (x : float) : (x <? x)%float = false.
Proof.
  destruct (x <? x)%float eqn:E; [|reflexivity].
  apply ltb_rank in E as (a&b&Ha&Hb&Hlt).
  rewrite Ha in Hb. injection Hb as <-.
  unfold rank_lt in Hlt.
  assert (rank_compare a a = Eq) as Heq by (apply rank_compare_eq; reflexivity).
  congruence.
Qed.

Lemma float_of_int_positive (N : Z) :
  (1 <= N < 2 ^ 53)%Z -> (0 <? float_of_int N)%float = true.
Proof.
  intros H. destruct N as [|n|n]; try lia.
  apply ltb_rank. unfold float_rank.
  rewrite (Prim2SF_float_of_int_pos n) by lia.
  eexists _, _. split; [reflexivity|]. split; [reflexivity|]. reflexivity.
Qed.

Lemma compact_replicate (n : nat) (x : float) :
  float_truthy x = true -> compact (replicate n (Some x)) = replicate n x.
Proof.
  intros Hx. induction n as [|n IH]; cbn; [reflexivity|].
  rewrite Hx, IH. reflexivity.
Qed.

Lemma np_min_replicate (n : nat) (x m : float) :
  np_min (replicate n x) = Ok m -> m = x.
Proof.
  intros H. apply np_min_elem_of, elem_of_replicate in H as [H _]. exact H.
Qed.

Section ConstantSeries.

Variable rng : Type.
Variable np_random_permutation : rng -> list float -> list float * rng.
Hypothesis np_random_permutation_spec :
  forall g l, Permutation (np_random_permutation g l).1 l.

Lemma constant_series_p_values (word : string) (n : nat) (x : float)
    (c : string) (N : Z) (g : rng) :
  (1 <= N < 2 ^ 53)%Z ->
  Forall (fun m => is_nan m = false) (get_mean_shift_series (replicate n x) c) ->
  exists g',
    get_p_value_series rng np_random_permutation word
      (get_mean_shift_series (replicate n x) c) N (replicate n x) c g
    = (Ok (replicate (n - 1) 0%float), g').
Proof.
  intros HN Hnan.
  destruct (get_p_value_series_spec rng np_random_permutation
              np_random_permutation_spec word (replicate n x) c N g)
    as (p&g'&Hp&Hl&Hlook).
  exists g'. rewrite Hp. f_equal. f_equal.
  rewrite length_get_mean_shift_series, length_replicate in Hl.
  apply list_eq. intros j.
  destruct (decide (j < n - 1)) as [Hj|Hj].
  - rewrite lookup_replicate_2 by exact Hj.
    destruct (lookup_lt_is_Some_2 (get_mean_shift_series (replicate n x) c) j)
      as [m Hm];
      [rewrite length_get_mean_shift_series, length_replicate; exact Hj|].
    rewrite (Hlook j m Hm). f_equal.
    assert (count_exceeding_draws m j c
              (permutation_draws rng np_random_permutation (Z.to_nat N)
                 (replicate n x) g) = 0) as ->.
    { unfold count_exceeding_draws.
      rewrite filter_none; [reflexivity|].
      pose proof (permutation_draws_spec rng np_random_permutation
                    np_random_permutation_spec (Z.to_nat N) (replicate n x) g)
        as Hd.
      apply List.Forall_forall. intros d Hin.
      rewrite Forall_forall in Hd.
      specialize (Hd d ltac:(apply list_elem_of_In; exact Hin)).
      symmetry in Hd. apply replicate_Permutation in Hd. subst d.
      unfold exceeds_at. rewrite Hm. unfold exceeds.
      rewrite Forall_forall in Hnan.
      rewrite (Hnan m (list_elem_of_lookup_2 _ _ _ Hm)), ltb_irrefl.
      reflexivity. }
    apply zero_div_positive; [reflexivity|apply float_of_int_positive, HN].
  - rewrite (lookup_ge_None_2 p j) by lia.
    symmetry. apply lookup_ge_None_2. rewrite length_replicate. lia.
Qed.

(** X26: on a series of equal z-scores every permutation is the series
    itself and the test counts only strictly greater mean-shifts, so every
    p-value is 0; for a positive threshold the detector then reports a
    change point with p-value 0, unless the gate applies. *)
Theorem constant_series_reported (word : string) (labels : list string)
    (x : float) (N : Z) (thr gamma : float) (c : string) (g : rng) :
  2 <= length labels -> float_truthy x = true ->
  (1 <= N < 2 ^ 53)%Z ->
  Forall (fun m => is_nan m = false)
    (get_mean_shift_series (replicate (length labels) x) c) ->
  (x <? gamma)%float = false -> (0 <? thr)%float = true ->
  (exists g',
     get_p_value_series rng np_random_permutation word
       (get_mean_shift_series (replicate (length labels) x) c) N
       (replicate (length labels) x) c g
     = (Ok (replicate (length labels - 1) 0%float), g'))
  /\ exists label m g',
       detect_change_point rng np_random_permutation word labels
         (replicate (length labels) (Some x)) N thr gamma c g
       = (Ok (Some (word, label, 0%float, m, x)), g').
Proof.
  intros Hn Hx HN Hnan Hgam Hthr.
  set (n := length labels) in *.
  destruct (constant_series_p_values word n x c N g HN Hnan) as [g' Hp].
  split; [eauto|].
  assert (length labels = length (replicate n (Some x))) as Hlen
    by (rewrite length_replicate; reflexivity).
  assert (compact (replicate n (Some x)) <> []) as Hne.
  { rewrite compact_replicate by exact Hx. destruct n; [lia|discriminate]. }
  destruct (detect_change_point_unfold rng np_random_permutation
              np_random_permutation_spec word labels (replicate n (Some x)) N
              thr gamma c g Hlen Hne) as (p&g1&Hp1&Hl&Hd).
  rewrite (compact_replicate n x Hx) in Hp1, Hl, Hd.
  rewrite Hp in Hp1. injection Hp1 as <- <-.
  destruct (select_change_point_spec word
              (map snd (kept (replicate n (Some x)) labels)) (replicate n x)
              (get_mean_shift_series (replicate n x) c)
              (replicate (n - 1) 0%float) thr gamma)
    as (gated&min_p&Hgate&Hglen&Hmin&_&Hsome).
  { rewrite length_get_mean_shift_series, !length_replicate. reflexivity. }
  { rewrite !length_replicate. lia. }
  { rewrite (compact_nil_kept _ labels Hlen), compact_replicate by exact Hx.
    reflexivity. }
  { destruct n as [|[|n]]; [lia|lia|discriminate]. }
  assert (gated = replicate (n - 1) 0%float) as ->.
  { destruct (magnitude_gate_lookup (replicate n x) gamma
                (replicate (n - 1) 0%float)) as (q&Hq&Hlq&Hkq);
      [rewrite !length_replicate; lia|].
    rewrite Hgate in Hq. injection Hq as <-.
    apply list_eq. intros j.
    destruct (decide (j < n - 1)) as [Hj|Hj].
    - assert (replicate (n - 1) 0%float !! j = Some 0%float) as Hz0
        by (apply lookup_replicate_2; exact Hj).
      assert (replicate n x !! j = Some x) as Hzx
        by (apply lookup_replicate_2; lia).
      rewrite (Hkq j x 0%float Hzx Hz0), Hgam, Hz0. reflexivity.
    - rewrite (lookup_ge_None_2 gated j) by (rewrite Hlq, length_replicate; lia).
      symmetry. apply lookup_ge_None_2. rewrite length_replicate. lia. }
  apply np_min_replicate in Hmin. subst min_p.
  destruct (Hsome Hthr) as (cp&label&m&z&pv&Hs&_&_&_&Hz&_).
  apply lookup_replicate in Hz as [-> _].
  exists label, m, g'. rewrite Hd, Hs. reflexivity.
Qed.

End ConstantSeries.

Lemma constant_series_reported_witness :
  2 <= length ex_labels /\ float_truthy 1.5 = true
  /\ (1 <= 8 < 2 ^ 53)%Z
  /\ Forall (fun m => is_nan m = false)
       (get_mean_shift_series (replicate (length ex_labels) 1.5%float) "last")
  /\ (1.5 <? 0)%float = false /\ (0 <? 0.0625)%float = true
  /\ (exists g',
        get_p_value_series nat rotating_permutation "cat"
          (get_mean_shift_series (replicate (length ex_labels) 1.5%float)
             "last") 8
          (replicate (length ex_labels) 1.5%float) "last" 0
        = (Ok (replicate (length ex_labels - 1) 0%float), g'))
  /\ exists label m g',
       detect_change_point nat rotating_permutation "cat" ex_labels
         (replicate (length ex_labels) (Some 1.5%float)) 8 0.0625%float
         0%float "last" 0
       = (Ok (Some ("cat"%string, label, 0%float, m, 1.5%float)), g').
Proof.
  assert (Forall (fun m => is_nan m = false)
            (get_mean_shift_series (replicate (length ex_labels) 1.5%float)
               "last")) as Hnan by (repeat constructor).
  split; [cbn; lia|]. split; [reflexivity|]. split; [lia|].
  split; [exact Hnan|]. split; [reflexivity|]. split; [reflexivity|].
  exact (constant_series_reported nat rotating_permutation
           rotating_permutation_spec "cat" ex_labels 1.5%float 8 0.0625%float
           0%float "last" 0 ltac:(cbn; lia) eq_refl ltac:(lia) Hnan eq_refl
           eq_refl).
Defined.

(** ** The main block *)

Lemma labels_used_sublist (time_slice_labels : list string)
    (align_to compare_to : string) :
  sublist (labels_used time_slice_labels align_to compare_to) time_slice_labels.
Proof.
  unfold labels_used.
  etransitivity; [apply sublist_drop|apply sublist_take].
Qed.

Section MainBlock.

Variable keyed_vectors : Type.
Variable contains : keyed_vectors -> string -> bool.
Variable cosine : keyed_vectors -> keyed_vectors -> string -> float.
Variable measure_semantic_shift_by_neighborhood :
  keyed_vectors -> keyed_vectors -> string -> Z -> float.
Variable smart_procrustes_align_gensim :
  keyed_vectors -> keyed_vectors -> keyed_vectors.
Variable load_model : string -> result keyed_vectors.
Variable isfile : string -> bool.
Variable rng : Type.
Variable np_random_permutation : rng -> list float -> list float * rng.
Hypothesis np_random_permutation_spec :
  forall g l, Permutation (np_random_permutation g l).1 l.

(** X27: from the enumeration of the time slices to the report, when the
    model files listed load: the run raises nothing but
    [UnboundLocalError], and every row of a report is about a vocabulary
    word, has a p-value below the threshold, and names the time slice of a
    month of 2011 to 2018 between the first and the last time slice whose
    model file exists. *)
Theorem main_on_stored_vocab_spec (models_rootdir : string)
    (vector_size window_size min_count no_of_iter : Z)
    (first_year first_month last_year last_month : Z) (vocab : list string)
    (align_to distance_measure : string) (k_neighbors : Z)
    (training_mode : string) (o : options) (g : rng) :
  let run :=
    main_on_stored_vocab keyed_vectors contains cosine
      measure_semantic_shift_by_neighborhood smart_procrustes_align_gensim
      load_model isfile rng np_random_permutation models_rootdir vector_size
      window_size min_count no_of_iter first_year first_month last_year
      last_month vocab align_to distance_measure k_neighbors training_mode o g
  in
  Forall (fun q => exists m, load_model q = Ok m)
    (enumerate_time_slices isfile models_rootdir vector_size window_size
       min_count no_of_iter first_year first_month last_year last_month).1 ->
  (forall e, run.1 = Raise e -> e = UnboundLocalError)
  /\ forall report w l p m zv,
       run.1 = Ok report -> (w, l, p, m, zv) ∈ report ->
       w ∈ vocab
       /\ (p <? p_value_threshold o)%float = true
       /\ exists year month,
            l = time_slice_of year month
            /\ (2011 <= year <= 2018)%Z /\ (1 <= month <= 12)%Z
            /\ in_window first_year first_month last_year last_month
                 (year, month) = true
            /\ isfile (model_path_of models_rootdir vector_size window_size
                         min_count no_of_iter year month) = true.
Proof.
  intros run Hload. subst run. unfold main_on_stored_vocab.
  rewrite enumerate_time_slices_eq in *. cbn [fst] in Hload.
  set (slices := List.filter _ calendar) in *.
  set (paths := map _ slices) in *.
  set (labels := map (fun s => time_slice_of s.1 s.2) slices).
  assert (length labels = length paths) as Hlen
    by (subst labels paths; rewrite !length_map; reflexivity).
  destruct (snapshots_spec keyed_vectors contains cosine
              measure_semantic_shift_by_neighborhood
              smart_procrustes_align_gensim load_model paths labels vocab
              align_to (compare_to o) distance_measure k_neighbors training_mode
              Hlen Hload) as (dicts&Hrun&Hinv&_).
  unfold snapshots_then_analyse. rewrite Hrun.
  set (used := labels_used labels align_to (compare_to o)) in *.
  assert (forall w, w ∈ vocab ->
            exists zs, z_score_series_of dicts used w = Ok zs) as Hok
    by (intros w Hw; exact (z_score_series_of_complete dicts vocab w Hw _ Hinv)).
  split.
  - intros e He.
    assert ((collect_change_points rng np_random_permutation vocab dicts used
               (n_samples o) (p_value_threshold o) (gamma_threshold o)
               (compare_to o) g).1 = Raise e) as Hc.
    { unfold analyse in He.
      destruct (collect_change_points _ _ _ _ _ _ _ _ _ _) as [[rs|e1] g1];
        [discriminate|exact He]. }
    apply (collect_change_points_raises rng np_random_permutation
             np_random_permutation_spec dicts used _ _ _ _ vocab g e Hok) in Hc.
    exact (proj1 Hc).
  - intros report w l p m zv Hrep Hin.
    destruct (analyse rng np_random_permutation vocab dicts used o g)
      as [res g'] eqn:Ea. cbn [fst] in Hrep. subst res.
    pose proof (analyse_words rng np_random_permutation
                  np_random_permutation_spec _ _ _ _ _ _ _ Ea) as Hwords.
    destruct (analyse_inv rng np_random_permutation _ _ _ _ _ _ _ Ea)
      as (results&Hc&->).
    destruct (collect_change_points_inv rng np_random_permutation
                np_random_permutation_spec _ _ _ _ _ _ _ _ _ _ Hc)
      as [_ Hall].
    split.
    { eapply elem_of_submseteq; [|exact Hwords].
      apply list_elem_of_fmap. exists (w, l, p, m, zv). split; [reflexivity|].
      exact Hin. }
    destruct (py_slice_to_take (n_best o) (rank_results (rank_by o) results))
      as [k Hk].
    rewrite Hk in Hin. apply elem_of_take in Hin as (i&Hin&_).
    apply list_elem_of_lookup_2 in Hin.
    rewrite (rank_results_perm (rank_by o) results) in Hin.
    rewrite Forall_forall in Hall.
    destruct (Hall _ Hin) as (zs&g1&g2&Hz&Hd). cbn [cp_word] in Hz, Hd.
    pose proof (eq_sym (length_z_score_series_of dicts used w zs Hz)) as Hlz.
    destruct (detect_result_inv rng np_random_permutation
                np_random_permutation_spec w used zs _ _ _ _ g1 g2 _ Hlz Hd)
      as (p0&gated&min_p&cp&label&m0&zv0&pv&Hrow&_&_&_&_&_&Hp&_&_&_&_&_
          &(i0&_&Hli)&_).
    injection Hrow as -> -> -> ->. split; [exact Hp|].
    apply list_elem_of_lookup_2 in Hli.
    eapply elem_of_submseteq in Hli;
      [|apply sublist_submseteq, labels_used_sublist].
    subst labels. apply list_elem_of_fmap in Hli as ([year month]&->&Hs).
    exists year, month. split; [reflexivity|].
    subst slices. apply list_elem_of_In, filter_In in Hs as [Hcal Hsel].
    apply list_elem_of_In, calendar_elem in Hcal as [Hy Hm].
    unfold selected in Hsel. apply andb_true_iff in Hsel as [Hw Hf].
    auto.
Qed.

End MainBlock.

Lemma ex_run_models_load :
  Forall (fun q => exists m : list string,
            (fun _ : string => Ok ["cat"; "dog"]%string) q = Ok m)
    (enumerate_time_slices (fun _ => true) "models" 200 9 100 15 2012 1 2012
       3).1.
Proof. apply Forall_forall. intros q _. eexists. reflexivity. Qed.

Lemma main_on_stored_vocab_spec_witness :
  Forall (fun q => exists m : list string,
            (fun _ : string => Ok ["cat"; "dog"]%string) q = Ok m)
    (enumerate_time_slices (fun _ => true) "models" 200 9 100 15 2012 1 2012
       3).1
  /\ (forall e, ex_run.1 = Raise e -> e = UnboundLocalError)
  /\ forall report w l p m zv,
       ex_run.1 = Ok report -> (w, l, p, m, zv) ∈ report ->
       w ∈ ["cat"; "emu"]%string
       /\ (p <? p_value_threshold (ex_options "p_value"))%float = true
       /\ exists year month,
            l = time_slice_of year month
            /\ (2011 <= year <= 2018)%Z /\ (1 <= month <= 12)%Z
            /\ in_window 2012 1 2012 3 (year, month) = true
            /\ (fun _ : string => true)
                 (model_path_of "models" 200 9 100 15 year month) = true.
Proof.
  split; [exact ex_run_models_load|].
  exact (main_on_stored_vocab_spec (list string) ex_contains
           (fun _ _ _ => 0.25%float) (fun _ _ _ _ => 0.75%float) (fun _ m => m)
           (fun _ => Ok ["cat"; "dog"]%string) (fun _ => true) nat
           rotating_permutation rotating_permutation_spec "models" 200 9 100 15
           2012 1 2012 3 ["cat"; "emu"]%string "last" "neighborhood" 25
           "independent" (ex_options "p_value") 0 ex_run_models_load).
Defined.
